(** * DZ Input Analyzer: the timeline state machine of the OBS plugin

    A shallow embedding of [plugins/dz-input-analyzer/dz-input-analyzer.cpp]
    (the raw-input window procedure, the settings update, the history
    cleanup and the window mapper of the render pass), of the parts of
    its English copy that differ (the key names), and of the key handling
    of the older [backup manual] copy, followed by the properties of the
    timeline that the design document states and by further properties
    of the code.  The window procedure, the update and the cleanup of the
    English copy are those of the plugin up to identifiers and strings.

    Conventions.  Machine integers are [Z] and every narrowing conversion
    and every wrapping addition is written out ([wrap_s32], [wrap_u32], ...).
    [float] and [double] are IEEE binary32 and binary64 values of the
    Standard Library's [SpecFloat].  A [std::deque] is a [list] whose head
    is [front()]; [push_back] is [++ [x]].  A clock reading ([now_ms()]) is
    an argument of the operation that reads it. *)

From Stdlib Require Import ZArith List Bool Lia PeanoNat.
From Stdlib Require Import Floats.SpecFloat.
From Stdlib Require String Ascii.
Import ListNotations.

Local Open Scope Z_scope.

(* ------------------------------------------------------------------ *)
(** ** Machine integers *)

Module MachineInt.

Definition wrap_unsigned (bits z : Z) : Z := z mod 2 ^ bits.

Definition wrap_signed (bits z : Z) : Z :=
  (z + 2 ^ (bits - 1)) mod 2 ^ bits - 2 ^ (bits - 1).

Definition wrap_u8 := wrap_unsigned 8.
Definition wrap_u16 := wrap_unsigned 16.
Definition wrap_u32 := wrap_unsigned 32.
Definition wrap_u64 := wrap_unsigned 64.
Definition wrap_s32 := wrap_signed 32.
Definition wrap_s64 := wrap_signed 64.

Definition INT_MAX : Z := 2 ^ 31 - 1.
Definition INT64_MIN : Z := - 2 ^ 63.
Definition INT64_MAX : Z := 2 ^ 63 - 1.

(** [a - b] on [int64_t]. *)
Definition sub64 (a b : Z) : Z := wrap_s64 (a - b).

(** [x & mask] used as a condition. *)
Definition has_flag (x mask : Z) : bool := negb (Z.land x mask =? 0).

End MachineInt.
Import MachineInt.

(* ------------------------------------------------------------------ *)
(** ** IEEE arithmetic of the render pass *)

Module Ieee.

Definition float32 := spec_float.
Definition float64 := spec_float.

Definition prec32 : Z := 24.
Definition emax32 : Z := 128.
Definition prec64 : Z := 53.
Definition emax64 : Z := 1024.

(** [(float)z] and [(double)z] for an integer [z]. *)
Definition f32_of_Z (z : Z) : float32 := binary_normalize prec32 emax32 z 0 false.
Definition f64_of_Z (z : Z) : float64 := binary_normalize prec64 emax64 z 0 false.

(** [(float)x] for a [double] [x]: rounds to nearest, ties to even. *)
Definition f32_of_f64 (x : float64) : float32 :=
  match x with
  | S754_finite s m e => binary_round prec32 emax32 s m e
  | _ => x
  end.

(** [(double)x] for a [float] [x]: exact. *)
Definition f64_of_f32 (x : float32) : float64 :=
  match x with
  | S754_finite s m e => binary_round prec64 emax64 s m e
  | _ => x
  end.

Definition add32 := SFadd prec32 emax32.
Definition sub32 := SFsub prec32 emax32.
Definition mul64 := SFmul prec64 emax64.
Definition div64 := SFdiv prec64 emax64.
Definition div32 := SFdiv prec32 emax32.

Definition zero : spec_float := S754_zero false.

(** [std::clamp(v, lo, hi)]: [(v < lo) ? lo : (hi < v) ? hi : v]. *)
Definition clamp (v lo hi : spec_float) : spec_float :=
  if SFltb v lo then lo else if SFltb hi v then hi else v.

(** Structural equality of float values. *)
Definition sf_eqb (x y : spec_float) : bool :=
  match x, y with
  | S754_zero a, S754_zero b => Bool.eqb a b
  | S754_infinity a, S754_infinity b => Bool.eqb a b
  | S754_nan, S754_nan => true
  | S754_finite a m e, S754_finite b n f =>
      Bool.eqb a b && Pos.eqb m n && Z.eqb e f
  | _, _ => false
  end.

(** [1.0] as a [double]. *)
Definition one64 : float64 := S754_finite false 4503599627370496 (-52).

(** A [float] that is zero or a finite number in the binary32 format. *)
Definition is_finite_float32 (x : float32) : bool :=
  match x with
  | S754_zero _ => true
  | S754_finite _ m e => bounded prec32 emax32 m e
  | _ => false
  end.

(** The sign bit of a float that is not a NaN is [b]. *)
Definition has_sign (b : bool) (x : spec_float) : bool :=
  match x with
  | S754_zero s | S754_infinity s | S754_finite s _ _ => Bool.eqb s b
  | S754_nan => false
  end.

End Ieee.
Import Ieee.

(* ------------------------------------------------------------------ *)
(** ** Data model *)

(** [enum dz_row]. *)
Definition ROW_W : Z := 0.
Definition ROW_S : Z := 1.
Definition ROW_A : Z := 2.
Definition ROW_D : Z := 3.
Definition ROW_COUNT : Z := 4.

(** An array [T a[ROW_COUNT]].  Reading outside [0..3] yields the last
    element and writing there does nothing; the code never does either. *)
Record row_array (A : Type) := mk_rows { at0 : A; at1 : A; at2 : A; at3 : A }.
Arguments mk_rows {A}.
Arguments at0 {A}.
Arguments at1 {A}.
Arguments at2 {A}.
Arguments at3 {A}.

Definition row_get {A} (a : row_array A) (i : Z) : A :=
  match i with
  | 0 => at0 a
  | 1 => at1 a
  | 2 => at2 a
  | _ => at3 a
  end.

Definition row_set {A} (a : row_array A) (i : Z) (v : A) : row_array A :=
  match i with
  | 0 => mk_rows v (at1 a) (at2 a) (at3 a)
  | 1 => mk_rows (at0 a) v (at2 a) (at3 a)
  | 2 => mk_rows (at0 a) (at1 a) v (at3 a)
  | 3 => mk_rows (at0 a) (at1 a) (at2 a) v
  | _ => a
  end.

Definition row_fill {A} (v : A) : row_array A := mk_rows v v v v.

(** [struct dz_key_segment]; [end_ms < 0] while the key is held. *)
Record dz_key_segment := mk_segment {
  seg_row : Z;
  start_ms : Z;
  end_ms : Z
}.

(** [struct dz_click_event]. *)
Record dz_click_event := mk_click {
  click_row : Z;
  time_ms : Z;
  delta_ms : Z
}.

(** [struct dz_input_state]: the relaxed atomics of the raw input. *)
Record dz_input_state := mk_input_state {
  key_down : row_array Z;
  m1 : Z;
  m2 : Z;
  m3 : Z;
  last_dx : Z;
  last_dy : Z;
  total_dx : Z;
  total_dy : Z;
  mouse_events : Z;
  key_events : Z
}.

(** Handles of the host: the solid effect and the hidden window. *)
Definition gs_effect := positive.
Definition HWND := positive.

(** [struct dz_source_data]. *)
Record dz_source_data := mk_source_data {
  width : Z;
  height : Z;
  bg_alpha : float32;
  row_enabled : row_array bool;
  row_key_vkey : row_array Z;
  bg_color : Z;
  key_color : row_array Z;
  solid : option gs_effect;
  hwnd : option HWND;
  st : dz_input_state;
  segments : list dz_key_segment;
  clicks : list dz_click_event;
  last_key_row : Z;
  last_key_down_ms : Z;
  last_key_valid : Z;
  frame_counter : Z
}.

(** The settings object of the host, read through [obs_data_get_int],
    [obs_data_get_double] and [obs_data_get_bool]. *)
Record obs_data := mk_obs_data {
  s_width : Z;
  s_height : Z;
  s_bg_alpha : float64;
  s_bg_color : Z;
  s_color_w : Z;
  s_color_s : Z;
  s_color_a : Z;
  s_color_d : Z;
  s_row_w_key : Z;
  s_row_s_key : Z;
  s_row_a_key : Z;
  s_row_d_key : Z;
  s_row_w_enabled : bool;
  s_row_s_enabled : bool;
  s_row_a_enabled : bool;
  s_row_d_enabled : bool
}.

(** *** Field updates *)

Definition set_st (d : dz_source_data) (s : dz_input_state) : dz_source_data :=
  mk_source_data (width d) (height d) (bg_alpha d) (row_enabled d)
    (row_key_vkey d) (bg_color d) (key_color d) (solid d) (hwnd d) s
    (segments d) (clicks d) (last_key_row d) (last_key_down_ms d)
    (last_key_valid d) (frame_counter d).

Definition set_segments (d : dz_source_data) (l : list dz_key_segment) : dz_source_data :=
  mk_source_data (width d) (height d) (bg_alpha d) (row_enabled d)
    (row_key_vkey d) (bg_color d) (key_color d) (solid d) (hwnd d) (st d)
    l (clicks d) (last_key_row d) (last_key_down_ms d)
    (last_key_valid d) (frame_counter d).

Definition set_clicks (d : dz_source_data) (l : list dz_click_event) : dz_source_data :=
  mk_source_data (width d) (height d) (bg_alpha d) (row_enabled d)
    (row_key_vkey d) (bg_color d) (key_color d) (solid d) (hwnd d) (st d)
    (segments d) l (last_key_row d) (last_key_down_ms d)
    (last_key_valid d) (frame_counter d).

(** The three stores [last_key_row], [last_key_down_ms], [last_key_valid]. *)
Definition set_last_key (d : dz_source_data) (r t v : Z) : dz_source_data :=
  mk_source_data (width d) (height d) (bg_alpha d) (row_enabled d)
    (row_key_vkey d) (bg_color d) (key_color d) (solid d) (hwnd d) (st d)
    (segments d) (clicks d) r t v (frame_counter d).

Definition set_frame_counter (d : dz_source_data) (n : Z) : dz_source_data :=
  mk_source_data (width d) (height d) (bg_alpha d) (row_enabled d)
    (row_key_vkey d) (bg_color d) (key_color d) (solid d) (hwnd d) (st d)
    (segments d) (clicks d) (last_key_row d) (last_key_down_ms d)
    (last_key_valid d) n.

Definition set_key_down (s : dz_input_state) (a : row_array Z) : dz_input_state :=
  mk_input_state a (m1 s) (m2 s) (m3 s) (last_dx s) (last_dy s)
    (total_dx s) (total_dy s) (mouse_events s) (key_events s).

Definition set_m1 (s : dz_input_state) (v : Z) : dz_input_state :=
  mk_input_state (key_down s) v (m2 s) (m3 s) (last_dx s) (last_dy s)
    (total_dx s) (total_dy s) (mouse_events s) (key_events s).

Definition set_m2 (s : dz_input_state) (v : Z) : dz_input_state :=
  mk_input_state (key_down s) (m1 s) v (m3 s) (last_dx s) (last_dy s)
    (total_dx s) (total_dy s) (mouse_events s) (key_events s).

Definition set_m3 (s : dz_input_state) (v : Z) : dz_input_state :=
  mk_input_state (key_down s) (m1 s) (m2 s) v (last_dx s) (last_dy s)
    (total_dx s) (total_dy s) (mouse_events s) (key_events s).

(** The five stores at the head of the mouse branch. *)
Definition record_motion (s : dz_input_state) (dx dy : Z) : dz_input_state :=
  mk_input_state (key_down s) (m1 s) (m2 s) (m3 s) dx dy
    (wrap_s64 (total_dx s + dx)) (wrap_s64 (total_dy s + dy))
    (wrap_u32 (mouse_events s + 1)) (key_events s).

Definition count_key_event (s : dz_input_state) : dz_input_state :=
  mk_input_state (key_down s) (m1 s) (m2 s) (m3 s) (last_dx s) (last_dy s)
    (total_dx s) (total_dy s) (mouse_events s) (wrap_u32 (key_events s + 1)).

(* ------------------------------------------------------------------ *)
(** ** Raw input as the window procedure sees it *)

(** Constants of the Windows SDK headers. *)
Definition RIM_TYPEMOUSE : Z := 0.
Definition RIM_TYPEKEYBOARD : Z := 1.
Definition RIM_TYPEHID : Z := 2.
Definition RI_KEY_BREAK : Z := 1.
Definition RI_MOUSE_BUTTON_1_DOWN : Z := 1.
Definition RI_MOUSE_BUTTON_1_UP : Z := 2.
Definition RI_MOUSE_BUTTON_2_DOWN : Z := 4.
Definition RI_MOUSE_BUTTON_2_UP : Z := 8.
Definition RI_MOUSE_BUTTON_3_DOWN : Z := 16.
Definition RI_MOUSE_BUTTON_3_UP : Z := 32.

Record RAWMOUSE := mk_rawmouse {
  usButtonFlags : Z;
  lLastX : Z;
  lLastY : Z
}.

Record RAWKEYBOARD := mk_rawkeyboard {
  Flags : Z;
  VKey : Z
}.

(** [RAWINPUT]: the header's [dwType] selects the member of [data]. *)
Inductive RAWINPUT :=
| RawMouse (m : RAWMOUSE)
| RawKeyboard (k : RAWKEYBOARD)
| RawHid.

Definition dwType (ri : RAWINPUT) : Z :=
  match ri with
  | RawMouse _ => RIM_TYPEMOUSE
  | RawKeyboard _ => RIM_TYPEKEYBOARD
  | RawHid => RIM_TYPEHID
  end.

(** What the two calls of [GetRawInputData] answer for one handle: the
    return value and the size of the size query, then the return value
    of the read and the packet it copies into [buf]. *)
Record HRAWINPUT := mk_hrawinput {
  query_result : Z;
  reported_size : Z;
  read_result : Z;
  packet : RAWINPUT
}.

Inductive window_message :=
| WM_NCCREATE
| WM_INPUT (lparam : HRAWINPUT)
| WM_OTHER (msg : Z).

(** Every path of the window procedure returns what [DefWindowProcW]
    returns. *)
Inductive LRESULT := DefWindowProcW_result.

(** [sizeof(buf)] of [uint8_t buf[1u << 13]]. *)
Definition sizeof_buf : Z := 2 ^ 13.

(* ------------------------------------------------------------------ *)
(** ** The plugin ([dz-input-analyzer.cpp] and its English copy) *)

(** The loop of [vkey_to_row], [i] running over [ROW_COUNT] slots. *)
Fixpoint vkey_to_row_loop (keys : row_array Z) (vkey i : Z) (n : nat) : Z :=
  match n with
  | O => -1
  | S n' =>
      if row_get keys i =? vkey then i
      else vkey_to_row_loop keys vkey (i + 1) n'
  end.

Definition vkey_to_row (d : option dz_source_data) (vkey : Z) : Z :=
  match d with
  | None => -1
  | Some d => vkey_to_row_loop (row_key_vkey d) vkey 0 (Z.to_nat ROW_COUNT)
  end.

(** [it->row == row && it->end_ms < 0]. *)
Definition is_open_for (row : Z) (s : dz_key_segment) : bool :=
  (seg_row s =? row) && (end_ms s <? 0).

(** The scan [for (it = rbegin(); it != rend(); ++it)] of the press
    branch, over the reversed deque. *)
Fixpoint scan_has_open (rsegs : list dz_key_segment) (row : Z) : bool :=
  match rsegs with
  | [] => false
  | s :: rest => if is_open_for row s then true else scan_has_open rest row
  end.

Definition has_open (segs : list dz_key_segment) (row : Z) : bool :=
  scan_has_open (rev segs) row.

(** The scan of the release branch: the first hit gets [end_ms = t]. *)
Fixpoint scan_close (rsegs : list dz_key_segment) (row t : Z) : list dz_key_segment :=
  match rsegs with
  | [] => []
  | s :: rest =>
      if is_open_for row s then mk_segment (seg_row s) (start_ms s) t :: rest
      else s :: scan_close rest row t
  end.

Definition close_latest_open (segs : list dz_key_segment) (row t : Z) : list dz_key_segment :=
  rev (scan_close (rev segs) row t).

(** [if (!already && !has_open)] of the press branch. *)
Definition starts_segment (already has_open_seg : bool) : bool :=
  negb already && negb has_open_seg.

(** The click of [RI_MOUSE_BUTTON_1_DOWN]: row and delta of the new
    [dz_click_event], read from the last key pressed. *)
Definition click_of (d : dz_source_data) (t : Z) : dz_click_event :=
  if negb (last_key_valid d =? 0) then
    let lk := last_key_down_ms d in
    let raw_delta := sub64 t lk in
    mk_click (last_key_row d) t (if 0 <? raw_delta then wrap_s32 raw_delta else 0)
  else
    mk_click ROW_D t 0.

(** The branch [dwType == RIM_TYPEMOUSE]; [t] is [now_ms()]. *)
Definition on_raw_mouse (d : dz_source_data) (m : RAWMOUSE) (t : Z) : dz_source_data :=
  let dx := wrap_s32 (lLastX m) in
  let dy := wrap_s32 (lLastY m) in
  let d := set_st d (record_motion (st d) dx dy) in
  let bf := usButtonFlags m in
  let d :=
    if has_flag bf RI_MOUSE_BUTTON_1_DOWN then
      let d := set_st d (set_m1 (st d) 1) in
      set_clicks d (clicks d ++ [click_of d t])
    else d in
  let d := if has_flag bf RI_MOUSE_BUTTON_1_UP then set_st d (set_m1 (st d) 0) else d in
  let d := if has_flag bf RI_MOUSE_BUTTON_2_DOWN then set_st d (set_m2 (st d) 1) else d in
  let d := if has_flag bf RI_MOUSE_BUTTON_2_UP then set_st d (set_m2 (st d) 0) else d in
  let d := if has_flag bf RI_MOUSE_BUTTON_3_DOWN then set_st d (set_m3 (st d) 1) else d in
  let d := if has_flag bf RI_MOUSE_BUTTON_3_UP then set_st d (set_m3 (st d) 0) else d in
  d.

(** The branch [dwType == RIM_TYPEKEYBOARD]; [t] is [now_ms()]. *)
Definition on_raw_keyboard (d : dz_source_data) (k : RAWKEYBOARD) (t : Z) : dz_source_data :=
  let is_break := has_flag (Flags k) RI_KEY_BREAK in
  let vkey := wrap_u16 (VKey k) in
  let row := vkey_to_row (Some d) vkey in
  let was_down :=
    if row =? -1 then false else negb (row_get (key_down (st d)) row =? 0) in
  let d :=
    if row =? -1 then d
    else set_st d (set_key_down (st d)
                     (row_set (key_down (st d)) row (if is_break then 0 else 1))) in
  let d :=
    if row =? -1 then d
    else if negb is_break then
      let already := was_down in
      if starts_segment already (has_open (segments d) row) then
        set_last_key (set_segments d (segments d ++ [mk_segment row t (-1)])) row t 1
      else d
    else set_segments d (close_latest_open (segments d) row t) in
  set_st d (count_key_event (st d)).

(** The body of [case WM_INPUT] once [d] is known not to be null. *)
Definition on_wm_input (d : dz_source_data) (h : HRAWINPUT) (t : Z) : dz_source_data :=
  if negb (query_result h =? 0) then d
  else
    let size := reported_size h in
    if (size =? 0) || (2 ^ 16 <? size) then d
    else if sizeof_buf <? size then d
    else if negb (read_result h =? size) then d
    else
      match packet h with
      | RawMouse m => on_raw_mouse d m t
      | RawKeyboard k => on_raw_keyboard d k t
      | RawHid => d
      end.

(** [dz_wndproc]: [userdata] is what [GetWindowLongPtrW] hands back, the
    instance or null. *)
Definition dz_wndproc (userdata : option dz_source_data) (msg : window_message) (t : Z)
  : option dz_source_data * LRESULT :=
  match msg with
  | WM_NCCREATE => (userdata, DefWindowProcW_result)
  | WM_INPUT h =>
      match userdata with
      | None => (None, DefWindowProcW_result)
      | Some d => (Some (on_wm_input d h t), DefWindowProcW_result)
      end
  | WM_OTHER _ => (userdata, DefWindowProcW_result)
  end.

(** [dz_obter_vkey]. *)
Definition dz_obter_vkey (setting padrao : Z) : Z :=
  let valor := wrap_s32 setting in
  if negb (valor =? 0) then wrap_u16 valor else padrao.

(** The assignments shared by [dz_source_create] and [dz_source_update]. *)
Definition apply_settings (d : dz_source_data) (s : obs_data) : dz_source_data :=
  let w := wrap_s32 (s_width s) in
  let h := wrap_s32 (s_height s) in
  mk_source_data
    (if 0 <? w then wrap_u32 w else width d)
    (if 0 <? h then wrap_u32 h else height d)
    (clamp (f32_of_f64 (s_bg_alpha s)) (f32_of_Z 0) (f32_of_Z 1))
    (mk_rows (s_row_w_enabled s) (s_row_s_enabled s) (s_row_a_enabled s) (s_row_d_enabled s))
    (mk_rows (dz_obter_vkey (s_row_w_key s) 87) (dz_obter_vkey (s_row_s_key s) 83)
             (dz_obter_vkey (s_row_a_key s) 65) (dz_obter_vkey (s_row_d_key s) 68))
    (wrap_u32 (s_bg_color s))
    (mk_rows (wrap_u32 (s_color_w s)) (wrap_u32 (s_color_s s))
             (wrap_u32 (s_color_a s)) (wrap_u32 (s_color_d s)))
    (solid d) (hwnd d) (st d) (segments d) (clicks d)
    (last_key_row d) (last_key_down_ms d) (last_key_valid d) (frame_counter d).

(** The default member initialisers of [dz_source_data]. *)
Definition default_source_data : dz_source_data :=
  mk_source_data 1500 520 (div32 (f32_of_Z 55) (f32_of_Z 100))
    (row_fill true) (mk_rows 87 83 65 68) 0
    (mk_rows 6146291 10289052 4145103 13148170)
    None None
    (mk_input_state (row_fill 0) 0 0 0 0 0 0 0 0 0)
    [] [] ROW_D 0 0 0.

(** [dz_source_create]; the host answers with the solid effect and the
    hidden window, either of which may be null. *)
Definition dz_source_create (s : obs_data) (effect : option gs_effect) (window : option HWND)
  : dz_source_data :=
  let d := apply_settings default_source_data s in
  mk_source_data (width d) (height d) (bg_alpha d) (row_enabled d)
    (row_key_vkey d) (bg_color d) (key_color d) effect window (st d)
    (segments d) (clicks d) (last_key_row d) (last_key_down_ms d)
    (last_key_valid d) (frame_counter d).

(** The loop [for (i = 0; i < ROW_COUNT; i++) key_down[i].store(0)]. *)
Fixpoint clear_key_down (a : row_array Z) (i : Z) (n : nat) : row_array Z :=
  match n with
  | O => a
  | S n' => clear_key_down (row_set a i 0) (i + 1) n'
  end.

(** [dz_source_update]. *)
Definition dz_source_update (d : dz_source_data) (s : obs_data) : dz_source_data :=
  let d := apply_settings d s in
  set_st d (set_key_down (st d) (clear_key_down (key_down (st d)) 0 (Z.to_nat ROW_COUNT))).

(** The first loop of [dz_cleanup_history]. *)
Fixpoint pop_old_clicks (cs : list dz_click_event) (keep_after : Z) : list dz_click_event :=
  match cs with
  | [] => []
  | c :: rest => if time_ms c <? keep_after then pop_old_clicks rest keep_after else cs
  end.

(** [end0]: the end of a segment, or now while it is open. *)
Definition effective_end (s : dz_key_segment) (t_now_ms : Z) : Z :=
  if end_ms s <? 0 then t_now_ms else end_ms s.

(** The second loop of [dz_cleanup_history]. *)
Fixpoint pop_old_segments (segs : list dz_key_segment) (t_now_ms keep_after : Z)
  : list dz_key_segment :=
  match segs with
  | [] => []
  | s0 :: rest =>
      if keep_after <=? effective_end s0 t_now_ms then segs
      else pop_old_segments rest t_now_ms keep_after
  end.

Definition dz_cleanup_history (d : dz_source_data) (t_now_ms : Z) : dz_source_data :=
  let keep_after := sub64 t_now_ms 30000 in
  let d := set_clicks d (pop_old_clicks (clicks d) keep_after) in
  set_segments d (pop_old_segments (segments d) t_now_ms keep_after).

(** What [dz_source_render] does to the instance: nothing without the
    solid effect, else one more frame and one cleanup at [tNow]. *)
Definition dz_source_render (d : dz_source_data) (tNow : Z) : dz_source_data :=
  match solid d with
  | None => d
  | Some _ =>
      dz_cleanup_history (set_frame_counter d (wrap_u64 (frame_counter d + 1))) tNow
  end.

(* ------------------------------------------------------------------ *)
(** ** The window mapper of the render pass *)

Definition leftPad : float32 := f32_of_Z 70.
Definition rightPad : float32 := f32_of_Z 20.
Definition WINDOW_MS : Z := 5000.

(** The lambda [xOf] of [dz_source_render], with what it captures. *)
Definition xOf (timelineX0 timelineW : float32) (t0 t1 t : Z) : float32 :=
  let denom := f64_of_Z (sub64 t1 t0) in
  if SFleb denom zero then timelineX0
  else
    let u := div64 (f64_of_Z (sub64 t t0)) denom in
    add32 timelineX0 (f32_of_f64 (mul64 u (f64_of_f32 timelineW))).

(** The lambda [clampf]: [std::max(a, std::min(b, v))]. *)
Definition clampf (v a b : float32) : float32 :=
  let lo := if SFltb v b then v else b in
  if SFltb a lo then lo else a.

Definition timelineX0 : float32 := leftPad.
Definition timelineX1 (d : dz_source_data) : float32 := sub32 (f32_of_Z (width d)) rightPad.
Definition timelineW (d : dz_source_data) : float32 := sub32 (timelineX1 d) timelineX0.

(** [xOf] as the frame rendered at [tNow] uses it: [t0 = tNow - WINDOW_MS],
    [t1 = tNow]. *)
Definition render_xOf (d : dz_source_data) (tNow t : Z) : float32 :=
  xOf timelineX0 (timelineW d) (sub64 tNow WINDOW_MS) tNow t.

(** The left and right ends of the bar drawn for a segment. *)
Definition bar_x0 (d : dz_source_data) (tNow : Z) (seg : dz_key_segment) : float32 :=
  clampf (render_xOf d tNow (start_ms seg)) timelineX0 (timelineX1 d).

Definition bar_x1 (d : dz_source_data) (tNow : Z) (seg : dz_key_segment) : float32 :=
  clampf (render_xOf d tNow (effective_end seg tNow)) timelineX0 (timelineX1 d).

(** The mapper as the design document words it:
    [x(t) = X0 + clamp01((t - (now - WINDOW_MS)) / WINDOW_MS) * timelineWidth],
    evaluated in the arithmetic of the code. *)
Definition clamp01 (u : float64) : float64 := clamp u (f64_of_Z 0) (f64_of_Z 1).

Definition xOf_documented (X0 tw : float32) (now t : Z) : float32 :=
  let u := div64 (f64_of_Z (t - (now - WINDOW_MS))) (f64_of_Z WINDOW_MS) in
  add32 X0 (f32_of_f64 (mul64 (clamp01 u) (f64_of_f32 tw))).

(** The same formula with [clamp01] left out. *)
Definition xOf_unclamped (X0 tw : float32) (now t : Z) : float32 :=
  let u := div64 (f64_of_Z (t - (now - WINDOW_MS))) (f64_of_Z WINDOW_MS) in
  add32 X0 (f32_of_f64 (mul64 u (f64_of_f32 tw))).

(** The quotient [(double)k / (double)WINDOW_MS] is neither below 0 nor
    above 1, so that [clamp01] leaves it as it is. *)
Definition in_unit_range (k : Z) : bool :=
  let u := div64 (f64_of_Z k) (f64_of_Z WINDOW_MS) in
  negb (SFltb u (f64_of_Z 0)) && negb (SFltb (f64_of_Z 1) u).

(** [p] holds of the [n] integers from [k] on. *)
Fixpoint all_from (p : Z -> bool) (k : Z) (n : nat) : bool :=
  match n with
  | O => true
  | S n' => p k && all_from p (k + 1) n'
  end.

(* ------------------------------------------------------------------ *)
(** ** The key handling of the [backup manual] copy *)

Module Backup.

(** The part of the copy's [dz_source_data] that a key event touches. *)
Record state := mk_state {
  key_w : Z;
  key_a : Z;
  key_s : Z;
  key_d : Z;
  b_segments : list dz_key_segment;
  b_last_key_row : Z;
  b_last_key_down_ms : Z;
  b_last_key_valid : Z;
  b_key_events : Z
}.

Definition vkey_to_row (vkey : Z) : Z :=
  if vkey =? 87 then ROW_W
  else if vkey =? 83 then ROW_S
  else if vkey =? 65 then ROW_A
  else if vkey =? 68 then ROW_D
  else -1.

(** [if (!has_open)] of the copy's press branch. *)
Definition starts_segment (has_open_seg : bool) : bool := negb has_open_seg.

(** The chain [if (vkey == 'W') set_key(key_w); else if ...]. *)
Definition store_key (b : state) (vkey v : Z) : state :=
  if vkey =? 87 then
    mk_state v (key_a b) (key_s b) (key_d b) (b_segments b)
      (b_last_key_row b) (b_last_key_down_ms b) (b_last_key_valid b) (b_key_events b)
  else if vkey =? 65 then
    mk_state (key_w b) v (key_s b) (key_d b) (b_segments b)
      (b_last_key_row b) (b_last_key_down_ms b) (b_last_key_valid b) (b_key_events b)
  else if vkey =? 83 then
    mk_state (key_w b) (key_a b) v (key_d b) (b_segments b)
      (b_last_key_row b) (b_last_key_down_ms b) (b_last_key_valid b) (b_key_events b)
  else if vkey =? 68 then
    mk_state (key_w b) (key_a b) (key_s b) v (b_segments b)
      (b_last_key_row b) (b_last_key_down_ms b) (b_last_key_valid b) (b_key_events b)
  else b.

Definition with_timeline (b : state) (segs : list dz_key_segment) (r t v : Z) : state :=
  mk_state (key_w b) (key_a b) (key_s b) (key_d b) segs r t v (b_key_events b).

(** The branch [dwType == RIM_TYPEKEYBOARD] of the copy.  Its [already]
    is computed and never read. *)
Definition on_raw_keyboard (b : state) (k : RAWKEYBOARD) (t : Z) : state :=
  let is_break := has_flag (Flags k) RI_KEY_BREAK in
  let vkey := wrap_u16 (VKey k) in
  let b := store_key b vkey (if is_break then 0 else 1) in
  let row := vkey_to_row vkey in
  let b :=
    if row =? -1 then b
    else if negb is_break then
      if starts_segment (has_open (b_segments b) row) then
        with_timeline b (b_segments b ++ [mk_segment row t (-1)]) row t 1
      else b
    else
      with_timeline b (close_latest_open (b_segments b) row t)
        (b_last_key_row b) (b_last_key_down_ms b) (b_last_key_valid b) in
  mk_state (key_w b) (key_a b) (key_s b) (key_d b) (b_segments b)
    (b_last_key_row b) (b_last_key_down_ms b) (b_last_key_valid b)
    (wrap_u32 (b_key_events b + 1)).

Definition initial : state := mk_state 0 0 0 0 [] ROW_D 0 0 0.

Definition b_cursor (b : state) : Z * Z * Z :=
  (b_last_key_row b, b_last_key_down_ms b, b_last_key_valid b).

(** A sequence of key packets, each with the clock reading at its
    arrival. *)
Definition run_keys (b : state) (evs : list (RAWKEYBOARD * Z)) : state :=
  fold_left (fun b e => on_raw_keyboard b (fst e) (snd e)) evs b.

End Backup.

(* ------------------------------------------------------------------ *)
(** ** Histories of one source instance *)

(** What can happen to an instance after [dz_source_create]: a message to
    the hidden window (the clock reads [t] meanwhile), a settings update,
    a rendered frame (the clock reads [tNow]). *)
Inductive operation :=
| Message (msg : window_message) (t : Z)
| Update (s : obs_data)
| Render (tNow : Z).

Definition step (d : dz_source_data) (op : operation) : dz_source_data :=
  match op with
  | Message msg t =>
      match fst (dz_wndproc (Some d) msg t) with
      | Some d' => d'
      | None => d
      end
  | Update s => dz_source_update d s
  | Render tNow => dz_source_render d tNow
  end.

Definition run (d : dz_source_data) (ops : list operation) : dz_source_data :=
  fold_left step ops d.

(** A reading of the steady clock in milliseconds: a non-negative
    [int64_t]. *)
Definition clock_ok (t : Z) : bool := (0 <=? t) && (t <=? INT64_MAX).

Definition op_clock_ok (op : operation) : bool :=
  match op with
  | Message _ t => clock_ok t
  | Update _ => true
  | Render tNow => clock_ok tNow
  end.

(** The clock never runs backwards along a history that starts at [t0]. *)
Fixpoint clock_monotone (t0 : Z) (ops : list operation) : bool :=
  match ops with
  | [] => true
  | Message _ t :: rest => (t0 <=? t) && clock_monotone t rest
  | Render t :: rest => (t0 <=? t) && clock_monotone t rest
  | Update _ :: rest => clock_monotone t0 rest
  end.

(** *** Raw input packets that pass the size checks *)

Definition payload_accepted (h : HRAWINPUT) : bool :=
  (query_result h =? 0) && negb (reported_size h =? 0)
  && (reported_size h <=? sizeof_buf) && (read_result h =? reported_size h).

(** A keyboard packet and a mouse packet of the sizes Windows reports on
    a 64-bit build. *)
Definition key_packet (flags vkey : Z) : HRAWINPUT :=
  mk_hrawinput 0 40 40 (RawKeyboard (mk_rawkeyboard flags vkey)).

Definition mouse_packet (button_flags : Z) : HRAWINPUT :=
  mk_hrawinput 0 48 48 (RawMouse (mk_rawmouse button_flags 0 0)).

Definition key_press (vkey t : Z) : operation := Message (WM_INPUT (key_packet 0 vkey)) t.
Definition key_release (vkey t : Z) : operation :=
  Message (WM_INPUT (key_packet RI_KEY_BREAK vkey)) t.
Definition left_click (t : Z) : operation :=
  Message (WM_INPUT (mouse_packet RI_MOUSE_BUTTON_1_DOWN)) t.

(** The settings the host holds when nothing was changed:
    [dz_source_defaults]. *)
Definition default_settings : obs_data :=
  mk_obs_data 1500 520 (div64 (f64_of_Z 55) (f64_of_Z 100)) 0
    6146291 10289052 4145103 13148170 87 83 65 68 true true true true.

Definition fresh_source : dz_source_data :=
  dz_source_create default_settings (Some 1%positive) (Some 1%positive).

(** *** Observations on the timeline *)

(** How many segments of [segs] are open for [row]. *)
Definition open_count (segs : list dz_key_segment) (row : Z) : nat :=
  length (filter (is_open_for row) segs).

(** The Last-Key-Pressed cursor. *)
Definition cursor (d : dz_source_data) : Z * Z * Z :=
  (last_key_row d, last_key_down_ms d, last_key_valid d).

(** [was_down] of the key branch: the flag of [row] before the event. *)
Definition was_down (d : dz_source_data) (row : Z) : bool :=
  negb (row_get (key_down (st d)) row =? 0).

(** A row marked down has an open segment. *)
Definition down_implies_open (d : dz_source_data) : Prop :=
  forall i, 0 <= i < ROW_COUNT -> was_down d i = true -> has_open (segments d) i = true.

(** Click times never decrease along the deque. *)
Fixpoint clicks_sorted (cs : list dz_click_event) : Prop :=
  match cs with
  | [] => True
  | c :: rest => Forall (fun c' => time_ms c <= time_ms c') rest /\ clicks_sorted rest
  end.

(** The same key packets delivered to the plugin. *)
Definition run_keys (d : dz_source_data) (evs : list (RAWKEYBOARD * Z)) : dz_source_data :=
  fold_left (fun d e => on_raw_keyboard d (fst e) (snd e)) evs d.

(** The clock reading of an operation. *)
Definition op_time (op : operation) : Z :=
  match op with
  | Message _ t => t
  | Update _ => 0
  | Render tNow => tNow
  end.

(** [op] delivers a key-down packet for the key [vkey], one that passes
    the size checks. *)
Definition is_press_of (vkey : Z) (op : operation) : bool :=
  match op with
  | Message (WM_INPUT h) _ =>
      payload_accepted h &&
      match packet h with
      | RawKeyboard k =>
          (wrap_u16 (VKey k) =? vkey) && negb (has_flag (Flags k) RI_KEY_BREAK)
      | _ => false
      end
  | _ => false
  end.

(** *** Further observations *)

(** [op] delivers a key-up packet for the key [vkey], one that passes the
    size checks. *)
Definition is_release_of (vkey : Z) (op : operation) : bool :=
  match op with
  | Message (WM_INPUT h) _ =>
      payload_accepted h &&
      match packet h with
      | RawKeyboard k => (wrap_u16 (VKey k) =? vkey) && has_flag (Flags k) RI_KEY_BREAK
      | _ => false
      end
  | _ => false
  end.

(** Every row stored in the timeline is an index of the row arrays. *)
Definition rows_in_bounds (d : dz_source_data) : Prop :=
  Forall (fun s => 0 <= seg_row s < ROW_COUNT) (segments d) /\
  Forall (fun c => 0 <= click_row c < ROW_COUNT) (clicks d) /\
  0 <= last_key_row d < ROW_COUNT.

(** Segment starts never decrease along the deque. *)
Fixpoint starts_sorted (segs : list dz_key_segment) : Prop :=
  match segs with
  | [] => True
  | s :: rest => Forall (fun s' => start_ms s <= start_ms s') rest /\ starts_sorted rest
  end.

(** A segment is open with the sentinel, or ends no earlier than it
    starts. *)
Definition well_formed_segment (s : dz_key_segment) : Prop :=
  end_ms s = -1 \/ start_ms s <= end_ms s.

(** Starts in order, none after the last clock reading, every segment
    well formed. *)
Definition segments_in_order (tl : Z) (d : dz_source_data) : Prop :=
  starts_sorted (segments d) /\
  Forall (fun s => start_ms s <= tl) (segments d) /\
  Forall well_formed_segment (segments d).

(** Before the first press that starts a segment: no segment yet, and
    every click carries the fallback row and a delta of 0. *)
Definition never_pressed (d : dz_source_data) : Prop :=
  last_key_valid d = 0 /\ segments d = [] /\
  Forall (fun c => click_row c = ROW_D /\ delta_ms c = 0) (clicks d).

(** With the clock at [t0] when the instance was created and at [tl]
    now: every delta lies between 0 and the age of its click, and the
    cursor, once valid, holds a clock reading of that span. *)
Definition deltas_in_range (t0 tl : Z) (d : dz_source_data) : Prop :=
  t0 <= tl /\
  Forall (fun c => 0 <= delta_ms c <= time_ms c - t0) (clicks d) /\
  (last_key_valid d = 0 \/ t0 <= last_key_down_ms d <= tl).

(** The sizes the host is told: [dz_source_get_width] and
    [dz_source_get_height], null instance included. *)
Definition dz_source_get_width (d : option dz_source_data) : Z :=
  match d with
  | Some d => width d
  | None => 0
  end.

Definition dz_source_get_height (d : option dz_source_data) : Z :=
  match d with
  | Some d => height d
  | None => 0
  end.

(* ------------------------------------------------------------------ *)
(** ** Colours *)

(** [vec4] of the graphics library, as [vec4_set] fills it. *)
Record vec4 := mk_vec4 { vx : float32; vy : float32; vz : float32; vw : float32 }.

Definition dz_col_rgba (r g b a : float32) : vec4 := mk_vec4 r g b a.

(** [dz_col_from_obs_bgr]: the colour property holds [0x00BBGGRR]. *)
Definition dz_col_from_obs_bgr (bgr : Z) (a : float32) : vec4 :=
  let r := div32 (f32_of_Z (Z.land bgr 255)) (f32_of_Z 255) in
  let g := div32 (f32_of_Z (Z.land (Z.shiftr bgr 8) 255)) (f32_of_Z 255) in
  let b := div32 (f32_of_Z (Z.land (Z.shiftr bgr 16) 255)) (f32_of_Z 255) in
  dz_col_rgba r g b a.

(** [std::clamp] on [int]. *)
Definition clamp_int (v lo hi : Z) : Z :=
  if v <? lo then lo else if hi <? v then hi else v.

(** [row_color]. *)
Definition row_color (d : option dz_source_data) (row : Z) (a : float32) : vec4 :=
  match d with
  | None => dz_col_rgba (f32_of_Z 1) (f32_of_Z 1) (f32_of_Z 1) a
  | Some d =>
      let idx := clamp_int row 0 (ROW_COUNT - 1) in
      dz_col_from_obs_bgr (row_get (key_color d) idx) a
  end.

(** A float between 0 and 1, ends included. *)
Definition in_unit_interval (x : spec_float) : bool :=
  SFleb (f32_of_Z 0) x && SFleb x (f32_of_Z 1).

(** Not a NaN. *)
Definition is_number (x : spec_float) : bool :=
  match x with
  | S754_nan => false
  | _ => true
  end.

(* ------------------------------------------------------------------ *)
(** ** Key names and the bitmap font *)

Section KeyNamesAndFont.
Import String Ascii.

(** Virtual-key codes of the Windows SDK headers. *)
Definition VK_TAB : Z := 9.
Definition VK_RETURN : Z := 13.
Definition VK_SHIFT : Z := 16.
Definition VK_CONTROL : Z := 17.
Definition VK_MENU : Z := 18.
Definition VK_ESCAPE : Z := 27.
Definition VK_SPACE : Z := 32.
Definition VK_LEFT : Z := 37.
Definition VK_UP : Z := 38.
Definition VK_RIGHT : Z := 39.
Definition VK_DOWN : Z := 40.
Definition VK_F1 : Z := 112.
Definition VK_F2 : Z := 113.
Definition VK_F3 : Z := 114.
Definition VK_F4 : Z := 115.
Definition VK_F5 : Z := 116.
Definition VK_F6 : Z := 117.
Definition VK_F7 : Z := 118.
Definition VK_F8 : Z := 119.
Definition VK_F9 : Z := 120.
Definition VK_F10 : Z := 121.
Definition VK_F11 : Z := 122.
Definition VK_F12 : Z := 123.

(** [kKeyOptions] of the plugin: virtual key and name. *)
Definition kKeyOptions : list (Z * string) :=
  [(65, "A"%string); (66, "B"%string); (67, "C"%string); (68, "D"%string); (69, "E"%string); (70, "F"%string);
   (71, "G"%string); (72, "H"%string); (73, "I"%string); (74, "J"%string); (75, "K"%string); (76, "L"%string);
   (77, "M"%string); (78, "N"%string); (79, "O"%string); (80, "P"%string); (81, "Q"%string); (82, "R"%string);
   (83, "S"%string); (84, "T"%string); (85, "U"%string); (86, "V"%string); (87, "W"%string); (88, "X"%string);
   (89, "Y"%string); (90, "Z"%string); (48, "0"%string); (49, "1"%string); (50, "2"%string); (51, "3"%string);
   (52, "4"%string); (53, "5"%string); (54, "6"%string); (55, "7"%string); (56, "8"%string); (57, "9"%string);
   (VK_LEFT, "SETA ESQUERDA"%string); (VK_RIGHT, "SETA DIREITA"%string);
   (VK_UP, "SETA CIMA"%string); (VK_DOWN, "SETA BAIXO"%string); (VK_SPACE, "ESPACO"%string);
   (VK_RETURN, "ENTRAR"%string); (VK_TAB, "TAB"%string); (VK_ESCAPE, "ESC"%string);
   (VK_SHIFT, "MAIUSC"%string); (VK_CONTROL, "CTRL"%string); (VK_MENU, "ALT"%string);
   (VK_F1, "F1"%string); (VK_F2, "F2"%string); (VK_F3, "F3"%string); (VK_F4, "F4"%string); (VK_F5, "F5"%string);
   (VK_F6, "F6"%string); (VK_F7, "F7"%string); (VK_F8, "F8"%string); (VK_F9, "F9"%string);
   (VK_F10, "F10"%string); (VK_F11, "F11"%string); (VK_F12, "F12"%string)].

(** [kKeyOptions] of the English copy. *)
Definition kKeyOptions_en : list (Z * string) :=
  [(65, "A"%string); (66, "B"%string); (67, "C"%string); (68, "D"%string); (69, "E"%string); (70, "F"%string);
   (71, "G"%string); (72, "H"%string); (73, "I"%string); (74, "J"%string); (75, "K"%string); (76, "L"%string);
   (77, "M"%string); (78, "N"%string); (79, "O"%string); (80, "P"%string); (81, "Q"%string); (82, "R"%string);
   (83, "S"%string); (84, "T"%string); (85, "U"%string); (86, "V"%string); (87, "W"%string); (88, "X"%string);
   (89, "Y"%string); (90, "Z"%string); (48, "0"%string); (49, "1"%string); (50, "2"%string); (51, "3"%string);
   (52, "4"%string); (53, "5"%string); (54, "6"%string); (55, "7"%string); (56, "8"%string); (57, "9"%string);
   (VK_LEFT, "LEFT ARROW"%string); (VK_RIGHT, "RIGHT ARROW"%string); (VK_UP, "UP ARROW"%string);
   (VK_DOWN, "DOWN ARROW"%string); (VK_SPACE, "SPACE"%string); (VK_RETURN, "ENTER"%string);
   (VK_TAB, "TAB"%string); (VK_ESCAPE, "ESC"%string); (VK_SHIFT, "SHIFT"%string);
   (VK_CONTROL, "CTRL"%string); (VK_MENU, "ALT"%string); (VK_F1, "F1"%string); (VK_F2, "F2"%string);
   (VK_F3, "F3"%string); (VK_F4, "F4"%string); (VK_F5, "F5"%string); (VK_F6, "F6"%string); (VK_F7, "F7"%string);
   (VK_F8, "F8"%string); (VK_F9, "F9"%string); (VK_F10, "F10"%string); (VK_F11, "F11"%string);
   (VK_F12, "F12"%string)].

(** The cases of [glyph_5x7]: a character and its seven row masks, the
    leftmost pixel in bit 4. *)
Definition glyph_cases : list (ascii * list Z) :=
  [("A"%char, [4; 10; 17; 31; 17; 17; 17]);
   ("B"%char, [30; 17; 17; 30; 17; 17; 30]);
   ("C"%char, [14; 17; 16; 16; 16; 17; 14]);
   ("D"%char, [30; 17; 17; 17; 17; 17; 30]);
   ("E"%char, [31; 16; 16; 30; 16; 16; 31]);
   ("F"%char, [31; 16; 16; 30; 16; 16; 16]);
   ("G"%char, [14; 17; 16; 23; 17; 17; 14]);
   ("H"%char, [17; 17; 17; 31; 17; 17; 17]);
   ("I"%char, [14; 4; 4; 4; 4; 4; 14]);
   ("J"%char, [7; 2; 2; 2; 18; 18; 12]);
   ("K"%char, [17; 18; 20; 24; 20; 18; 17]);
   ("L"%char, [16; 16; 16; 16; 16; 16; 31]);
   ("M"%char, [17; 27; 21; 21; 17; 17; 17]);
   ("N"%char, [17; 25; 21; 19; 17; 17; 17]);
   ("O"%char, [14; 17; 17; 17; 17; 17; 14]);
   ("P"%char, [30; 17; 17; 30; 16; 16; 16]);
   ("Q"%char, [14; 17; 17; 17; 21; 18; 13]);
   ("R"%char, [30; 17; 17; 30; 20; 18; 17]);
   ("S"%char, [15; 16; 16; 14; 1; 1; 30]);
   ("T"%char, [31; 4; 4; 4; 4; 4; 4]);
   ("U"%char, [17; 17; 17; 17; 17; 17; 14]);
   ("V"%char, [17; 17; 17; 17; 17; 10; 4]);
   ("W"%char, [17; 17; 17; 21; 21; 21; 10]);
   ("X"%char, [17; 17; 10; 4; 10; 17; 17]);
   ("Y"%char, [17; 17; 10; 4; 4; 4; 4]);
   ("Z"%char, [31; 1; 2; 4; 8; 16; 31]);
   ("0"%char, [14; 17; 19; 21; 25; 17; 14]);
   ("1"%char, [4; 12; 4; 4; 4; 4; 14]);
   ("2"%char, [14; 17; 1; 2; 4; 8; 31]);
   ("3"%char, [30; 1; 1; 14; 1; 1; 30]);
   ("4"%char, [2; 6; 10; 18; 31; 2; 2]);
   ("5"%char, [31; 16; 16; 30; 1; 1; 30]);
   ("6"%char, [14; 16; 16; 30; 17; 17; 14]);
   ("7"%char, [31; 1; 2; 4; 8; 8; 8]);
   ("8"%char, [14; 17; 17; 14; 17; 17; 14]);
   ("9"%char, [14; 17; 17; 15; 1; 1; 14])].

(** The loop of [dz_nome_tecla] and of [dz_key_name]: the name of the
    first option with the key, else [unknown]. *)
Fixpoint find_key_name (opts : list (Z * string)) (unknown : string) (vkey : Z) : string :=
  match opts with
  | [] => unknown
  | (k, nome) :: rest => if k =? vkey then nome else find_key_name rest unknown vkey
  end.

Definition dz_nome_tecla (vkey : Z) : string :=
  find_key_name kKeyOptions "DESCONHECIDA"%string vkey.

(** [dz_key_name] of the English copy. *)
Definition dz_key_name (vkey : Z) : string :=
  find_key_name kKeyOptions_en "UNKNOWN"%string vkey.

(** [dz_titulo_tecla] and [dz_key_title]. *)
Definition dz_titulo_tecla (vkey : Z) : string := ("Tecla " ++ dz_nome_tecla vkey)%string.
Definition dz_key_title (vkey : Z) : string := ("Key " ++ dz_key_name vkey)%string.

(** The [switch] of [glyph_5x7]. *)
Fixpoint glyph_case (cases : list (ascii * list Z)) (ch : ascii) : option (list Z) :=
  match cases with
  | [] => None
  | (c, g) :: rest => if Ascii.eqb c ch then Some g else glyph_case rest ch
  end.

(** [glyph_5x7]: [g[row]] of the case of [ch], 0 by default.  The callers
    pass rows 0..6. *)
Definition glyph_5x7 (ch : ascii) (row : Z) : Z :=
  match glyph_case glyph_cases ch with
  | Some g => nth (Z.to_nat row) g 0
  | None => 0
  end.

(** The scale of a row label in the render pass of the plugin
    ([dz-input-analyzer.cpp], lines 979-983): 4, 3 above ten characters,
    2 above sixteen.  (The English copy draws a shortened label at
    0.85 times these scales.) *)
Definition label_scale (label : string) : float32 :=
  let label_len := Z.of_nat (String.length label) in
  let scale := f32_of_Z 4 in
  let scale := if 10 <? label_len then f32_of_Z 3 else scale in
  let scale := if 16 <? label_len then f32_of_Z 2 else scale in
  scale.

(** [std::floor] on [float]. *)
Definition floor32 (x : float32) : float32 :=
  match x with
  | S754_finite s m e =>
      if 0 <=? e then x
      else
        let q := cond_Zopp s (Zpos m) / 2 ^ (- e) in
        if q =? 0 then S754_zero s else f32_of_Z q
  | _ => x
  end.

Definition mul32 := SFmul prec32 emax32.

(** [std::max(a, b)]: [(a < b) ? b : a]. *)
Definition max32 (a b : float32) : float32 := if SFltb a b then b else a.

(** One call of [dz_draw_rect]: position, size, colour. *)
Record draw_call := mk_draw_call {
  rect_x : float32;
  rect_y : float32;
  rect_w : float32;
  rect_h : float32;
  rect_color : vec4
}.

(** The loop over the five columns of one glyph row. *)
Fixpoint draw_glyph_columns (bits : Z) (pen_x y cell : float32) (color : vec4)
    (r c : Z) (n : nat) : list draw_call :=
  match n with
  | O => []
  | S n' =>
      (if has_flag bits (Z.shiftl 1 (4 - c))
       then [mk_draw_call (add32 pen_x (mul32 (f32_of_Z c) cell))
                          (add32 y (mul32 (f32_of_Z r) cell)) cell cell color]
       else [])
      ++ draw_glyph_columns bits pen_x y cell color r (c + 1) n'
  end.

(** The loop over the seven rows of one glyph. *)
Fixpoint draw_glyph_rows (ch : ascii) (pen_x y cell : float32) (color : vec4)
    (r : Z) (n : nat) : list draw_call :=
  match n with
  | O => []
  | S n' =>
      draw_glyph_columns (wrap_u8 (glyph_5x7 ch r)) pen_x y cell color r 0 5
      ++ draw_glyph_rows ch pen_x y cell color (r + 1) n'
  end.

(** The loop over the characters: a space moves the pen, any other
    character draws its glyph and moves the pen. *)
Fixpoint draw_chars (text : string) (pen_x y cell : float32) (color : vec4)
  : list draw_call :=
  match text with
  | EmptyString => []
  | String ch rest =>
      if Ascii.eqb ch " "%char then
        draw_chars rest (add32 pen_x (mul32 (f32_of_Z 6) cell)) y cell color
      else
        draw_glyph_rows ch pen_x y cell color 0 7
        ++ draw_chars rest (add32 pen_x (mul32 (f32_of_Z 6) cell)) y cell color
  end.

(** [dz_draw_text_5x7]: the calls of [dz_draw_rect] it makes, in order.
    A null or empty text draws nothing. *)
Definition dz_draw_text_5x7 (x y : float32) (text : option string) (scale : float32)
    (color : vec4) : list draw_call :=
  match text with
  | None => []
  | Some EmptyString => []
  | Some t =>
      let px := max32 (f32_of_Z 1) (floor32 scale) in
      let cell := px in
      draw_chars t x y cell color
  end.

(** A character whose glyph has at least one pixel. *)
Definition has_pixels (ch : ascii) : bool :=
  existsb (fun r => negb (glyph_5x7 ch (Z.of_nat r) =? 0)) (seq 0 7).

Fixpoint all_chars (p : ascii -> bool) (s : string) : bool :=
  match s with
  | EmptyString => true
  | String ch rest => p ch && all_chars p rest
  end.

(** A text of which [dz_draw_text_5x7] shows every character: each is a
    space or has pixels. *)
Definition is_legible (name : string) : bool :=
  all_chars (fun ch => Ascii.eqb ch " "%char || has_pixels ch) name.

(** Each option is found under its own key, the names tell the keys
    apart, and none of them is the name of the unknown key. *)
Definition table_is_a_bijection (opts : list (Z * string)) (unknown : string) : bool :=
  forallb (fun o => String.eqb (find_key_name opts unknown (fst o)) (snd o)) opts &&
  forallb (fun o1 =>
             forallb (fun o2 => negb (String.eqb (snd o1) (snd o2)) || (fst o1 =? fst o2))
               opts) opts &&
  forallb (fun o => negb (String.eqb (snd o) unknown)) opts.

(** Equality of two lists of row masks. *)
Fixpoint masks_eqb (a b : list Z) : bool :=
  match a, b with
  | [], [] => true
  | x :: a', y :: b' => (x =? y) && masks_eqb a' b'
  | _, _ => false
  end.

(** No two cases of the font have the same masks. *)
Definition glyphs_differ (cases : list (ascii * list Z)) : bool :=
  forallb (fun a =>
             forallb (fun b => negb (masks_eqb (snd a) (snd b)) || Ascii.eqb (fst a) (fst b))
               cases) cases.

End KeyNamesAndFont.

(* ------------------------------------------------------------------ *)
(** ** The rows of the render pass *)

Definition topPad : float32 := f32_of_Z 18.
Definition bottomPad : float32 := f32_of_Z 55.
Definition rowGap : float32 := f32_of_Z 20.

(** The loop counting [visible_rows]. *)
Fixpoint count_visible (en : row_array bool) (i : Z) (n : nat) : Z :=
  match n with
  | O => 0
  | S n' => (if row_get en i then 1 else 0) + count_visible en (i + 1) n'
  end.

Definition visible_rows (d : dz_source_data) : Z :=
  count_visible (row_enabled d) 0 (Z.to_nat ROW_COUNT).

(** [rowH] of [dz_source_render]. *)
Definition render_rowH (d : dz_source_data) : float32 :=
  let H := f32_of_Z (height d) in
  let rowsAreaH := sub32 (sub32 H topPad) bottomPad in
  if 0 <? visible_rows d then
    floor32 (div32 (sub32 rowsAreaH (mul32 rowGap (f32_of_Z (visible_rows d - 1))))
                   (f32_of_Z (visible_rows d)))
  else f32_of_Z 0.

(** The loop that places the enabled rows, [row_index] counting them. *)
Fixpoint place_rows (en : row_array bool) (rowH : float32) (rowYs : row_array float32)
    (i row_index : Z) (n : nat) : row_array float32 :=
  match n with
  | O => rowYs
  | S n' =>
      if negb (row_get en i) then place_rows en rowH rowYs (i + 1) row_index n'
      else
        place_rows en rowH
          (row_set rowYs i (add32 topPad (mul32 (f32_of_Z row_index) (add32 rowH rowGap))))
          (i + 1) (row_index + 1) n'
  end.

(** [rowYs] of [dz_source_render]. *)
Definition render_rowYs (d : dz_source_data) : row_array float32 :=
  let rowYs := row_fill (f32_of_Z (-1)) in
  if 0 <? visible_rows d then
    place_rows (row_enabled d) (render_rowH d) rowYs 0 0 (Z.to_nat ROW_COUNT)
  else rowYs.

(** How many of the rows before [i] are enabled. *)
Definition enabled_before (d : dz_source_data) (i : Z) : Z :=
  count_visible (row_enabled d) 0 (Z.to_nat i).

(** *** Proof automation *)

(** Case analysis on every condition of a straight-line block. *)
Ltac split_ifs :=
  repeat match goal with
         | |- context [if ?b then _ else _] => destruct b
         end.

(* ================================================================== *)
(** * Properties *)

(** ** Machine integers and row arrays *)

Lemma wrap_s64_small z : INT64_MIN <= z <= INT64_MAX -> wrap_s64 z = z.
Proof.
  unfold wrap_s64, wrap_signed, INT64_MIN, INT64_MAX. intros H.
  rewrite Z.mod_small; lia.
Qed.

Lemma wrap_s32_small z : - 2 ^ 31 <= z <= INT_MAX -> wrap_s32 z = z.
Proof.
  unfold wrap_s32, wrap_signed, INT_MAX. intros H.
  rewrite Z.mod_small; lia.
Qed.

Lemma clock_ok_range t : clock_ok t = true -> 0 <= t <= INT64_MAX.
Proof. unfold clock_ok. intros H. apply andb_true_iff in H. lia. Qed.

Lemma sub64_clock a b :
  clock_ok a = true -> 0 <= b <= INT64_MAX -> sub64 a b = a - b.
Proof.
  intros Ha Hb. apply clock_ok_range in Ha. unfold sub64.
  apply wrap_s64_small. unfold INT64_MIN, INT64_MAX in *. lia.
Qed.

Lemma row_get_set_same {A} (a : row_array A) i v :
  0 <= i < ROW_COUNT -> row_get (row_set a i v) i = v.
Proof.
  unfold ROW_COUNT. intros H.
  assert (i = 0 \/ i = 1 \/ i = 2 \/ i = 3) as [->|[->|[->| ->]]] by lia;
    reflexivity.
Qed.

Lemma row_get_set_other {A} (a : row_array A) i j v :
  0 <= i < ROW_COUNT -> 0 <= j < ROW_COUNT -> i <> j ->
  row_get (row_set a i v) j = row_get a j.
Proof.
  unfold ROW_COUNT. intros Hi Hj Hne.
  assert (i = 0 \/ i = 1 \/ i = 2 \/ i = 3) as [->|[->|[->| ->]]] by lia;
    assert (j = 0 \/ j = 1 \/ j = 2 \/ j = 3) as [->|[->|[->| ->]]] by lia;
    try reflexivity; contradiction.
Qed.

Lemma clear_key_down_all a : clear_key_down a 0 (Z.to_nat ROW_COUNT) = row_fill 0.
Proof. reflexivity. Qed.

(** ** The key map *)

Lemma vkey_to_row_loop_range keys vkey n : forall i r,
  vkey_to_row_loop keys vkey i n = r ->
  r = -1 \/ (i <= r < i + Z.of_nat n /\ row_get keys r = vkey).
Proof.
  induction n as [|n IH]; intros i r H; simpl in H.
  - left. congruence.
  - destruct (row_get keys i =? vkey) eqn:E.
    + right. subst r. apply Z.eqb_eq in E. split; [lia | exact E].
    + apply IH in H. destruct H as [H | [H1 H2]]; [left; exact H | right].
      split; [lia | exact H2].
Qed.

Lemma vkey_to_row_range d vkey :
  vkey_to_row (Some d) vkey = -1 \/ 0 <= vkey_to_row (Some d) vkey < ROW_COUNT.
Proof.
  unfold vkey_to_row.
  remember (vkey_to_row_loop (row_key_vkey d) vkey 0 (Z.to_nat ROW_COUNT)) as r eqn:E.
  symmetry in E. apply vkey_to_row_loop_range in E.
  destruct E as [E | [E _]]; [left; exact E | right].
  unfold ROW_COUNT in *. change (Z.of_nat (Z.to_nat 4)) with 4 in E. lia.
Qed.

(** ** Scanning the segment deque *)

Lemma scan_has_open_existsb l row : scan_has_open l row = existsb (is_open_for row) l.
Proof.
  induction l as [|s l IH]; simpl; [reflexivity|].
  destruct (is_open_for row s); simpl; [reflexivity | exact IH].
Qed.

Lemma existsb_rev_eq {A} (f : A -> bool) l : existsb f (rev l) = existsb f l.
Proof.
  induction l as [|x l IH]; simpl; [reflexivity|].
  rewrite existsb_app, IH. simpl. rewrite orb_false_r. apply orb_comm.
Qed.

Lemma has_open_existsb segs row : has_open segs row = existsb (is_open_for row) segs.
Proof. unfold has_open. rewrite scan_has_open_existsb. apply existsb_rev_eq. Qed.

Lemma has_open_app segs s row :
  has_open (segs ++ [s]) row = has_open segs row || is_open_for row s.
Proof. rewrite !has_open_existsb, existsb_app. simpl. now rewrite orb_false_r. Qed.

Lemma has_open_count segs row :
  has_open segs row = false <-> open_count segs row = 0%nat.
Proof.
  rewrite has_open_existsb. unfold open_count.
  induction segs as [|s l IH]; simpl; [tauto|].
  destruct (is_open_for row s); simpl; [split; discriminate | exact IH].
Qed.

Lemma open_count_app segs s row :
  open_count (segs ++ [s]) row
  = (open_count segs row + (if is_open_for row s then 1 else 0))%nat.
Proof.
  unfold open_count. rewrite filter_app, length_app. simpl.
  destruct (is_open_for row s); reflexivity.
Qed.

Lemma is_open_for_new row t r : is_open_for r (mk_segment row t (-1)) = (row =? r).
Proof. unfold is_open_for. simpl. apply andb_true_r. Qed.

(** Closing keeps the shape of the deque: the hit, once found, is the
    only element that differs. *)
Lemma scan_close_miss l row t :
  scan_has_open l row = false -> scan_close l row t = l.
Proof.
  induction l as [|s l IH]; simpl; [reflexivity|].
  destruct (is_open_for row s); [discriminate|].
  intros H. now rewrite IH.
Qed.

Lemma scan_close_hit l row t :
  scan_has_open l row = true ->
  exists before s after,
    l = before ++ s :: after /\
    forallb (fun s' => negb (is_open_for row s')) before = true /\
    is_open_for row s = true /\
    scan_close l row t = before ++ mk_segment (seg_row s) (start_ms s) t :: after.
Proof.
  induction l as [|s l IH]; simpl; [discriminate|].
  destruct (is_open_for row s) eqn:E.
  - intros _. exists [], s, l. simpl. auto.
  - intros H. destruct (IH H) as (b & s' & a & -> & Hb & Hs & Hc).
    exists (s :: b), s', a. simpl. rewrite E, Hb, Hc. auto.
Qed.

Lemma scan_close_count l row t r :
  (length (filter (is_open_for r) (scan_close l row t))
   <= length (filter (is_open_for r) l))%nat.
Proof.
  induction l as [|s l IH]; simpl; [lia|].
  destruct (is_open_for row s) eqn:E; simpl.
  - unfold is_open_for in *. simpl.
    apply andb_true_iff in E. destruct E as [E1 E2].
    destruct (seg_row s =? r); simpl; [|lia].
    rewrite E2. destruct (t <? 0); simpl; lia.
  - destruct (is_open_for r s); simpl; lia.
Qed.

Lemma close_latest_open_count segs row t r :
  (open_count (close_latest_open segs row t) r <= open_count segs r)%nat.
Proof.
  unfold open_count, close_latest_open.
  rewrite <- (length_rev (filter _ segs)), <- filter_rev.
  rewrite <- (length_rev (filter _ (rev _))), <- filter_rev, rev_involutive.
  apply scan_close_count.
Qed.

Lemma scan_close_other l row t r :
  r <> row ->
  existsb (is_open_for r) (scan_close l row t) = existsb (is_open_for r) l.
Proof.
  intros Hne. induction l as [|s l IH]; simpl; [reflexivity|].
  destruct (is_open_for row s) eqn:E; simpl.
  - unfold is_open_for in *. simpl.
    apply andb_true_iff in E. destruct E as [E1 _]. apply Z.eqb_eq in E1.
    replace (seg_row s =? r) with false by (symmetry; apply Z.eqb_neq; lia).
    reflexivity.
  - now rewrite IH.
Qed.

Lemma close_latest_open_other segs row t r :
  r <> row -> has_open (close_latest_open segs row t) r = has_open segs r.
Proof.
  intros Hne. rewrite !has_open_existsb. unfold close_latest_open.
  rewrite existsb_rev_eq, scan_close_other by exact Hne. apply existsb_rev_eq.
Qed.

(** ** What one event does to each part of the instance *)

Lemma on_wm_input_accepted d h t :
  payload_accepted h = true ->
  on_wm_input d h t =
  match packet h with
  | RawMouse m => on_raw_mouse d m t
  | RawKeyboard k => on_raw_keyboard d k t
  | RawHid => d
  end.
Proof.
  unfold payload_accepted, on_wm_input, sizeof_buf. intros H.
  repeat (apply andb_true_iff in H; destruct H as [H ?]).
  apply negb_true_iff in H2. apply Z.leb_le in H1.
  rewrite H, H2, H0.
  replace (2 ^ 16 <? reported_size h) with false by (symmetry; apply Z.ltb_ge; lia).
  replace (2 ^ 13 <? reported_size h) with false by (symmetry; apply Z.ltb_ge; lia).
  reflexivity.
Qed.

Lemma on_wm_input_rejected d h t :
  payload_accepted h = false -> on_wm_input d h t = d.
Proof.
  unfold payload_accepted, on_wm_input, sizeof_buf. intros H.
  destruct (query_result h =? 0); [|reflexivity].
  destruct (reported_size h =? 0); [reflexivity|].
  destruct (Z.ltb_spec (2 ^ 13) (reported_size h)) as [Hs|Hs].
  - now destruct (2 ^ 16 <? reported_size h).
  - replace (2 ^ 16 <? reported_size h) with false by (symmetry; apply Z.ltb_ge; lia).
    destruct (read_result h =? reported_size h); [|reflexivity].
    apply Z.leb_le in Hs. rewrite Hs in H. discriminate H.
Qed.

(** The mouse branch leaves the segments and the cursor alone and appends
    a click exactly when button 1 goes down. *)
Lemma on_raw_mouse_segments d m t : segments (on_raw_mouse d m t) = segments d.
Proof. unfold on_raw_mouse. cbv zeta. split_ifs; reflexivity. Qed.

Lemma on_raw_mouse_cursor d m t : cursor (on_raw_mouse d m t) = cursor d.
Proof. unfold on_raw_mouse. cbv zeta. split_ifs; reflexivity. Qed.

Lemma on_raw_mouse_key_down d m t :
  key_down (st (on_raw_mouse d m t)) = key_down (st d).
Proof. unfold on_raw_mouse. cbv zeta. split_ifs; reflexivity. Qed.

Lemma on_raw_mouse_clicks d m t :
  clicks (on_raw_mouse d m t) =
  if has_flag (usButtonFlags m) RI_MOUSE_BUTTON_1_DOWN
  then clicks d ++ [click_of d t] else clicks d.
Proof. unfold on_raw_mouse. cbv zeta. split_ifs; reflexivity. Qed.

(** The key branch, field by field.  [row] is the row of the key. *)
Section KeyBranch.
Variables (d : dz_source_data) (k : RAWKEYBOARD) (t : Z).

Let row := vkey_to_row (Some d) (wrap_u16 (VKey k)).
Let is_break := has_flag (Flags k) RI_KEY_BREAK.

Lemma on_raw_keyboard_unmapped :
  row = -1 -> on_raw_keyboard d k t = set_st d (count_key_event (st d)).
Proof.
  subst row. intros H. unfold on_raw_keyboard. cbv zeta. rewrite H. reflexivity.
Qed.

Lemma on_raw_keyboard_clicks : clicks (on_raw_keyboard d k t) = clicks d.
Proof. unfold on_raw_keyboard. cbv zeta. split_ifs; reflexivity. Qed.

Lemma on_raw_keyboard_segments :
  row <> -1 ->
  segments (on_raw_keyboard d k t) =
  if is_break then close_latest_open (segments d) row t
  else if starts_segment (was_down d row) (has_open (segments d) row)
       then segments d ++ [mk_segment row t (-1)]
       else segments d.
Proof.
  subst row is_break. intros H. apply Z.eqb_neq in H.
  unfold on_raw_keyboard, was_down. cbv zeta. rewrite H.
  destruct (has_flag (Flags k) RI_KEY_BREAK); simpl; [reflexivity|].
  split_ifs; reflexivity.
Qed.

Lemma on_raw_keyboard_cursor :
  row <> -1 ->
  cursor (on_raw_keyboard d k t) =
  if negb is_break && starts_segment (was_down d row) (has_open (segments d) row)
  then (row, t, 1) else cursor d.
Proof.
  subst row is_break. intros H. apply Z.eqb_neq in H.
  unfold on_raw_keyboard, was_down. cbv zeta. rewrite H.
  destruct (has_flag (Flags k) RI_KEY_BREAK); simpl; [reflexivity|].
  split_ifs; reflexivity.
Qed.

Lemma on_raw_keyboard_key_down :
  row <> -1 ->
  key_down (st (on_raw_keyboard d k t)) =
  row_set (key_down (st d)) row (if is_break then 0 else 1).
Proof.
  subst row is_break. intros H. apply Z.eqb_neq in H.
  unfold on_raw_keyboard. cbv zeta. rewrite H.
  destruct (has_flag (Flags k) RI_KEY_BREAK); simpl; [reflexivity|].
  split_ifs; reflexivity.
Qed.

Lemma on_raw_keyboard_config :
  row_key_vkey (on_raw_keyboard d k t) = row_key_vkey d.
Proof. unfold on_raw_keyboard. cbv zeta. split_ifs; reflexivity. Qed.

End KeyBranch.

(** Cleanup pops from the front only. *)
Lemma pop_old_clicks_suffix cs keep :
  exists popped, cs = popped ++ pop_old_clicks cs keep /\
                 Forall (fun c => time_ms c < keep) popped.
Proof.
  induction cs as [|c cs IH]; simpl.
  - exists []. auto.
  - destruct (Z.ltb_spec (time_ms c) keep) as [H|H].
    + destruct IH as (p & E & F). exists (c :: p). simpl. rewrite <- E. auto.
    + exists []. auto.
Qed.

Lemma pop_old_segments_suffix segs now keep :
  exists popped, segs = popped ++ pop_old_segments segs now keep /\
                 Forall (fun s => effective_end s now < keep) popped.
Proof.
  induction segs as [|s segs IH]; simpl.
  - exists []. auto.
  - destruct (Z.leb_spec keep (effective_end s now)) as [H|H].
    + exists []. auto.
    + destruct IH as (p & E & F). exists (s :: p). simpl. rewrite <- E. auto.
Qed.

Lemma pop_old_segments_count segs now keep r :
  (open_count (pop_old_segments segs now keep) r <= open_count segs r)%nat.
Proof.
  destruct (pop_old_segments_suffix segs now keep) as (p & E & _).
  unfold open_count. rewrite E at 2. rewrite filter_app, length_app. lia.
Qed.

(** An open segment is as young as now: it stops the second loop. *)
Lemma pop_old_segments_has_open segs now keep r :
  keep <= now ->
  has_open (pop_old_segments segs now keep) r = has_open segs r.
Proof.
  intros Hk. rewrite !has_open_existsb.
  induction segs as [|s segs IH]; simpl; [reflexivity|].
  destruct (Z.leb_spec keep (effective_end s now)) as [H|H]; [reflexivity|].
  rewrite IH. replace (is_open_for r s) with false; [reflexivity|].
  unfold effective_end, is_open_for in *.
  destruct (end_ms s <? 0); [lia|]. now rewrite andb_false_r.
Qed.

Lemma dz_cleanup_history_segments d now :
  segments (dz_cleanup_history d now)
  = pop_old_segments (segments d) now (sub64 now 30000).
Proof. reflexivity. Qed.

Lemma dz_cleanup_history_clicks d now :
  clicks (dz_cleanup_history d now) = pop_old_clicks (clicks d) (sub64 now 30000).
Proof. reflexivity. Qed.

(** ** Histories *)

Lemma run_app d ops ops' : run d (ops ++ ops') = run (run d ops) ops'.
Proof. apply fold_left_app. Qed.

Lemma run_invariant (P : dz_source_data -> Prop) (ok : operation -> bool) :
  (forall d op, ok op = true -> P d -> P (step d op)) ->
  forall ops d, forallb ok ops = true -> P d -> P (run d ops).
Proof.
  intros Hstep. induction ops as [|op ops IH]; intros d Hok Hd; simpl in *.
  - exact Hd.
  - apply andb_true_iff in Hok. destruct Hok as [H1 H2].
    apply IH; [exact H2 | apply Hstep; assumption].
Qed.

Lemma forallb_always {A} (l : list A) : forallb (fun _ => true) l = true.
Proof. induction l; simpl; auto. Qed.

(** A case analysis on one step: the instance is untouched, or took a
    mouse packet, a key packet, an update, or a cleanup at a new frame. *)
Lemma step_cases (P : dz_source_data -> Prop) d op :
  P d ->
  (forall h m t, op = Message (WM_INPUT h) t -> payload_accepted h = true ->
                 packet h = RawMouse m -> P (on_raw_mouse d m t)) ->
  (forall h k t, op = Message (WM_INPUT h) t -> payload_accepted h = true ->
                 packet h = RawKeyboard k -> P (on_raw_keyboard d k t)) ->
  (forall s, op = Update s -> P (dz_source_update d s)) ->
  (forall now, op = Render now ->
     P (dz_cleanup_history (set_frame_counter d (wrap_u64 (frame_counter d + 1))) now)) ->
  P (step d op).
Proof.
  intros Hd Hm Hk Hu Hr. destruct op as [[| h |] t | s | now]; simpl; auto.
  - destruct (payload_accepted h) eqn:E.
    + rewrite on_wm_input_accepted by exact E.
      destruct (packet h) eqn:Ep; eauto.
    + rewrite on_wm_input_rejected by exact E. exact Hd.
  - unfold dz_source_render. destruct (solid d); auto.
Qed.

Lemma open_count_step d op r :
  (open_count (segments d) r <= 1)%nat ->
  (open_count (segments (step d op)) r <= 1)%nat.
Proof.
  intros H. apply step_cases; auto.
  - intros h m t _ _ _. now rewrite on_raw_mouse_segments.
  - intros h k t _ _ _.
    destruct (Z.eq_dec (vkey_to_row (Some d) (wrap_u16 (VKey k))) (-1)) as [E|E].
    + now rewrite on_raw_keyboard_unmapped.
    + rewrite on_raw_keyboard_segments by exact E.
      set (row := vkey_to_row (Some d) (wrap_u16 (VKey k))).
      destruct (has_flag (Flags k) RI_KEY_BREAK).
      * etransitivity; [apply close_latest_open_count | exact H].
      * unfold starts_segment.
        destruct (was_down d row); simpl; [exact H|].
        destruct (has_open (segments d) row) eqn:Eo; simpl; [exact H|].
        rewrite open_count_app, is_open_for_new.
        destruct (Z.eqb_spec row r) as [->|_]; [|lia].
        apply has_open_count in Eo. lia.
  - intros now _. rewrite dz_cleanup_history_segments.
    etransitivity; [apply pop_old_segments_count | exact H].
Qed.

(** *** The flag of a row and its open segment *)

Lemma down_implies_open_keyboard d k t :
  down_implies_open d -> down_implies_open (on_raw_keyboard d k t).
Proof.
  intros H.
  destruct (Z.eq_dec (vkey_to_row (Some d) (wrap_u16 (VKey k))) (-1)) as [E|E].
  - now rewrite on_raw_keyboard_unmapped.
  - intros i Hi. unfold was_down.
    rewrite on_raw_keyboard_key_down, on_raw_keyboard_segments by exact E.
    set (row := vkey_to_row (Some d) (wrap_u16 (VKey k))) in *.
    assert (Hrow : 0 <= row < ROW_COUNT)
      by (destruct (vkey_to_row_range d (wrap_u16 (VKey k))); [contradiction | assumption]).
    destruct (Z.eq_dec i row) as [->|Hne].
    + rewrite row_get_set_same by exact Hrow.
      destruct (has_flag (Flags k) RI_KEY_BREAK); simpl; [discriminate|].
      intros _. unfold starts_segment.
      destruct (was_down d row) eqn:Ew; simpl; [now apply H|].
      destruct (has_open (segments d) row) eqn:Eo; simpl; [exact Eo|].
      rewrite has_open_app, is_open_for_new, Z.eqb_refl. apply orb_true_r.
    + rewrite row_get_set_other by (auto; lia).
      intros Hd. specialize (H i Hi Hd).
      destruct (has_flag (Flags k) RI_KEY_BREAK).
      * now rewrite close_latest_open_other.
      * destruct (starts_segment _ _); [|exact H].
        rewrite has_open_app, H. reflexivity.
Qed.

Lemma down_implies_open_step d op :
  op_clock_ok op = true -> down_implies_open d -> down_implies_open (step d op).
Proof.
  intros Hok H. apply step_cases; auto.
  - intros h m t _ _ _ i Hi. unfold was_down.
    rewrite on_raw_mouse_key_down, on_raw_mouse_segments. now apply H.
  - intros h k t _ _ _. now apply down_implies_open_keyboard.
  - intros s _ i Hi. unfold was_down, dz_source_update. simpl.
    unfold ROW_COUNT in Hi.
    assert (i = 0 \/ i = 1 \/ i = 2 \/ i = 3) as [->|[->|[->| ->]]] by lia;
      discriminate.
  - intros now -> i Hi. rewrite dz_cleanup_history_segments. simpl in Hok.
    rewrite pop_old_segments_has_open.
    + apply H, Hi.
    + rewrite sub64_clock by (auto; unfold INT64_MAX; lia). lia.
Qed.

Lemma down_implies_open_create s effect window :
  down_implies_open (dz_source_create s effect window).
Proof.
  intros i Hi. unfold was_down. simpl. unfold ROW_COUNT in Hi.
  assert (i = 0 \/ i = 1 \/ i = 2 \/ i = 3) as [->|[->|[->| ->]]] by lia;
    discriminate.
Qed.

(* ------------------------------------------------------------------ *)
(** ** Segment non-overlap *)

(** C5.  From the empty history of a new instance, whatever happens to it
    (key presses and releases, clicks, other messages, settings updates,
    rendered frames with their cleanup), every row has at most one segment
    whose end is still open. *)
Theorem at_most_one_open_segment_per_row s effect window ops row :
  (open_count (segments (run (dz_source_create s effect window) ops)) row <= 1)%nat.
Proof.
  apply (run_invariant (fun d => (open_count (segments d) row <= 1)%nat) (fun _ => true)).
  - intros d op _. apply open_count_step.
  - apply forallb_always.
  - change (open_count [] row <= 1)%nat. unfold open_count. simpl. lia.
Qed.

(* ------------------------------------------------------------------ *)
(** ** The copies agree on when a press starts a segment *)

Lemma down_implies_open_run s effect window ops :
  forallb op_clock_ok ops = true ->
  down_implies_open (run (dz_source_create s effect window) ops).
Proof.
  intros Hok. apply (run_invariant down_implies_open op_clock_ok); auto.
  - intros d op. apply down_implies_open_step.
  - apply down_implies_open_create.
Qed.

(** C8.  On every state an instance reaches from its creation, and for
    every key mapped to a row, the condition under which the backup copy
    starts a segment on key-down (no open segment for the row) equals the
    condition of the plugin and of its English copy (the row's flag was
    not set and no open segment for the row). *)
Theorem press_conditions_agree s effect window ops vkey :
  forallb op_clock_ok ops = true ->
  let d := run (dz_source_create s effect window) ops in
  let row := vkey_to_row (Some d) vkey in
  row <> -1 ->
  Backup.starts_segment (has_open (segments d) row)
  = starts_segment (was_down d row) (has_open (segments d) row).
Proof.
  intros Hok d row Hrow.
  unfold Backup.starts_segment, starts_segment.
  destruct (was_down d row) eqn:Ew; [|reflexivity].
  assert (Ho : has_open (segments d) row = true).
  { apply (down_implies_open_run s effect window ops Hok row); [|exact Ew].
    destruct (vkey_to_row_range d vkey); [contradiction | assumption]. }
  rewrite Ho. reflexivity.
Qed.

Lemma press_conditions_agree_witness :
  let ops := [key_press 87 1000; Render 1016; key_press 87 1030] in
  let d := run fresh_source ops in
  forallb op_clock_ok ops = true /\
  vkey_to_row (Some d) 87 <> -1 /\
  Backup.starts_segment (has_open (segments d) (vkey_to_row (Some d) 87))
  = starts_segment (was_down d (vkey_to_row (Some d) 87))
      (has_open (segments d) (vkey_to_row (Some d) 87)).
Proof.
  split; [reflexivity|]. split; [vm_compute; discriminate|].
  apply (press_conditions_agree default_settings (Some 1%positive) (Some 1%positive)
           [key_press 87 1000; Render 1016; key_press 87 1030] 87).
  - reflexivity.
  - vm_compute; discriminate.
Defined.

(** The same key packets through both key branches: with the default key
    map the backup copy and the plugin build the same segments and leave
    the same cursor. *)
Lemma default_key_map d vkey :
  row_key_vkey d = mk_rows 87 83 65 68 ->
  vkey_to_row (Some d) vkey = Backup.vkey_to_row vkey.
Proof.
  intros H. unfold vkey_to_row, Backup.vkey_to_row. rewrite H. simpl.
  rewrite !(Z.eqb_sym vkey). reflexivity.
Qed.

Lemma backup_store_key_timeline b vkey v :
  Backup.b_segments (Backup.store_key b vkey v) = Backup.b_segments b /\
  Backup.b_cursor (Backup.store_key b vkey v) = Backup.b_cursor b.
Proof. unfold Backup.store_key. split_ifs; auto. Qed.

Lemma backup_key_branch_timeline b k t :
  let row := Backup.vkey_to_row (wrap_u16 (VKey k)) in
  Backup.b_segments (Backup.on_raw_keyboard b k t) =
  (if row =? -1 then Backup.b_segments b
   else if has_flag (Flags k) RI_KEY_BREAK
        then close_latest_open (Backup.b_segments b) row t
        else if Backup.starts_segment (has_open (Backup.b_segments b) row)
             then Backup.b_segments b ++ [mk_segment row t (-1)]
             else Backup.b_segments b) /\
  Backup.b_cursor (Backup.on_raw_keyboard b k t) =
  (if negb (row =? -1) && negb (has_flag (Flags k) RI_KEY_BREAK)
      && Backup.starts_segment (has_open (Backup.b_segments b) row)
   then (row, t, 1) else Backup.b_cursor b).
Proof.
  intros row. unfold Backup.on_raw_keyboard. cbv zeta. fold row.
  destruct (backup_store_key_timeline b (wrap_u16 (VKey k))
              (if has_flag (Flags k) RI_KEY_BREAK then 0 else 1)) as [Es Ec].
  revert Es Ec. generalize (Backup.store_key b (wrap_u16 (VKey k))
                              (if has_flag (Flags k) RI_KEY_BREAK then 0 else 1)).
  generalize row. clear row. intros row b1 Es Ec. unfold Backup.b_cursor in *.
  destruct (row =? -1); simpl; [now rewrite Es, Ec|].
  destruct (has_flag (Flags k) RI_KEY_BREAK); simpl.
  - rewrite Es. injection Ec as -> -> ->. auto.
  - rewrite Es.
    destruct (Backup.starts_segment (has_open (Backup.b_segments b) row)); simpl.
    + auto.
    + now rewrite Es, Ec.
Qed.

Lemma backup_follows_plugin_step d b k t :
  row_key_vkey d = mk_rows 87 83 65 68 ->
  down_implies_open d ->
  segments d = Backup.b_segments b ->
  cursor d = Backup.b_cursor b ->
  segments (on_raw_keyboard d k t) = Backup.b_segments (Backup.on_raw_keyboard b k t) /\
  cursor (on_raw_keyboard d k t) = Backup.b_cursor (Backup.on_raw_keyboard b k t).
Proof.
  intros Hmap Hinv Hs Hc.
  destruct (backup_key_branch_timeline b k t) as [-> ->].
  rewrite <- (default_key_map d _ Hmap), <- Hs, <- Hc.
  set (row := vkey_to_row (Some d) (wrap_u16 (VKey k))).
  destruct (Z.eqb_spec row (-1)) as [E|E].
  - rewrite on_raw_keyboard_unmapped by exact E. auto.
  - rewrite on_raw_keyboard_segments, on_raw_keyboard_cursor by exact E. fold row.
    assert (Hagree : starts_segment (was_down d row) (has_open (segments d) row)
                     = Backup.starts_segment (has_open (segments d) row)).
    { unfold starts_segment, Backup.starts_segment.
      destruct (was_down d row) eqn:Ew; [|reflexivity].
      rewrite (Hinv row); [reflexivity | | exact Ew].
      destruct (vkey_to_row_range d (wrap_u16 (VKey k))); [contradiction | assumption]. }
    rewrite Hagree. simpl. auto.
Qed.

Lemma backup_follows_plugin evs : forall d b,
  row_key_vkey d = mk_rows 87 83 65 68 ->
  down_implies_open d ->
  segments d = Backup.b_segments b ->
  cursor d = Backup.b_cursor b ->
  segments (run_keys d evs) = Backup.b_segments (Backup.run_keys b evs) /\
  cursor (run_keys d evs) = Backup.b_cursor (Backup.run_keys b evs).
Proof.
  induction evs as [|[k t] evs IH]; intros d b Hmap Hinv Hs Hc; [simpl; auto|].
  destruct (backup_follows_plugin_step d b k t Hmap Hinv Hs Hc) as [Hs' Hc'].
  change (run_keys d ((k, t) :: evs)) with (run_keys (on_raw_keyboard d k t) evs).
  change (Backup.run_keys b ((k, t) :: evs))
    with (Backup.run_keys (Backup.on_raw_keyboard b k t) evs).
  apply IH; auto.
  - now rewrite on_raw_keyboard_config.
  - now apply down_implies_open_keyboard.
Qed.

Lemma backup_follows_plugin_from_start evs :
  segments (run_keys fresh_source evs)
  = Backup.b_segments (Backup.run_keys Backup.initial evs) /\
  cursor (run_keys fresh_source evs)
  = Backup.b_cursor (Backup.run_keys Backup.initial evs).
Proof.
  apply backup_follows_plugin; try reflexivity.
  apply down_implies_open_create.
Qed.

(* ------------------------------------------------------------------ *)
(** ** Rejected payloads *)

(** C7.  A raw input payload whose reported size is zero or larger than
    the buffer is dropped: the instance comes back as it was, field for
    field, and the procedure returns what it returns for every message. *)
Theorem bad_payload_size_is_dropped userdata h t :
  reported_size h = 0 \/ sizeof_buf < reported_size h ->
  dz_wndproc userdata (WM_INPUT h) t = (userdata, DefWindowProcW_result).
Proof.
  intros H. destruct userdata as [d|]; simpl; [|reflexivity].
  rewrite on_wm_input_rejected; [reflexivity|].
  unfold payload_accepted. destruct H as [H|H].
  - rewrite H. simpl. rewrite andb_false_r. reflexivity.
  - replace (reported_size h <=? sizeof_buf) with false
      by (symmetry; apply Z.leb_gt; exact H).
    rewrite andb_false_r. reflexivity.
Qed.

Lemma bad_payload_size_is_dropped_witness :
  let h := mk_hrawinput 0 8193 8193 (RawKeyboard (mk_rawkeyboard 0 87)) in
  (reported_size h = 0 \/ sizeof_buf < reported_size h) /\
  dz_wndproc (Some fresh_source) (WM_INPUT h) 5
  = (Some fresh_source, DefWindowProcW_result).
Proof.
  split.
  - right. reflexivity.
  - apply (bad_payload_size_is_dropped (Some fresh_source)
             (mk_hrawinput 0 8193 8193 (RawKeyboard (mk_rawkeyboard 0 87))) 5).
    right. reflexivity.
Defined.

(* ------------------------------------------------------------------ *)
(** ** Settings updates *)

(** C10.  A settings update clears the four down flags and leaves the
    segment history (open segments stay open), the click history and the
    cursor as they were. *)
Theorem update_clears_flags_keeps_timeline d s :
  key_down (st (dz_source_update d s)) = row_fill 0 /\
  segments (dz_source_update d s) = segments d /\
  clicks (dz_source_update d s) = clicks d /\
  cursor (dz_source_update d s) = cursor d.
Proof. repeat split. Qed.

(* ------------------------------------------------------------------ *)
(** ** Clicks *)

(** Each button-1-down packet appends one click, built from the cursor. *)
Lemma primary_button_down_appends_click d h m t :
  payload_accepted h = true ->
  packet h = RawMouse m ->
  has_flag (usButtonFlags m) RI_MOUSE_BUTTON_1_DOWN = true ->
  clicks (on_wm_input d h t) = clicks d ++ [click_of d t].
Proof.
  intros Ha Hp Hb. rewrite on_wm_input_accepted by exact Ha.
  rewrite Hp, on_raw_mouse_clicks, Hb. reflexivity.
Qed.

Lemma click_of_never_pressed d t :
  last_key_valid d = 0 -> click_of d t = mk_click ROW_D t 0.
Proof. intros H. unfold click_of. rewrite H. reflexivity. Qed.

Lemma click_of_row_and_time d t :
  last_key_valid d <> 0 ->
  click_row (click_of d t) = last_key_row d /\ time_ms (click_of d t) = t.
Proof.
  intros H. apply Z.eqb_neq in H. unfold click_of. rewrite H. simpl. auto.
Qed.

(** The delta is the one of the design document as long as it fits an
    [int]. *)
Lemma click_of_delta_in_int_range d t :
  last_key_valid d <> 0 ->
  INT64_MIN <= t - last_key_down_ms d <= INT_MAX ->
  delta_ms (click_of d t) = Z.max 0 (t - last_key_down_ms d).
Proof.
  intros H Hr. apply Z.eqb_neq in H. unfold click_of. rewrite H. simpl.
  unfold sub64. rewrite wrap_s64_small
    by (unfold INT64_MIN, INT64_MAX, INT_MAX in *; lia).
  destruct (Z.ltb_spec 0 (t - last_key_down_ms d)).
  - rewrite wrap_s32_small by (unfold INT_MAX in *; lia). lia.
  - lia.
Qed.

(** C1.  A key pressed when the clock reads 0 and a click when it reads
    2^31 milliseconds: the click carries the row of the key and the time
    of the click, but its delta is the difference cut to 32 bits,
    -2147483648, where max(0, click_time - last_key_down_time) is
    2147483648. *)
Theorem click_delta_is_cut_to_int :
  let history := [key_press 65 0; left_click 2147483648] in
  clicks (run fresh_source history) = [mk_click ROW_A 2147483648 (-2147483648)] /\
  cursor (run fresh_source [key_press 65 0]) = (ROW_A, 0, 1) /\
  Z.max 0 (2147483648 - 0) = 2147483648.
Proof. vm_compute. auto. Qed.

(* ------------------------------------------------------------------ *)
(** ** Repeat suppression *)

Lemma is_press_of_inv vkey op :
  is_press_of vkey op = true ->
  exists h k t,
    op = Message (WM_INPUT h) t /\ payload_accepted h = true /\
    packet h = RawKeyboard k /\ wrap_u16 (VKey k) = vkey /\
    has_flag (Flags k) RI_KEY_BREAK = false.
Proof.
  destruct op as [[| h |] t | |]; simpl; try discriminate.
  intros H. apply andb_true_iff in H. destruct H as [Ha H].
  destruct (packet h) as [|k|] eqn:Ep; try discriminate.
  apply andb_true_iff in H. destruct H as [Hv Hb].
  apply Z.eqb_eq in Hv. apply negb_true_iff in Hb.
  exists h, k, t. auto.
Qed.

Lemma step_press d vkey op :
  is_press_of vkey op = true ->
  exists k, wrap_u16 (VKey k) = vkey /\ has_flag (Flags k) RI_KEY_BREAK = false /\
            step d op = on_raw_keyboard d k (op_time op).
Proof.
  intros H. destruct (is_press_of_inv _ _ H) as (h & k & t & -> & Ha & Hp & Hv & Hb).
  exists k. repeat split; auto. simpl.
  rewrite on_wm_input_accepted by exact Ha. now rewrite Hp.
Qed.

Section OneKey.
Variables (vkey : Z) (d : dz_source_data).
Let row := vkey_to_row (Some d) vkey.
Hypothesis mapped : row <> -1.

Lemma press_keeps_row op :
  is_press_of vkey op = true -> vkey_to_row (Some (step d op)) vkey = row.
Proof.
  intros H. destruct (step_press d vkey op H) as (k & _ & _ & ->).
  unfold row, vkey_to_row. now rewrite on_raw_keyboard_config.
Qed.

Lemma press_marks_down op :
  is_press_of vkey op = true -> was_down (step d op) row = true.
Proof.
  intros H. destruct (step_press d vkey op H) as (k & Hv & Hb & ->).
  unfold was_down. subst row. rewrite <- Hv in *.
  rewrite on_raw_keyboard_key_down by exact mapped. rewrite Hb.
  rewrite row_get_set_same; [reflexivity|].
  destruct (vkey_to_row_range d (wrap_u16 (VKey k))); [contradiction | assumption].
Qed.

(** A press of a key whose row is marked down changes neither the
    segments nor the cursor. *)
Lemma press_when_down op :
  is_press_of vkey op = true -> was_down d row = true ->
  segments (step d op) = segments d /\ cursor (step d op) = cursor d.
Proof.
  intros H Hd. destruct (step_press d vkey op H) as (k & Hv & Hb & ->).
  subst row. rewrite <- Hv in *.
  rewrite on_raw_keyboard_segments, on_raw_keyboard_cursor by exact mapped.
  rewrite Hb, Hd. simpl. auto.
Qed.

(** A press of a key whose row is idle opens a segment and moves the
    cursor. *)
Lemma press_when_idle op :
  is_press_of vkey op = true ->
  was_down d row = false -> has_open (segments d) row = false ->
  segments (step d op) = segments d ++ [mk_segment row (op_time op) (-1)] /\
  cursor (step d op) = (row, op_time op, 1).
Proof.
  intros H Hd Ho. destruct (step_press d vkey op H) as (k & Hv & Hb & ->).
  subst row. rewrite <- Hv in *.
  rewrite on_raw_keyboard_segments, on_raw_keyboard_cursor by exact mapped.
  rewrite Hb, Hd, Ho. simpl. auto.
Qed.

End OneKey.

Lemma suppressed_presses vkey ops : forall d,
  vkey_to_row (Some d) vkey <> -1 ->
  was_down d (vkey_to_row (Some d) vkey) = true ->
  forallb (is_press_of vkey) ops = true ->
  segments (run d ops) = segments d /\ cursor (run d ops) = cursor d.
Proof.
  induction ops as [|op ops IH]; intros d Hm Hd Hall; [simpl; auto|].
  simpl in Hall. change (run d (op :: ops)) with (run (step d op) ops).
  apply andb_true_iff in Hall. destruct Hall as [Hop Hall].
  pose proof (press_keeps_row vkey d op Hop) as Hrow.
  pose proof (press_marks_down vkey d Hm op Hop) as Hdown.
  destruct (press_when_down vkey d Hm op Hop Hd) as [Hs Hc].
  rewrite <- Hs, <- Hc. apply IH; rewrite ?Hrow; auto.
Qed.

Lemma forallb_firstn {A} (f : A -> bool) n : forall l,
  forallb f l = true -> forallb f (firstn n l) = true.
Proof.
  induction n as [|n IH]; intros [|x l] H; simpl in *; auto.
  apply andb_true_iff in H. destruct H as [H1 H2]. rewrite H1. simpl. auto.
Qed.

(** C2.  Take a key mapped to a row that is idle (not marked down, no
    open segment) and send it one press followed by any number of further
    presses, with no release in between.  The first press appends one
    open segment for the row and moves the cursor to it; after each
    further press the segments and the cursor are what the first press
    left; so the whole run of presses has produced exactly one segment. *)
Theorem repeated_presses_make_one_segment d vkey op ops :
  let row := vkey_to_row (Some d) vkey in
  row <> -1 ->
  was_down d row = false ->
  has_open (segments d) row = false ->
  is_press_of vkey op = true ->
  forallb (is_press_of vkey) ops = true ->
  let first := step d op in
  segments first = segments d ++ [mk_segment row (op_time op) (-1)] /\
  cursor first = (row, op_time op, 1) /\
  (forall n, segments (run first (firstn n ops)) = segments first /\
             cursor (run first (firstn n ops)) = cursor first) /\
  segments (run d (op :: ops)) = segments d ++ [mk_segment row (op_time op) (-1)].
Proof.
  intros row Hm Hd Ho Hop Hall first.
  destruct (press_when_idle vkey d Hm op Hop Hd Ho) as [Hs Hc].
  assert (Hrest : forall l, forallb (is_press_of vkey) l = true ->
            segments (run first l) = segments first /\ cursor (run first l) = cursor first).
  { intros l Hl. apply (suppressed_presses vkey l first); auto.
    - unfold first. now rewrite press_keeps_row.
    - unfold first. rewrite press_keeps_row by assumption.
      now apply press_marks_down. }
  repeat split; try assumption.
  - apply Hrest, forallb_firstn, Hall.
  - apply Hrest, forallb_firstn, Hall.
  - change (run d (op :: ops)) with (run first ops).
    destruct (Hrest ops Hall) as [-> _]. exact Hs.
Qed.

Lemma repeated_presses_make_one_segment_witness :
  let ops := [key_press 87 1033; key_press 87 1066; key_press 87 1099] in
  segments (run fresh_source (key_press 87 1000 :: ops)) = [mk_segment ROW_W 1000 (-1)] /\
  cursor (run fresh_source (key_press 87 1000 :: ops)) = (ROW_W, 1000, 1).
Proof.
  destruct (repeated_presses_make_one_segment fresh_source 87 (key_press 87 1000)
              [key_press 87 1033; key_press 87 1066; key_press 87 1099])
    as (_ & Hc & Hn & Hs).
  - vm_compute. discriminate.
  - reflexivity.
  - reflexivity.
  - reflexivity.
  - reflexivity.
  - split.
    + exact Hs.
    + destruct (Hn 3%nat) as [_ Hc3]. simpl firstn in Hc3.
      change (run fresh_source (key_press 87 1000 :: ?l))
        with (run (step fresh_source (key_press 87 1000)) l).
      etransitivity; [exact Hc3 | exact Hc].
Defined.

(* ------------------------------------------------------------------ *)
(** ** Releases *)

Lemma close_latest_open_miss segs row t :
  has_open segs row = false -> close_latest_open segs row t = segs.
Proof.
  unfold has_open, close_latest_open. intros H.
  rewrite scan_close_miss by exact H. apply rev_involutive.
Qed.

Lemma close_latest_open_hit segs row t :
  has_open segs row = true ->
  exists older s newer,
    segs = older ++ s :: newer /\
    is_open_for row s = true /\
    Forall (fun s' => is_open_for row s' = false) newer /\
    close_latest_open segs row t
    = older ++ mk_segment (seg_row s) (start_ms s) t :: newer.
Proof.
  unfold has_open, close_latest_open. intros H.
  destruct (scan_close_hit _ row t H) as (b & s & a & E & Hb & Hs & Hc).
  exists (rev a), s, (rev b). repeat split.
  - rewrite <- (rev_involutive segs), E, rev_app_distr. simpl.
    now rewrite <- app_assoc.
  - exact Hs.
  - apply Forall_rev. apply Forall_forall. intros x Hx.
    rewrite forallb_forall in Hb. apply negb_true_iff. now apply Hb.
  - rewrite Hc, rev_app_distr. simpl. now rewrite <- app_assoc.
Qed.

(** The whole effect of a release packet for a mapped key. *)
Lemma on_raw_keyboard_release d k t :
  let row := vkey_to_row (Some d) (wrap_u16 (VKey k)) in
  row <> -1 ->
  has_flag (Flags k) RI_KEY_BREAK = true ->
  on_raw_keyboard d k t =
  set_st (set_segments d (close_latest_open (segments d) row t))
    (count_key_event (set_key_down (st d) (row_set (key_down (st d)) row 0))).
Proof.
  intros row Hm Hb. subst row. apply Z.eqb_neq in Hm.
  unfold on_raw_keyboard. cbv zeta. rewrite Hm, Hb. reflexivity.
Qed.

(** C3, as the code has it.  A release packet for a mapped key clears the
    row's down flag and counts one key event; it changes nothing else but
    the segments (so the clicks and the cursor stay).  If the row has an
    open segment, the newest one gets the release time as its end and
    every other segment stays as it was; if it has none, the segments
    stay as they were. *)
Theorem release_closes_newest_open_segment d h k t :
  payload_accepted h = true ->
  packet h = RawKeyboard k ->
  has_flag (Flags k) RI_KEY_BREAK = true ->
  let row := vkey_to_row (Some d) (wrap_u16 (VKey k)) in
  row <> -1 ->
  let d' := on_wm_input d h t in
  d' = set_st (set_segments d (segments d'))
         (count_key_event (set_key_down (st d) (row_set (key_down (st d)) row 0))) /\
  (has_open (segments d) row = true ->
   exists older s newer,
     segments d = older ++ s :: newer /\
     is_open_for row s = true /\
     Forall (fun s' => is_open_for row s' = false) newer /\
     segments d' = older ++ mk_segment (seg_row s) (start_ms s) t :: newer) /\
  (has_open (segments d) row = false -> segments d' = segments d).
Proof.
  intros Ha Hp Hb row Hm d'. subst d'.
  rewrite on_wm_input_accepted by exact Ha. rewrite Hp.
  rewrite on_raw_keyboard_release by assumption. fold row.
  split; [reflexivity|]. simpl. split.
  - apply close_latest_open_hit.
  - apply close_latest_open_miss.
Qed.

Lemma release_closes_newest_open_segment_witness :
  let d := run fresh_source [key_press 87 0; key_press 83 40] in
  let d' := on_wm_input d (key_packet RI_KEY_BREAK 87) 200 in
  (has_open (segments d) ROW_W = false -> segments d' = segments d) /\
  d' = set_st (set_segments d (segments d'))
         (count_key_event (set_key_down (st d) (row_set (key_down (st d)) ROW_W 0))).
Proof.
  intros d d'.
  destruct (release_closes_newest_open_segment d
              (key_packet RI_KEY_BREAK 87) (mk_rawkeyboard RI_KEY_BREAK 87) 200)
    as (Hall & _ & Hnone).
  - reflexivity.
  - reflexivity.
  - reflexivity.
  - vm_compute. discriminate.
  - split; [exact Hnone | exact Hall].
Defined.

(** C3 as stated fails where it calls the release without an open
    segment a no-op on the whole state: on a new instance a release of W
    finds no open segment, and the instance that comes back differs from
    the one that went in (one more key event is counted). *)
Lemma release_without_open_segment_is_counted :
  vkey_to_row (Some fresh_source) 87 = ROW_W /\
  has_open (segments fresh_source) ROW_W = false /\
  key_events (st (step fresh_source (key_release 87 100))) = 1 /\
  step fresh_source (key_release 87 100) <> fresh_source.
Proof.
  repeat split.
  intros E. apply (f_equal (fun d => key_events (st d))) in E.
  vm_compute in E. discriminate E.
Qed.

(* ------------------------------------------------------------------ *)
(** ** History cleanup *)

Lemma clicks_sorted_app l c :
  clicks_sorted l -> Forall (fun c' => time_ms c' <= time_ms c) l ->
  clicks_sorted (l ++ [c]).
Proof.
  induction l as [|x l IH]; simpl; intros Hs Hf.
  - auto.
  - destruct Hs as [Hx Hs]. inversion Hf; subst. split.
    + apply Forall_app. split; [exact Hx | constructor; [assumption | constructor]].
    + apply IH; assumption.
Qed.

Lemma clicks_sorted_suffix p l : clicks_sorted (p ++ l) -> clicks_sorted l.
Proof.
  induction p as [|x p IH]; simpl; [auto|]. intros [_ H]. apply IH, H.
Qed.

Lemma pop_old_clicks_kept cs keep :
  clicks_sorted cs -> Forall (fun c => keep <= time_ms c) (pop_old_clicks cs keep).
Proof.
  induction cs as [|c cs IH]; simpl; intros Hs.
  - constructor.
  - destruct Hs as [Hc Hs]. destruct (Z.ltb_spec (time_ms c) keep) as [H|H].
    + apply IH, Hs.
    + constructor; [exact H|].
      eapply Forall_impl; [|exact Hc]. simpl. intros. lia.
Qed.

Lemma pop_old_segments_front segs now keep s rest :
  pop_old_segments segs now keep = s :: rest -> keep <= effective_end s now.
Proof.
  induction segs as [|x segs IH]; simpl; [discriminate|].
  destruct (Z.leb_spec keep (effective_end x now)) as [H|H].
  - intros E. inversion E; subst. exact H.
  - exact IH.
Qed.

(** C4, as the code has it.  One cleanup when the clock reads [now], with
    the horizon at [now - 30000]: both deques lose a prefix and keep the
    rest in order, and nothing else in the instance changes.  The clicks
    lost are older than the horizon and, the clicks being in time order,
    every click kept is not.  The segments lost are closed and ended
    before the horizon, so an open segment is never lost; the popping
    stops at the first segment that is open or ended at or after the
    horizon, so the front of what is kept is such a segment, whatever
    stands behind it. *)
Theorem cleanup_pops_the_old_front d now :
  clock_ok now = true ->
  clicks_sorted (clicks d) ->
  let horizon := now - 30000 in
  let d' := dz_cleanup_history d now in
  d' = set_segments (set_clicks d (clicks d')) (segments d') /\
  (exists lost_clicks lost_segments,
     clicks d = lost_clicks ++ clicks d' /\
     segments d = lost_segments ++ segments d' /\
     Forall (fun c => time_ms c < horizon) lost_clicks /\
     Forall (fun s => 0 <= end_ms s < horizon) lost_segments) /\
  Forall (fun c => horizon <= time_ms c) (clicks d') /\
  (forall s, In s (segments d) -> end_ms s < 0 -> In s (segments d')) /\
  (forall s rest, segments d' = s :: rest -> end_ms s < 0 \/ horizon <= end_ms s).
Proof.
  intros Hnow Hsorted horizon d'.
  assert (Hk : sub64 now 30000 = horizon)
    by (apply sub64_clock; [exact Hnow | unfold INT64_MAX; lia]).
  destruct (pop_old_clicks_suffix (clicks d) horizon) as (pc & Ec & Fc).
  destruct (pop_old_segments_suffix (segments d) now horizon) as (ps & Es & Fs).
  assert (Fs' : Forall (fun s => 0 <= end_ms s < horizon) ps).
  { eapply Forall_impl; [|exact Fs]. intros s. unfold effective_end, horizon.
    destruct (Z.ltb_spec (end_ms s) 0); lia. }
  subst d'. rewrite dz_cleanup_history_clicks, dz_cleanup_history_segments, Hk.
  split; [unfold dz_cleanup_history; rewrite Hk; reflexivity|].
  split; [exists pc, ps; auto|].
  split; [apply pop_old_clicks_kept, Hsorted|].
  split.
  - intros s Hin Hopen. rewrite Es in Hin. apply in_app_or in Hin.
    destruct Hin as [Hin|Hin]; [|exact Hin].
    rewrite Forall_forall in Fs'. specialize (Fs' s Hin). lia.
  - intros s rest E. apply pop_old_segments_front in E.
    unfold effective_end in E. destruct (Z.ltb_spec (end_ms s) 0); [left | right]; lia.
Qed.

Lemma cleanup_pops_the_old_front_witness :
  let d := run fresh_source
             [key_press 87 0; key_release 87 200; left_click 500; key_press 83 600] in
  clock_ok 30600 = true /\
  clicks_sorted (clicks d) /\
  Forall (fun c => 600 <= time_ms c) (clicks (dz_cleanup_history d 30600)).
Proof.
  intros d.
  assert (Hs : clicks_sorted (clicks d)) by (vm_compute; auto).
  split; [reflexivity|]. split; [exact Hs|].
  destruct (cleanup_pops_the_old_front d 30600) as (_ & _ & H & _).
  - reflexivity.
  - exact Hs.
  - exact H.
Defined.

(** C4 as stated fails for closed segments: W is pressed and held, S is
    pressed and released, and a cleanup runs 100 seconds later.  The S
    segment is closed and ended long before the horizon, yet it stays,
    behind the open W segment at the front. *)
Lemma closed_old_segment_survives_cleanup :
  let d := run fresh_source [key_press 87 0; key_press 83 10; key_release 83 20] in
  let d' := dz_cleanup_history d 100000 in
  segments d' = [mk_segment ROW_W 0 (-1); mk_segment ROW_S 10 20] /\
  In (mk_segment ROW_S 10 20) (segments d') /\
  0 <= end_ms (mk_segment ROW_S 10 20) < 100000 - 30000.
Proof.
  vm_compute. repeat split; try discriminate. right. left. reflexivity.
Qed.

(** Under a clock that never runs backwards the clicks of an instance
    are in time order, which is what the cleanup relies on. *)
Lemma time_of_click_of d t : time_ms (click_of d t) = t.
Proof. unfold click_of. destruct (negb _); reflexivity. Qed.

Lemma clicks_in_order_step d op t0 t :
  t0 <= t ->
  (forall msg t', op = Message msg t' -> t' = t) ->
  clicks_sorted (clicks d) /\ Forall (fun c => time_ms c <= t0) (clicks d) ->
  clicks_sorted (clicks (step d op)) /\
  Forall (fun c => time_ms c <= t) (clicks (step d op)).
Proof.
  intros Ht Hop [Hs Hf].
  assert (Hf' : Forall (fun c => time_ms c <= t) (clicks d))
    by (eapply Forall_impl; [|exact Hf]; simpl; intros; lia).
  apply step_cases; auto.
  - intros h m t' E _ _. apply Hop in E. subst t'.
    rewrite on_raw_mouse_clicks. destruct (has_flag _ _); [|auto]. split.
    + apply clicks_sorted_app; [exact Hs|].
      now rewrite time_of_click_of.
    + apply Forall_app. split; [exact Hf'|].
      constructor; [rewrite time_of_click_of; lia | constructor].
  - intros h k t' _ _ _. now rewrite on_raw_keyboard_clicks.
  - intros now _. rewrite dz_cleanup_history_clicks. simpl.
    destruct (pop_old_clicks_suffix (clicks d) (sub64 now 30000)) as (p & E & _).
    split.
    + apply (clicks_sorted_suffix p). now rewrite <- E.
    + rewrite E in Hf'. apply Forall_app in Hf'. tauto.
Qed.

Lemma clicks_in_order_run ops : forall d t0,
  clock_monotone t0 ops = true ->
  clicks_sorted (clicks d) /\ Forall (fun c => time_ms c <= t0) (clicks d) ->
  clicks_sorted (clicks (run d ops)).
Proof.
  induction ops as [|op ops IH]; intros d t0 Hm HJ; [simpl; tauto|].
  change (run d (op :: ops)) with (run (step d op) ops).
  destruct op as [msg t | s | t]; simpl in Hm.
  - apply andb_true_iff in Hm. destruct Hm as [Ht Hm]. apply Z.leb_le in Ht.
    apply (IH _ t Hm). apply (clicks_in_order_step d _ t0 t); auto.
    intros msg' t' E. now inversion E.
  - apply (IH _ t0 Hm). apply (clicks_in_order_step d _ t0 t0); auto; [lia|].
    intros msg' t' E. discriminate E.
  - apply andb_true_iff in Hm. destruct Hm as [Ht Hm]. apply Z.leb_le in Ht.
    apply (IH _ t Hm). apply (clicks_in_order_step d _ t0 t); auto.
    intros msg' t' E. discriminate E.
Qed.

Lemma clicks_in_order_from_creation s effect window t0 ops :
  clock_monotone t0 ops = true ->
  clicks_sorted (clicks (run (dz_source_create s effect window) ops)).
Proof.
  intros Hm. apply (clicks_in_order_run ops _ t0 Hm). simpl. auto.
Qed.

(* ------------------------------------------------------------------ *)
(** ** Rounding of exactly representable values *)

(** The two binary iterators of the library are plain iteration. *)
Lemma iter_pos_nat {A} (f : A -> A) p : forall x,
  iter_pos f p x = Nat.iter (Pos.to_nat p) f x.
Proof.
  induction p as [p IH|p IH|]; intros x; simpl iter_pos.
  - rewrite !IH, Pos2Nat.inj_xI, <- Nat.iter_add, <- Nat.iter_succ_r.
    f_equal. lia.
  - rewrite !IH, Pos2Nat.inj_xO, <- Nat.iter_add. f_equal. lia.
  - reflexivity.
Qed.

Lemma pos_iter_nat {A} (f : A -> A) p x :
  Pos.iter f x p = Nat.iter (Pos.to_nat p) f x.
Proof. apply Pos2Nat.inj_iter. Qed.

(** Shifting right undoes doubling, with nothing lost. *)
Lemma shr_1_double n : forall m,
  Nat.iter n shr_1 (Build_shr_record (Zpos (Nat.iter n xO m)) false false)
  = Build_shr_record (Zpos m) false false.
Proof.
  induction n as [|n IH]; intros m; [reflexivity|].
  rewrite Nat.iter_succ_r. simpl. apply IH.
Qed.

Lemma digits2_double n m :
  Zpos (digits2_pos (Nat.iter n xO m)) = Zpos (digits2_pos m) + Z.of_nat n.
Proof.
  induction n as [|n IH]; [simpl; lia|].
  rewrite Nat.iter_succ. cbn [digits2_pos]. rewrite Pos2Z.inj_succ, IH. lia.
Qed.

Lemma shr_by_nat m e n :
  shr (Build_shr_record (Zpos (Nat.iter n xO m)) false false) e (Z.of_nat n)
  = (Build_shr_record (Zpos m) false false, e + Z.of_nat n).
Proof.
  destruct n as [|n].
  - simpl. f_equal. lia.
  - unfold shr. cbn [Z.of_nat]. rewrite iter_pos_nat, SuccNat2Pos.id_succ.
    now rewrite shr_1_double.
Qed.

(** A value whose canonical pair is [(m, e)], handed to the rounding with
    [n] more low bits, all zero, rounds to [(m, e)]. *)
Lemma binary_round_aux_exact prec emax s m e e0 n :
  fexp prec emax (Zpos (digits2_pos m) + e) = e ->
  e <= emax - prec ->
  e0 + Z.of_nat n = e ->
  binary_round_aux prec emax s (Zpos (Nat.iter n xO m)) e0 loc_Exact
  = S754_finite s m e.
Proof.
  intros Hc He Hn. unfold binary_round_aux, shr_fexp.
  cbn [Zdigits2 shr_record_of_loc]. rewrite digits2_double.
  replace (Zpos (digits2_pos m) + Z.of_nat n + e0) with (Zpos (digits2_pos m) + e) by lia.
  rewrite Hc. replace (e - e0) with (Z.of_nat n) by lia.
  rewrite shr_by_nat. cbn [shr_m loc_of_shr_record round_nearest_even Zdigits2].
  replace (e0 + Z.of_nat n) with e by lia.
  rewrite Hc, Z.sub_diag. cbn [shr shr_m].
  apply Z.leb_le in He. now rewrite He.
Qed.

(** What [bounded] says of a binary32 pair. *)
Lemma bounded32_inv m e :
  bounded prec32 emax32 m e = true ->
  fexp prec32 emax32 (Zpos (digits2_pos m) + e) = e /\ e <= 104 /\
  Zpos (digits2_pos m) <= 24 /\ -149 <= e.
Proof.
  unfold bounded, canonical_mantissa. intros H.
  apply andb_true_iff in H. destruct H as [Hc He].
  apply Z.eqb_eq in Hc. apply Z.leb_le in He.
  unfold prec32, emax32 in *. unfold fexp, emin in *.
  repeat split; lia.
Qed.

(** Widening keeps the value: the mantissa gains low zero bits. *)
Lemma f64_of_f32_finite s m e :
  bounded prec32 emax32 m e = true ->
  exists n,
    Z.of_nat n = 53 - Zpos (digits2_pos m) /\
    f64_of_f32 (S754_finite s m e) = S754_finite s (Nat.iter n xO m) (e - Z.of_nat n).
Proof.
  intros Hb. destruct (bounded32_inv m e Hb) as (Hc & He & Hd & Hl).
  pose proof (Pos2Z.is_pos (digits2_pos m)) as Hp.
  unfold f64_of_f32, binary_round.
  replace (fexp prec64 emax64 (Zpos (digits2_pos m) + e))
    with (Zpos (digits2_pos m) + e - 53)
    by (unfold fexp, emin, prec64, emax64; lia).
  unfold shl_align.
  destruct (Zpos (digits2_pos m) + e - 53 - e) as [|p|p] eqn:E; try lia.
  exists (Pos.to_nat p). rewrite positive_nat_Z. split; [lia|].
  rewrite pos_iter_nat.
  replace (Nat.iter (Pos.to_nat p) xO m) with (Nat.iter 0 xO (Nat.iter (Pos.to_nat p) xO m))
    by reflexivity.
  rewrite (binary_round_aux_exact prec64 emax64 s _ (Zpos (digits2_pos m) + e - 53) _ 0%nat).
  - simpl Nat.iter. f_equal. lia.
  - rewrite digits2_double, positive_nat_Z. unfold fexp, emin, prec64, emax64. lia.
  - unfold prec64, emax64. lia.
  - simpl. lia.
Qed.

Lemma mul64_one s mz ez :
  fexp prec64 emax64 (Zpos (digits2_pos mz) + ez) = ez ->
  ez <= emax64 - prec64 ->
  mul64 one64 (S754_finite s mz ez) = S754_finite s mz ez.
Proof.
  intros Hc He. unfold mul64, one64, SFmul.
  change (Pos.mul 4503599627370496 mz) with (Nat.iter 52 xO mz).
  change (xorb false s) with s.
  apply binary_round_aux_exact; [exact Hc | exact He | change (Z.of_nat 52) with 52; lia].
Qed.

Lemma f32_of_f64_back s m e n :
  bounded prec32 emax32 m e = true ->
  Z.of_nat n = 53 - Zpos (digits2_pos m) ->
  f32_of_f64 (S754_finite s (Nat.iter n xO m) (e - Z.of_nat n)) = S754_finite s m e.
Proof.
  intros Hb Hn. destruct (bounded32_inv m e Hb) as (Hc & He & Hd & Hl).
  pose proof (Pos2Z.is_pos (digits2_pos m)) as Hp.
  unfold f32_of_f64, binary_round. rewrite digits2_double.
  replace (Zpos (digits2_pos m) + Z.of_nat n + (e - Z.of_nat n))
    with (Zpos (digits2_pos m) + e) by lia.
  rewrite Hc. unfold shl_align.
  destruct (e - (e - Z.of_nat n)) as [|p|p] eqn:E; try lia.
  apply binary_round_aux_exact; [exact Hc | unfold emax32, prec32; lia | lia].
Qed.

(** [(float)(1.0 * (double)tw)] is [tw]. *)
Lemma widen_times_one_narrow tw :
  is_finite_float32 tw = true ->
  f32_of_f64 (mul64 one64 (f64_of_f32 tw)) = tw.
Proof.
  destruct tw as [s| |  |s m e]; cbn [is_finite_float32]; try discriminate.
  - intros _. now destruct s.
  - intros Hb. destruct (f64_of_f32_finite s m e Hb) as (n & Hn & ->).
    destruct (bounded32_inv m e Hb) as (Hc & He & Hd & Hl).
    pose proof (Pos2Z.is_pos (digits2_pos m)) as Hp.
    rewrite mul64_one.
    + now apply f32_of_f64_back.
    + rewrite digits2_double. unfold fexp, emin, prec64, emax64. lia.
    + unfold prec64, emax64. lia.
Qed.

(** [(float)(0.0 * (double)tw)] is a zero. *)
Lemma zero_times_finite tw :
  is_finite_float32 tw = true ->
  exists s, f32_of_f64 (mul64 zero (f64_of_f32 tw)) = S754_zero s.
Proof.
  destruct tw as [s| |  |s m e]; cbn [is_finite_float32]; try discriminate.
  - intros _. exists s. reflexivity.
  - intros Hb. destruct (f64_of_f32_finite s m e Hb) as (n & Hn & ->).
    exists s. reflexivity.
Qed.

(** A non-negative mantissa keeps the sign it is rounded with. *)
Lemma shr_1_nonneg r : 0 <= shr_m r -> 0 <= shr_m (shr_1 r).
Proof.
  destruct r as [m r s]. destruct m as [|[p|p|]|[p|p|]]; simpl; lia.
Qed.

Lemma iter_shr_1_nonneg n r : 0 <= shr_m r -> 0 <= shr_m (Nat.iter n shr_1 r).
Proof.
  induction n as [|n IH]; intros H; [exact H|].
  rewrite Nat.iter_succ. apply shr_1_nonneg, IH, H.
Qed.

Lemma shr_fexp_nonneg prec emax m e l :
  0 <= m -> 0 <= shr_m (fst (shr_fexp prec emax m e l)).
Proof.
  intros H. unfold shr_fexp, shr.
  assert (H0 : 0 <= shr_m (shr_record_of_loc m l)) by (destruct l as [|[]]; exact H).
  destruct (fexp prec emax (Zdigits2 m + e) - e); simpl; try exact H0.
  rewrite iter_pos_nat. apply iter_shr_1_nonneg, H0.
Qed.

Lemma round_nearest_even_nonneg m l : 0 <= m -> 0 <= round_nearest_even m l.
Proof.
  intros H. unfold round_nearest_even.
  destruct l as [|[]]; try destruct (Z.even m); lia.
Qed.

Lemma binary_round_aux_sign prec emax sx m e l :
  0 <= m -> has_sign sx (binary_round_aux prec emax sx m e l) = true.
Proof.
  intros H. unfold binary_round_aux.
  pose proof (shr_fexp_nonneg prec emax m e l H) as H1.
  destruct (shr_fexp prec emax m e l) as [mrs' e']. simpl in H1.
  pose proof (shr_fexp_nonneg prec emax _ e' loc_Exact
                (round_nearest_even_nonneg _ (loc_of_shr_record mrs') H1)) as H2.
  destruct (shr_fexp prec emax _ e' loc_Exact) as [mrs'' e'']. simpl in H2.
  destruct (shr_m mrs'') as [|p|p]; simpl.
  - apply eqb_reflx.
  - destruct (e'' <=? emax - prec); simpl; apply eqb_reflx.
  - lia.
Qed.

(** [(double)z <= 0.0] for an integer [z <= 0]. *)
Lemma f64_of_Z_nonpos z : z <= 0 -> SFleb (f64_of_Z z) zero = true.
Proof.
  intros H. destruct z as [|p|p]; [reflexivity | lia |].
  unfold f64_of_Z, binary_normalize, binary_round.
  destruct (shl_align p 0 _) as [mz ez].
  pose proof (binary_round_aux_sign prec64 emax64 true (Zpos mz) ez loc_Exact
                (Pos2Z.is_nonneg mz)) as Hs.
  destruct (binary_round_aux prec64 emax64 true (Zpos mz) ez loc_Exact) as [[]|[]| |[] m e];
    try discriminate; reflexivity.
Qed.

(* ------------------------------------------------------------------ *)
(** ** The window mapper *)

Lemma window_start now : clock_ok now = true -> sub64 now WINDOW_MS = now - WINDOW_MS.
Proof. intros H. apply sub64_clock; [exact H | unfold WINDOW_MS, INT64_MAX; lia]. Qed.

Lemma window_length now :
  clock_ok now = true -> sub64 now (now - WINDOW_MS) = WINDOW_MS.
Proof.
  intros H. unfold sub64. replace (now - (now - WINDOW_MS)) with WINDOW_MS by lia.
  reflexivity.
Qed.

Lemma xOf_degenerate X0 tw t0 t1 t : sub64 t1 t0 <= 0 -> xOf X0 tw t0 t1 t = X0.
Proof. intros H. unfold xOf. now rewrite f64_of_Z_nonpos. Qed.

Lemma add_zero_to_left_edge s : add32 timelineX0 (S754_zero s) = timelineX0.
Proof. reflexivity. Qed.

(** *** Integers below 2^24 in [float] *)

Lemma digits2_bounds p :
  2 ^ (Zpos (digits2_pos p) - 1) <= Zpos p < 2 ^ Zpos (digits2_pos p).
Proof.
  induction p as [p IH|p IH|]; cbn [digits2_pos]; [| |simpl; lia];
    rewrite Pos2Z.inj_succ;
    replace (Z.succ (Zpos (digits2_pos p)) - 1) with (Z.succ (Zpos (digits2_pos p) - 1)) by lia;
    rewrite !Z.pow_succ_r by lia; lia.
Qed.

Lemma digits2_small p : Zpos p < 2 ^ 24 -> Zpos (digits2_pos p) <= 24.
Proof.
  intros H. pose proof (digits2_bounds p) as [Hl _].
  destruct (Z_le_gt_dec (Zpos (digits2_pos p)) 24) as [Hd|Hd]; [exact Hd|].
  assert (2 ^ 24 <= 2 ^ (Zpos (digits2_pos p) - 1)) by (apply Z.pow_le_mono_r; lia).
  lia.
Qed.

Lemma iter_xO_value n p : Zpos (Nat.iter n xO p) = Zpos p * 2 ^ Z.of_nat n.
Proof.
  induction n as [|n IH]; [simpl; lia|].
  rewrite Nat.iter_succ, Pos2Z.inj_xO, IH, Nat2Z.inj_succ, Z.pow_succ_r by lia. lia.
Qed.

(** An integer below 2^24, handed to the rounding with [k] low zero bits,
    rounds to its canonical pair: the mantissa filled to 24 bits. *)
Lemma binary_round_int s c k :
  Zpos c < 2 ^ 24 ->
  binary_round prec32 emax32 s (Nat.iter k xO c) (- Z.of_nat k)
  = S754_finite s (Nat.iter (Z.to_nat (24 - Zpos (digits2_pos c))) xO c)
      (- Z.of_nat (Z.to_nat (24 - Zpos (digits2_pos c)))).
Proof.
  intros Hc. pose proof (digits2_small c Hc) as Hd.
  pose proof (Pos2Z.is_pos (digits2_pos c)) as Hp.
  set (n := Z.to_nat (24 - Zpos (digits2_pos c))).
  assert (Hn : Z.of_nat n = 24 - Zpos (digits2_pos c)) by (unfold n; lia).
  assert (Hcanon : fexp prec32 emax32
                     (Zpos (digits2_pos (Nat.iter n xO c)) + - Z.of_nat n) = - Z.of_nat n).
  { rewrite digits2_double. unfold fexp, emin, prec32, emax32. lia. }
  unfold binary_round. rewrite digits2_double.
  replace (fexp prec32 emax32 (Zpos (digits2_pos c) + Z.of_nat k + - Z.of_nat k))
    with (- Z.of_nat n) by (unfold fexp, emin, prec32, emax32; lia).
  unfold shl_align.
  destruct (- Z.of_nat n - - Z.of_nat k) as [|q|q] eqn:E.
  - replace (Nat.iter k xO c) with (Nat.iter (k - n) xO (Nat.iter n xO c))
      by (rewrite <- Nat.iter_add; f_equal; lia).
    apply binary_round_aux_exact; [exact Hcanon | unfold emax32, prec32; lia | lia].
  - replace (Nat.iter k xO c) with (Nat.iter (k - n) xO (Nat.iter n xO c))
      by (rewrite <- Nat.iter_add; f_equal; lia).
    apply binary_round_aux_exact; [exact Hcanon | unfold emax32, prec32; lia | lia].
  - rewrite pos_iter_nat, <- Nat.iter_add.
    replace (Pos.to_nat q + k)%nat with n by lia.
    replace (Nat.iter n xO c) with (Nat.iter 0 xO (Nat.iter n xO c)) at 1 by reflexivity.
    apply binary_round_aux_exact; [exact Hcanon | unfold emax32, prec32; lia | simpl; lia].
Qed.

Lemma binary_round_int0 s c :
  Zpos c < 2 ^ 24 ->
  binary_round prec32 emax32 s c 0
  = S754_finite s (Nat.iter (Z.to_nat (24 - Zpos (digits2_pos c))) xO c)
      (- Z.of_nat (Z.to_nat (24 - Zpos (digits2_pos c)))).
Proof. exact (binary_round_int s c 0). Qed.

(** [(float)z] does not depend on how an integer below 2^24 is written:
    [z * 2^k] at the exponent [-k] is [(float)z]. *)
Lemma f32_of_Z_shifted z k :
  Z.abs z < 2 ^ 24 ->
  binary_normalize prec32 emax32 (z * 2 ^ Z.of_nat k) (- Z.of_nat k) false = f32_of_Z z.
Proof.
  intros Hz. unfold f32_of_Z. destruct z as [|c|c].
  - reflexivity.
  - rewrite <- iter_xO_value. cbn [binary_normalize].
    rewrite binary_round_int by (simpl in Hz; lia).
    symmetry. apply binary_round_int0. simpl in Hz. lia.
  - replace (Zneg c * 2 ^ Z.of_nat k) with (Zneg (Nat.iter k xO c))
      by (rewrite <- Pos2Z.opp_pos, iter_xO_value; lia).
    cbn [binary_normalize].
    rewrite binary_round_int by (simpl in Hz; lia).
    symmetry. apply binary_round_int0. simpl in Hz. lia.
Qed.

(** [(float)z] for [z <> 0] below 2^24: sign, mantissa and exponent. *)
Lemma f32_of_Z_finite z :
  z <> 0 -> Z.abs z < 2 ^ 24 ->
  exists s p n, z = cond_Zopp s (Zpos p) /\
                f32_of_Z z = S754_finite s (Nat.iter n xO p) (- Z.of_nat n).
Proof.
  intros Hz Hb. destruct z as [|c|c]; [congruence| |].
  - exists false, c, (Z.to_nat (24 - Zpos (digits2_pos c))). split; [reflexivity|].
    apply binary_round_int0. simpl in Hb. lia.
  - exists true, c, (Z.to_nat (24 - Zpos (digits2_pos c))). split; [reflexivity|].
    apply binary_round_int0. simpl in Hb. lia.
Qed.

Lemma shl_align_int p n K :
  (n <= K)%nat ->
  Zpos (fst (shl_align (Nat.iter n xO p) (- Z.of_nat n) (- Z.of_nat K)))
  = Zpos p * 2 ^ Z.of_nat K.
Proof.
  intros H. unfold shl_align.
  destruct (- Z.of_nat K - - Z.of_nat n) as [|q|q] eqn:E; cbn [fst]; try lia.
  - replace K with n by lia. apply iter_xO_value.
  - rewrite pos_iter_nat, <- Nat.iter_add.
    replace (Pos.to_nat q + n)%nat with K by lia. apply iter_xO_value.
Qed.

Lemma cond_Zopp_mul s v w : cond_Zopp s v * w = cond_Zopp s (v * w).
Proof. destruct s; simpl; lia. Qed.

Lemma f32_of_Z_opp z :
  z <> 0 -> Z.abs z < 2 ^ 24 -> f32_of_Z (- z) = SFopp (f32_of_Z z).
Proof.
  intros Hz Hb. unfold f32_of_Z.
  destruct z as [|c|c]; [congruence| |]; cbn [Z.opp binary_normalize];
    rewrite (binary_round_int0 true c), (binary_round_int0 false c)
      by (simpl in Hb; lia); reflexivity.
Qed.

(** Sums and differences of integers are exact in [float] as long as
    operands and result stay below 2^24. *)
Lemma add32_int a b :
  Z.abs a < 2 ^ 24 -> Z.abs b < 2 ^ 24 -> Z.abs (a + b) < 2 ^ 24 ->
  add32 (f32_of_Z a) (f32_of_Z b) = f32_of_Z (a + b).
Proof.
  intros Ha Hb Hab.
  destruct (Z.eq_dec a 0) as [->|Na].
  { rewrite Z.add_0_l. destruct (Z.eq_dec b 0) as [->|Nb]; [reflexivity|].
    destruct (f32_of_Z_finite b Nb Hb) as (sb & pb & nb & Eb & ->). reflexivity. }
  destruct (f32_of_Z_finite a Na Ha) as (sa & pa & na & Ea & Fa).
  destruct (Z.eq_dec b 0) as [->|Nb].
  { rewrite Z.add_0_r, Fa. reflexivity. }
  destruct (f32_of_Z_finite b Nb Hb) as (sb & pb & nb & Eb & Fb).
  rewrite Fa, Fb. unfold add32, SFadd.
  replace (Z.min (- Z.of_nat na) (- Z.of_nat nb)) with (- Z.of_nat (Nat.max na nb)) by lia.
  rewrite !shl_align_int by lia.
  rewrite <- !cond_Zopp_mul, <- Ea, <- Eb, <- Z.mul_add_distr_r.
  apply f32_of_Z_shifted, Hab.
Qed.

Lemma sub32_int a b :
  Z.abs a < 2 ^ 24 -> Z.abs b < 2 ^ 24 -> Z.abs (a - b) < 2 ^ 24 ->
  sub32 (f32_of_Z a) (f32_of_Z b) = f32_of_Z (a - b).
Proof.
  intros Ha Hb Hab.
  destruct (Z.eq_dec b 0) as [->|Nb].
  { rewrite Z.sub_0_r. destruct (Z.eq_dec a 0) as [->|Na]; [reflexivity|].
    destruct (f32_of_Z_finite a Na Ha) as (sa & pa & na & Ea & ->). reflexivity. }
  destruct (f32_of_Z_finite b Nb Hb) as (sb & pb & nb & Eb & Fb).
  destruct (Z.eq_dec a 0) as [->|Na].
  { rewrite Z.sub_0_l, (f32_of_Z_opp b Nb Hb), Fb. reflexivity. }
  destruct (f32_of_Z_finite a Na Ha) as (sa & pa & na & Ea & Fa).
  rewrite Fa, Fb. unfold sub32, SFsub.
  replace (Z.min (- Z.of_nat na) (- Z.of_nat nb)) with (- Z.of_nat (Nat.max na nb)) by lia.
  rewrite !shl_align_int by lia.
  rewrite <- !cond_Zopp_mul, <- Ea, <- Eb, <- Z.mul_sub_distr_r.
  apply f32_of_Z_shifted, Hab.
Qed.

(** For a width below 2^24 the edges and the width of the timeline are
    the integers [width - 20] and [width - 90]. *)
Lemma timeline_edges_exact d :
  0 <= width d < 2 ^ 24 ->
  timelineX1 d = f32_of_Z (width d - 20) /\
  timelineW d = f32_of_Z (width d - 90) /\
  add32 timelineX0 (timelineW d) = timelineX1 d.
Proof.
  intros H. assert (H24 : 2 ^ 24 = 16777216) by reflexivity.
  assert (E1 : timelineX1 d = f32_of_Z (width d - 20)).
  { unfold timelineX1, rightPad. apply sub32_int; lia. }
  assert (EW : timelineW d = f32_of_Z (width d - 90)).
  { unfold timelineW, timelineX0, leftPad. rewrite E1.
    replace (width d - 90) with (width d - 20 - 70) by lia. apply sub32_int; lia. }
  split; [exact E1|]. split; [exact EW|].
  rewrite EW, E1. unfold timelineX0, leftPad.
  replace (width d - 20) with (70 + (width d - 90)) by lia. apply add32_int; lia.
Qed.

(** *** The mapper inside and outside the window *)

Lemma render_xOf_formula d now t :
  clock_ok now = true ->
  INT64_MIN <= t - (now - WINDOW_MS) <= INT64_MAX ->
  render_xOf d now t = xOf_unclamped timelineX0 (timelineW d) now t.
Proof.
  intros H Ht. unfold render_xOf, xOf, xOf_unclamped.
  rewrite window_start, window_length by assumption.
  unfold sub64 at 1. rewrite wrap_s64_small by exact Ht.
  reflexivity.
Qed.

Lemma all_from_spec p n : forall k0 k,
  all_from p k0 n = true -> k0 <= k < k0 + Z.of_nat n -> p k = true.
Proof.
  induction n as [|n IH]; intros k0 k H Hk; [lia|].
  cbn [all_from] in H. apply andb_true_iff in H. destruct H as [H0 H].
  destruct (Z.eq_dec k k0) as [->|N]; [exact H0|].
  apply (IH (k0 + 1)); [exact H | lia].
Qed.

(** Every quotient [k / 5000] for [k] in 0..5000, computed in [double]. *)
Lemma window_quotients_in_unit_range :
  all_from in_unit_range 0 (Z.to_nat 5001) = true.
Proof. vm_compute. reflexivity. Qed.

Lemma clamp01_in_window k :
  0 <= k <= WINDOW_MS ->
  clamp01 (div64 (f64_of_Z k) (f64_of_Z WINDOW_MS))
  = div64 (f64_of_Z k) (f64_of_Z WINDOW_MS).
Proof.
  intros Hk.
  assert (H : in_unit_range k = true).
  { apply (all_from_spec _ _ 0 k window_quotients_in_unit_range).
    unfold WINDOW_MS in Hk. lia. }
  unfold in_unit_range in H. cbv zeta in H.
  apply andb_true_iff in H. destruct H as [Hlo Hhi].
  apply negb_true_iff in Hlo, Hhi.
  unfold clamp01, clamp. now rewrite Hlo, Hhi.
Qed.

(** C6, as the code has it.  For the frame rendered when the clock reads
    [now], for every timestamp [t] whose offset [t - (now - WINDOW_MS)]
    fits an [int64_t], and for a finite timeline width, the mapper is the
    documented formula without [clamp01]:
    [x(t) = X0 + ((t - (now - WINDOW_MS)) / WINDOW_MS) * timelineWidth];
    for [t] inside the window it is also the documented formula with
    [clamp01]; it sends the start of the window to the left edge [X0] and
    [now] to the [float] sum [X0 + timelineWidth], which is the right
    edge [timelineX1] for a width below 2^24; and whenever the window
    duration [t1 - t0] is not positive, [xOf] sends every timestamp to
    [X0]. *)
Theorem window_mapper_is_the_unclamped_formula d now t :
  clock_ok now = true ->
  INT64_MIN <= t - (now - WINDOW_MS) <= INT64_MAX ->
  is_finite_float32 (timelineW d) = true ->
  render_xOf d now t = xOf_unclamped timelineX0 (timelineW d) now t /\
  (now - WINDOW_MS <= t <= now ->
   render_xOf d now t = xOf_documented timelineX0 (timelineW d) now t) /\
  render_xOf d now (now - WINDOW_MS) = timelineX0 /\
  render_xOf d now now = add32 timelineX0 (timelineW d) /\
  (0 <= width d < 2 ^ 24 -> render_xOf d now now = timelineX1 d) /\
  (forall X0 tw t0 t1 t', sub64 t1 t0 <= 0 -> xOf X0 tw t0 t1 t' = X0).
Proof.
  intros Hnow Ht Hfin. pose proof (clock_ok_range now Hnow) as Hr.
  assert (Hend : render_xOf d now now = add32 timelineX0 (timelineW d)).
  { rewrite render_xOf_formula;
      [| exact Hnow | unfold WINDOW_MS, INT64_MIN, INT64_MAX in *; lia].
    unfold xOf_unclamped.
    replace (now - (now - WINDOW_MS)) with WINDOW_MS by lia.
    replace (div64 (f64_of_Z WINDOW_MS) (f64_of_Z WINDOW_MS)) with one64
      by (vm_compute; reflexivity).
    now rewrite widen_times_one_narrow. }
  split; [|split; [|split; [|split; [|split]]]].
  - apply render_xOf_formula; assumption.
  - intros Hin. rewrite render_xOf_formula by assumption.
    unfold xOf_unclamped, xOf_documented. cbv zeta.
    rewrite clamp01_in_window by lia. reflexivity.
  - rewrite render_xOf_formula;
      [| exact Hnow | unfold WINDOW_MS, INT64_MIN, INT64_MAX in *; lia].
    unfold xOf_unclamped. rewrite Z.sub_diag.
    change (div64 (f64_of_Z 0) (f64_of_Z WINDOW_MS)) with zero.
    destruct (zero_times_finite _ Hfin) as [s ->]. apply add_zero_to_left_edge.
  - exact Hend.
  - intros Hw. rewrite Hend. apply timeline_edges_exact, Hw.
  - intros. now apply xOf_degenerate.
Qed.

Lemma window_mapper_is_the_unclamped_formula_witness :
  clock_ok 10000 = true /\
  INT64_MIN <= 4999 - (10000 - WINDOW_MS) <= INT64_MAX /\
  is_finite_float32 (timelineW fresh_source) = true /\
  render_xOf fresh_source 10000 4999
  = xOf_unclamped timelineX0 (timelineW fresh_source) 10000 4999 /\
  render_xOf fresh_source 10000 (10000 - WINDOW_MS) = timelineX0 /\
  render_xOf fresh_source 10000 10000 = timelineX1 fresh_source.
Proof.
  assert (H1 : clock_ok 10000 = true) by reflexivity.
  assert (H2 : INT64_MIN <= 4999 - (10000 - WINDOW_MS) <= INT64_MAX)
    by (unfold INT64_MIN, INT64_MAX, WINDOW_MS; lia).
  assert (H3 : is_finite_float32 (timelineW fresh_source) = true) by (vm_compute; reflexivity).
  assert (H4 : 0 <= width fresh_source < 2 ^ 24) by (vm_compute; split; congruence).
  destruct (window_mapper_is_the_unclamped_formula fresh_source 10000 4999 H1 H2 H3)
    as (Hf & _ & Hl & _ & Hrt & _).
  exact (conj H1 (conj H2 (conj H3 (conj Hf (conj Hl (Hrt H4)))))).
Defined.

(** With the default width of 1500 the right end is the right edge of
    the timeline, 1480. *)
Example default_right_edge :
  render_xOf fresh_source 10000 10000 = timelineX1 fresh_source /\
  timelineX1 fresh_source = f32_of_Z 1480.
Proof. vm_compute. auto. Qed.

(** C6 as stated fails on the clamp: with now = 10000 and the default
    width, the timestamp 4999 lies one millisecond before the window;
    the documented formula clamps it to the left edge, the code maps it
    to the left of the edge.  It also fails on the right edge for a very
    wide source: with a width of 33554528 the [float] differences and
    sum round, and [x(now)] is 33554512 where the right edge is
    33554508. *)
Lemma window_mapper_leaves_the_timeline :
  xOf_documented timelineX0 (timelineW fresh_source) 10000 4999 = timelineX0 /\
  SFltb (render_xOf fresh_source 10000 4999) timelineX0 = true /\
  render_xOf fresh_source 10000 4999
  <> xOf_documented timelineX0 (timelineW fresh_source) 10000 4999 /\
  (let wide := dz_source_update fresh_source
                 (mk_obs_data 33554528 520 (f64_of_Z 1) 0 0 0 0 0 87 83 65 68
                    true true true true) in
   render_xOf wide 10000 10000 = f32_of_Z 33554512 /\
   timelineX1 wide = f32_of_Z 33554508 /\
   render_xOf wide 10000 10000 <> timelineX1 wide).
Proof.
  split; [vm_compute; reflexivity|]. split; [vm_compute; reflexivity|].
  split; [vm_compute; discriminate|].
  cbv zeta. split; [vm_compute; reflexivity|]. split; [vm_compute; reflexivity|].
  vm_compute. discriminate.
Qed.

(** The bar of a segment is clamped by its caller. *)
Example bar_is_clamped :
  bar_x0 fresh_source 10000 (mk_segment ROW_W 4999 (-1)) = timelineX0.
Proof. vm_compute. reflexivity. Qed.

(* ================================================================== *)
(** * Further properties of the code *)

(* ------------------------------------------------------------------ *)
(** ** The key map and the packets that reach the timeline *)

(** X1.  [vkey_to_row] answers the lowest row whose configured key is
    [vkey], so that of several rows sharing a key the first wins, and -1
    exactly when no row has the key; without an instance it answers -1. *)
Theorem vkey_to_row_first_match d vkey :
  vkey_to_row None vkey = -1 /\
  ((vkey_to_row (Some d) vkey = -1 /\
    forall i, 0 <= i < ROW_COUNT -> row_get (row_key_vkey d) i <> vkey) \/
   (0 <= vkey_to_row (Some d) vkey < ROW_COUNT /\
    row_get (row_key_vkey d) (vkey_to_row (Some d) vkey) = vkey /\
    forall i, 0 <= i < vkey_to_row (Some d) vkey ->
              row_get (row_key_vkey d) i <> vkey)).
Proof.
  split; [reflexivity|]. unfold vkey_to_row, ROW_COUNT. simpl.
  destruct (Z.eqb_spec (at0 (row_key_vkey d)) vkey) as [E0|E0].
  { right. split; [lia|]. split; [exact E0|]. intros i Hi. lia. }
  destruct (Z.eqb_spec (at1 (row_key_vkey d)) vkey) as [E1|E1].
  { right. split; [lia|]. split; [exact E1|]. intros i Hi.
    assert (i = 0) as -> by lia. exact E0. }
  destruct (Z.eqb_spec (at2 (row_key_vkey d)) vkey) as [E2|E2].
  { right. split; [lia|]. split; [exact E2|]. intros i Hi.
    assert (i = 0 \/ i = 1) as [-> | ->] by lia; assumption. }
  destruct (Z.eqb_spec (at3 (row_key_vkey d)) vkey) as [E3|E3].
  { right. split; [lia|]. split; [exact E3|]. intros i Hi.
    assert (i = 0 \/ i = 1 \/ i = 2) as [-> | [-> | ->]] by lia; assumption. }
  left. split; [reflexivity|]. intros i Hi.
  assert (i = 0 \/ i = 1 \/ i = 2 \/ i = 3) as [-> | [-> | [-> | ->]]] by lia;
    assumption.
Qed.

(** X2.  A packet is dropped, the instance coming back as it was, when
    the size query fails, when the read returns another count than the
    size (a truncated read), or when the packet is neither from a mouse
    nor from a keyboard. *)
Theorem unreadable_payload_is_dropped userdata h t :
  query_result h <> 0 \/ read_result h <> reported_size h \/ packet h = RawHid ->
  dz_wndproc userdata (WM_INPUT h) t = (userdata, DefWindowProcW_result).
Proof.
  intros H. destruct userdata as [d|]; simpl; [|reflexivity].
  do 2 f_equal. unfold on_wm_input.
  destruct (Z.eqb_spec (query_result h) 0) as [Eq|Eq]; cbn [negb]; [|reflexivity].
  destruct ((reported_size h =? 0) || (2 ^ 16 <? reported_size h)); [reflexivity|].
  destruct (sizeof_buf <? reported_size h); [reflexivity|].
  destruct (Z.eqb_spec (read_result h) (reported_size h)) as [Er|Er]; cbn [negb];
    [|reflexivity].
  destruct H as [H | [H | H]]; try contradiction. now rewrite H.
Qed.

Lemma unreadable_payload_is_dropped_witness :
  let h := mk_hrawinput 0 40 16 (RawKeyboard (mk_rawkeyboard 0 87)) in
  (query_result h <> 0 \/ read_result h <> reported_size h \/ packet h = RawHid) /\
  dz_wndproc (Some fresh_source) (WM_INPUT h) 7
  = (Some fresh_source, DefWindowProcW_result).
Proof.
  assert (H : query_result (mk_hrawinput 0 40 16 (RawKeyboard (mk_rawkeyboard 0 87))) <> 0 \/
              read_result (mk_hrawinput 0 40 16 (RawKeyboard (mk_rawkeyboard 0 87)))
              <> reported_size (mk_hrawinput 0 40 16 (RawKeyboard (mk_rawkeyboard 0 87))) \/
              packet (mk_hrawinput 0 40 16 (RawKeyboard (mk_rawkeyboard 0 87))) = RawHid)
    by (right; left; simpl; lia).
  split; [exact H|].
  exact (unreadable_payload_is_dropped (Some fresh_source) _ 7 H).
Defined.

(** X3.  A key packet for a key that no row is configured for changes one
    thing only: the count of key events. *)
Theorem unmapped_key_is_only_counted d h k t :
  payload_accepted h = true ->
  packet h = RawKeyboard k ->
  vkey_to_row (Some d) (wrap_u16 (VKey k)) = -1 ->
  on_wm_input d h t = set_st d (count_key_event (st d)).
Proof.
  intros Ha Hp Hr. rewrite on_wm_input_accepted by exact Ha. rewrite Hp.
  now apply on_raw_keyboard_unmapped.
Qed.

Lemma unmapped_key_is_only_counted_witness :
  on_wm_input fresh_source (key_packet 0 81) 12
  = set_st fresh_source (count_key_event (st fresh_source)).
Proof.
  apply (unmapped_key_is_only_counted fresh_source (key_packet 0 81)
           (mk_rawkeyboard 0 81) 12); reflexivity.
Defined.

(** The value of [m1] after the four tests on button 1: the later store
    wins, so a packet carrying both down and up leaves the button up. *)
Lemma on_raw_mouse_m1 d m t :
  m1 (st (on_raw_mouse d m t)) =
  if has_flag (usButtonFlags m) RI_MOUSE_BUTTON_1_UP then 0
  else if has_flag (usButtonFlags m) RI_MOUSE_BUTTON_1_DOWN then 1
  else m1 (st d).
Proof. unfold on_raw_mouse. cbv zeta. split_ifs; reflexivity. Qed.

Lemma on_raw_mouse_counters d m t :
  mouse_events (st (on_raw_mouse d m t)) = wrap_u32 (mouse_events (st d) + 1) /\
  key_events (st (on_raw_mouse d m t)) = key_events (st d).
Proof. unfold on_raw_mouse. cbv zeta. split_ifs; auto. Qed.

(** X4.  A mouse packet never touches the segments, the cursor or the key
    flags, and counts one mouse event; only a packet with button 1 going
    down appends a click, so motion, button-up and the other buttons
    leave the whole timeline as it was.  A packet carrying both the down
    and the up of button 1 leaves the button marked up. *)
Theorem mouse_packet_effect d h m t :
  payload_accepted h = true ->
  packet h = RawMouse m ->
  let d' := on_wm_input d h t in
  segments d' = segments d /\
  cursor d' = cursor d /\
  key_down (st d') = key_down (st d) /\
  mouse_events (st d') = wrap_u32 (mouse_events (st d) + 1) /\
  (has_flag (usButtonFlags m) RI_MOUSE_BUTTON_1_DOWN = false -> clicks d' = clicks d) /\
  (has_flag (usButtonFlags m) RI_MOUSE_BUTTON_1_UP = true -> m1 (st d') = 0).
Proof.
  intros Ha Hp d'. subst d'. rewrite on_wm_input_accepted by exact Ha. rewrite Hp.
  rewrite on_raw_mouse_segments, on_raw_mouse_cursor, on_raw_mouse_key_down,
    on_raw_mouse_clicks, on_raw_mouse_m1.
  destruct (on_raw_mouse_counters d m t) as [-> _].
  repeat split.
  - intros ->. reflexivity.
  - intros ->. reflexivity.
Qed.

Lemma mouse_packet_effect_witness :
  let d := run fresh_source [key_press 87 10] in
  let d' := on_wm_input d (mouse_packet 3) 20 in
  segments d' = segments d /\ cursor d' = cursor d /\ m1 (st d') = 0.
Proof.
  intros d d'.
  destruct (mouse_packet_effect d (mouse_packet 3) (mk_rawmouse 3 0 0) 20
              eq_refl eq_refl) as (Hs & Hc & _ & _ & _ & Hm).
  split; [exact Hs|]. split; [exact Hc|]. apply Hm. reflexivity.
Defined.

(* ------------------------------------------------------------------ *)
(** ** Invariants of the timeline *)

Lemma scan_close_Forall (P : dz_key_segment -> Prop) l row t :
  (forall s, P s -> is_open_for row s = true ->
             P (mk_segment (seg_row s) (start_ms s) t)) ->
  Forall P l -> Forall P (scan_close l row t).
Proof.
  intros HP. induction l as [|s l IH]; simpl; intros H; [constructor|].
  inversion H; subst. destruct (is_open_for row s) eqn:E.
  - constructor; auto.
  - constructor; auto.
Qed.

Lemma close_latest_open_Forall (P : dz_key_segment -> Prop) segs row t :
  (forall s, P s -> is_open_for row s = true ->
             P (mk_segment (seg_row s) (start_ms s) t)) ->
  Forall P segs -> Forall P (close_latest_open segs row t).
Proof.
  intros HP H. unfold close_latest_open.
  apply Forall_rev, scan_close_Forall; [exact HP | apply Forall_rev, H].
Qed.

Lemma pop_old_segments_Forall (P : dz_key_segment -> Prop) segs now keep :
  Forall P segs -> Forall P (pop_old_segments segs now keep).
Proof.
  intros H. destruct (pop_old_segments_suffix segs now keep) as (p & E & _).
  rewrite E in H. apply Forall_app in H. tauto.
Qed.

Lemma pop_old_clicks_Forall (P : dz_click_event -> Prop) cs keep :
  Forall P cs -> Forall P (pop_old_clicks cs keep).
Proof.
  intros H. destruct (pop_old_clicks_suffix cs keep) as (p & E & _).
  rewrite E in H. apply Forall_app in H. tauto.
Qed.

Lemma cursor_inv d d' :
  cursor d' = cursor d ->
  last_key_row d' = last_key_row d /\ last_key_down_ms d' = last_key_down_ms d /\
  last_key_valid d' = last_key_valid d.
Proof. unfold cursor. intros H. injection H as -> -> ->. auto. Qed.

Lemma cursor_row d : last_key_row d = fst (fst (cursor d)).
Proof. reflexivity. Qed.

Lemma cursor_valid d : last_key_valid d = snd (cursor d).
Proof. reflexivity. Qed.

Lemma cursor_down_ms d : last_key_down_ms d = snd (fst (cursor d)).
Proof. reflexivity. Qed.

Lemma mapped_row_in_bounds d vkey :
  vkey_to_row (Some d) vkey <> -1 -> 0 <= vkey_to_row (Some d) vkey < ROW_COUNT.
Proof. intros H. destruct (vkey_to_row_range d vkey); [contradiction | assumption]. Qed.

Lemma rows_in_bounds_step d op : rows_in_bounds d -> rows_in_bounds (step d op).
Proof.
  intros (Hs & Hc & Hk). apply step_cases.
  - unfold rows_in_bounds; tauto.
  - intros h m t _ _ _. unfold rows_in_bounds.
    destruct (cursor_inv _ _ (on_raw_mouse_cursor d m t)) as (-> & _ & _).
    rewrite on_raw_mouse_segments, on_raw_mouse_clicks.
    split; [exact Hs|]. split; [|exact Hk].
    destruct (has_flag _ _); [|exact Hc].
    apply Forall_app. split; [exact Hc|]. constructor; [|constructor].
    unfold click_of. destruct (negb _); simpl; [exact Hk | unfold ROW_D, ROW_COUNT; lia].
  - intros h k t _ _ _.
    destruct (Z.eq_dec (vkey_to_row (Some d) (wrap_u16 (VKey k))) (-1)) as [E|E].
    + rewrite on_raw_keyboard_unmapped by exact E. unfold rows_in_bounds; tauto.
    + pose proof (mapped_row_in_bounds d _ E) as Hr. unfold rows_in_bounds.
      rewrite on_raw_keyboard_clicks, on_raw_keyboard_segments by exact E.
      pose proof (on_raw_keyboard_cursor d k t E) as Hcur. cbv zeta in Hcur.
      split; [|split; [exact Hc|]].
      * destruct (has_flag (Flags k) RI_KEY_BREAK).
        -- apply close_latest_open_Forall; [|exact Hs]. intros s H _. exact H.
        -- destruct (starts_segment _ _); [|exact Hs].
           apply Forall_app. split; [exact Hs|]. constructor; [exact Hr | constructor].
      * rewrite (cursor_row (on_raw_keyboard d k t)), Hcur.
        destruct (negb _ && _); cbn [fst cursor]; [exact Hr | exact Hk].
  - intros s _. unfold rows_in_bounds; tauto.
  - intros now _. unfold rows_in_bounds.
    rewrite dz_cleanup_history_segments, dz_cleanup_history_clicks.
    split; [now apply pop_old_segments_Forall|].
    split; [now apply pop_old_clicks_Forall | exact Hk].
Qed.

(** X5.  Every row the timeline stores (in a segment, in a click, in the
    cursor) is one of 0..3, whatever happened to the instance since its
    creation: the render pass, which reads [row_enabled], [rowYs] and the
    colours at [seg.row] and [c.row], never indexes outside them. *)
Theorem stored_rows_are_in_bounds s effect window ops :
  rows_in_bounds (run (dz_source_create s effect window) ops).
Proof.
  apply (run_invariant rows_in_bounds (fun _ => true)).
  - intros d op _. apply rows_in_bounds_step.
  - apply forallb_always.
  - unfold rows_in_bounds, ROW_COUNT. simpl.
    split; [apply Forall_nil|]. split; [apply Forall_nil | unfold ROW_D; lia].
Qed.

(** Invariants that mention the last clock reading. *)
Lemma run_clock_invariant (P : Z -> dz_source_data -> Prop) (ok : operation -> bool) :
  (forall d op t0 t,
      ok op = true -> t0 <= t ->
      (forall msg t', op = Message msg t' -> t' = t) ->
      (forall t', op = Render t' -> t' = t) ->
      P t0 d -> P t (step d op)) ->
  forall ops d t0,
    clock_monotone t0 ops = true -> forallb ok ops = true -> P t0 d ->
    exists t, t0 <= t /\ P t (run d ops).
Proof.
  intros Hstep. induction ops as [|op ops IH]; intros d t0 Hm Hok HP.
  - exists t0. split; [lia | exact HP].
  - change (run d (op :: ops)) with (run (step d op) ops).
    simpl in Hok. apply andb_true_iff in Hok. destruct Hok as [Hop Hok].
    destruct op as [msg t | s | t]; simpl in Hm.
    + apply andb_true_iff in Hm. destruct Hm as [Ht Hm]. apply Z.leb_le in Ht.
      destruct (IH (step d (Message msg t)) t Hm Hok) as (t' & Ht' & HP').
      * apply (Hstep d _ t0 t); auto.
        -- intros msg' t' E. now inversion E.
        -- intros t' E. discriminate E.
      * exists t'. split; [lia | exact HP'].
    + destruct (IH (step d (Update s)) t0 Hm Hok) as (t' & Ht' & HP').
      * apply (Hstep d _ t0 t0); auto; try lia.
        -- intros msg' t' E. discriminate E.
        -- intros t' E. discriminate E.
      * exists t'. split; [lia | exact HP'].
    + apply andb_true_iff in Hm. destruct Hm as [Ht Hm]. apply Z.leb_le in Ht.
      destruct (IH (step d (Render t)) t Hm Hok) as (t' & Ht' & HP').
      * apply (Hstep d _ t0 t); auto.
        -- intros msg' t' E. discriminate E.
        -- intros t' E. now inversion E.
      * exists t'. split; [lia | exact HP'].
Qed.

Lemma starts_sorted_app l s :
  starts_sorted l -> Forall (fun s' => start_ms s' <= start_ms s) l ->
  starts_sorted (l ++ [s]).
Proof.
  induction l as [|x l IH]; simpl; intros Hs Hf; [auto|].
  destruct Hs as [Hx Hs]. inversion Hf; subst. split.
  - apply Forall_app. split; [exact Hx | constructor; [assumption | constructor]].
  - apply IH; assumption.
Qed.

Lemma starts_sorted_suffix p l : starts_sorted (p ++ l) -> starts_sorted l.
Proof. induction p as [|x p IH]; simpl; [auto|]. intros [_ H]. apply IH, H. Qed.

Lemma starts_sorted_replace a s s' b :
  start_ms s' = start_ms s ->
  starts_sorted (a ++ s :: b) -> starts_sorted (a ++ s' :: b).
Proof.
  intros E. induction a as [|x a IH]; simpl.
  - now rewrite E.
  - intros [Hx Hs]. split; [|apply IH, Hs].
    apply Forall_app in Hx. destruct Hx as [Ha Hb]. inversion Hb; subst.
    apply Forall_app. split; [exact Ha|]. constructor; [now rewrite E | assumption].
Qed.

Lemma close_latest_open_starts segs row t :
  starts_sorted segs -> starts_sorted (close_latest_open segs row t).
Proof.
  intros H. destruct (has_open segs row) eqn:E.
  - destruct (close_latest_open_hit segs row t E) as (a & s & b & Es & _ & _ & ->).
    rewrite Es in H. now apply (starts_sorted_replace a s).
  - now rewrite close_latest_open_miss.
Qed.


Lemma segments_in_order_later t0 t d :
  t0 <= t -> segments_in_order t0 d -> segments_in_order t d.
Proof.
  intros Ht (H1 & H2 & H3). repeat split; auto.
  eapply Forall_impl; [|exact H2]. simpl. intros. lia.
Qed.

Lemma segments_in_order_step d op t0 t :
  t0 <= t ->
  (forall msg t', op = Message msg t' -> t' = t) ->
  segments_in_order t0 d -> segments_in_order t (step d op).
Proof.
  intros Ht Hop H0. pose proof (segments_in_order_later t0 t d Ht H0) as H.
  clear H0. destruct H as (H1 & H2 & H3). apply step_cases.
  - repeat split; assumption.
  - intros h m t' _ _ _. unfold segments_in_order.
    rewrite on_raw_mouse_segments. auto.
  - intros h k t' E _ _. apply Hop in E. subst t'.
    destruct (Z.eq_dec (vkey_to_row (Some d) (wrap_u16 (VKey k))) (-1)) as [E|E].
    + rewrite on_raw_keyboard_unmapped by exact E. repeat split; assumption.
    + unfold segments_in_order. rewrite on_raw_keyboard_segments by exact E.
      destruct (has_flag (Flags k) RI_KEY_BREAK).
      * split; [now apply close_latest_open_starts|].
        apply Forall_and_inv.
        apply close_latest_open_Forall; [|apply Forall_and; assumption].
        intros s [Hs _] _. simpl. split; [exact Hs | right; exact Hs].
      * destruct (starts_segment _ _); [|auto].
        split; [now apply starts_sorted_app|].
        split; apply Forall_app; (split; [assumption|]);
          (constructor; [|constructor]); simpl; [lia | left; reflexivity].
  - intros s _. repeat split; assumption.
  - intros now _. unfold segments_in_order. rewrite dz_cleanup_history_segments.
    cbn [segments set_frame_counter].
    destruct (pop_old_segments_suffix (segments d) now (sub64 now 30000)) as (p & E & _).
    split; [apply (starts_sorted_suffix p); now rewrite <- E|].
    split; now apply pop_old_segments_Forall.
Qed.

(** X6.  Under a clock that never runs backwards, the history an instance
    holds is in creation order: the starts of its segments never decrease
    along the deque, every segment is either open with the sentinel -1 or
    ends no earlier than it starts, and the click times never decrease. *)
Theorem history_is_in_time_order s effect window t0 ops :
  clock_monotone t0 ops = true ->
  let d := run (dz_source_create s effect window) ops in
  starts_sorted (segments d) /\
  Forall well_formed_segment (segments d) /\
  clicks_sorted (clicks d).
Proof.
  intros Hm d.
  destruct (run_clock_invariant segments_in_order (fun _ => true)) with
    (ops := ops) (d := dz_source_create s effect window) (t0 := t0)
    as (t & _ & H1 & _ & H3).
  - intros d0 op ta tb _ Hle Hmsg _. now apply segments_in_order_step.
  - exact Hm.
  - apply forallb_always.
  - unfold segments_in_order. simpl. auto.
  - split; [exact H1|]. split; [exact H3|].
    now apply (clicks_in_order_from_creation s effect window t0).
Qed.

Lemma history_is_in_time_order_witness :
  let ops := [key_press 87 10; key_press 65 25; left_click 30; key_release 87 40;
              Render 45; key_release 65 50] in
  clock_monotone 0 ops = true /\
  starts_sorted (segments (run fresh_source ops)) /\
  Forall well_formed_segment (segments (run fresh_source ops)).
Proof.
  intros ops.
  assert (Hm : clock_monotone 0 ops = true) by reflexivity.
  destruct (history_is_in_time_order default_settings (Some 1%positive) (Some 1%positive)
              0 ops Hm) as (H1 & H2 & _).
  split; [exact Hm|]. split; [exact H1 | exact H2].
Defined.

(** *** The cursor *)

Lemma valid_stays_step d op :
  last_key_valid d = 1 -> last_key_valid (step d op) = 1.
Proof.
  intros H. apply step_cases; auto.
  - intros h m t _ _ _.
    now destruct (cursor_inv _ _ (on_raw_mouse_cursor d m t)) as (_ & _ & ->).
  - intros h k t _ _ _.
    destruct (Z.eq_dec (vkey_to_row (Some d) (wrap_u16 (VKey k))) (-1)) as [E|E].
    + now rewrite on_raw_keyboard_unmapped.
    + rewrite (cursor_valid (on_raw_keyboard d k t)).
      pose proof (on_raw_keyboard_cursor d k t E) as Hcur. cbv zeta in Hcur.
      rewrite Hcur. destruct (negb _ && _); cbn [snd cursor]; auto.
Qed.

Lemma valid_stays d ops : last_key_valid d = 1 -> last_key_valid (run d ops) = 1.
Proof.
  intros H. apply (run_invariant (fun d => last_key_valid d = 1) (fun _ => true)); auto.
  - intros d0 op _. apply valid_stays_step.
  - apply forallb_always.
Qed.

Lemma never_pressed_step d op :
  never_pressed d -> never_pressed (step d op) \/ last_key_valid (step d op) = 1.
Proof.
  intros (Hv & Hs & Hc). apply step_cases.
  - left. repeat split; assumption.
  - intros h m t _ _ _. left. unfold never_pressed.
    destruct (cursor_inv _ _ (on_raw_mouse_cursor d m t)) as (_ & _ & ->).
    rewrite on_raw_mouse_segments, on_raw_mouse_clicks.
    split; [exact Hv|]. split; [exact Hs|].
    destruct (has_flag _ _); [|exact Hc].
    apply Forall_app. split; [exact Hc|]. constructor; [|constructor].
    rewrite click_of_never_pressed by exact Hv. auto.
  - intros h k t _ _ _.
    destruct (Z.eq_dec (vkey_to_row (Some d) (wrap_u16 (VKey k))) (-1)) as [E|E].
    + left. rewrite on_raw_keyboard_unmapped by exact E. repeat split; assumption.
    + unfold never_pressed.
      rewrite (cursor_valid (on_raw_keyboard d k t)).
      pose proof (on_raw_keyboard_cursor d k t E) as Hcur. cbv zeta in Hcur.
      rewrite Hcur, on_raw_keyboard_segments, on_raw_keyboard_clicks by exact E.
      destruct (has_flag (Flags k) RI_KEY_BREAK); cbn [negb andb].
      * left. cbn [snd cursor]. rewrite Hs. auto.
      * destruct (starts_segment _ _); cbn [snd cursor]; [right; reflexivity|].
        left. auto.
  - intros s _. left. repeat split; assumption.
  - intros now _. left. unfold never_pressed.
    rewrite dz_cleanup_history_segments, dz_cleanup_history_clicks.
    cbn [segments clicks last_key_valid set_frame_counter]. rewrite Hs.
    split; [exact Hv|]. split; [reflexivity|]. now apply pop_old_clicks_Forall.
Qed.

(** X7.  The validity flag of the cursor is set by the first press that
    starts a segment and never cleared.  Until then the instance holds no
    segment and each of its clicks carries the fallback row D with a delta
    of 0; from then on the cursor stays valid whatever follows. *)
Theorem cursor_validity_is_permanent s effect window ops :
  let d := run (dz_source_create s effect window) ops in
  never_pressed d \/
  (last_key_valid d = 1 /\ forall more, last_key_valid (run d more) = 1).
Proof.
  intros d.
  assert (H : never_pressed d \/ last_key_valid d = 1).
  { apply (run_invariant (fun d => never_pressed d \/ last_key_valid d = 1)
             (fun _ => true)).
    - intros d0 op _ [H|H]; [now apply never_pressed_step|].
      right. now apply valid_stays_step.
    - apply forallb_always.
    - left. unfold never_pressed. simpl. auto. }
  destruct H as [H|H]; [left; exact H | right].
  split; [exact H|]. intros more. now apply valid_stays.
Qed.

(** *** Deltas *)

Lemma click_of_delta_bounds d t t0 tl :
  0 <= t0 -> tl <= t -> clock_ok t = true -> t <= t0 + INT_MAX ->
  deltas_in_range t0 tl d ->
  0 <= delta_ms (click_of d t) <= time_ms (click_of d t) - t0.
Proof.
  intros H0 Ht Hok Hhi (Hl & _ & Hcur). apply clock_ok_range in Hok.
  rewrite time_of_click_of. unfold click_of.
  destruct (Z.eqb_spec (last_key_valid d) 0) as [E|E]; simpl; [lia|].
  destruct Hcur as [Hcur|Hcur]; [contradiction|].
  unfold sub64. rewrite wrap_s64_small
    by (unfold INT64_MIN, INT64_MAX in *; lia).
  destruct (Z.ltb_spec 0 (t - last_key_down_ms d)); [|lia].
  rewrite wrap_s32_small by (unfold INT_MAX in *; lia). lia.
Qed.

Lemma deltas_in_range_step t0 d op tl t :
  0 <= t0 ->
  op_clock_ok op && (op_time op <=? t0 + INT_MAX) = true ->
  tl <= t ->
  (forall msg t', op = Message msg t' -> t' = t) ->
  deltas_in_range t0 tl d -> deltas_in_range t0 t (step d op).
Proof.
  intros H0 Hok Ht Hop H. pose proof H as (Hl & Hc & Hcur).
  apply andb_true_iff in Hok. destruct Hok as [Hok Hhi]. apply Z.leb_le in Hhi.
  assert (Hcur' : last_key_valid d = 0 \/ t0 <= last_key_down_ms d <= t)
    by (destruct Hcur; [left; assumption | right; lia]).
  apply step_cases.
  - unfold deltas_in_range. split; [lia | auto].
  - intros h m t' E _ _. pose proof (Hop _ _ E) as ->. subst op.
    simpl in Hok, Hhi. unfold deltas_in_range.
    destruct (cursor_inv _ _ (on_raw_mouse_cursor d m t)) as (_ & -> & ->).
    rewrite on_raw_mouse_clicks.
    split; [lia|]. split; [|exact Hcur'].
    destruct (has_flag _ _); [|exact Hc].
    apply Forall_app. split; [exact Hc|]. constructor; [|constructor].
    now apply (click_of_delta_bounds d t t0 tl).
  - intros h k t' E _ _. pose proof (Hop _ _ E) as ->. subst op.
    unfold deltas_in_range. rewrite on_raw_keyboard_clicks.
    split; [lia|]. split; [exact Hc|].
    destruct (Z.eq_dec (vkey_to_row (Some d) (wrap_u16 (VKey k))) (-1)) as [E|E].
    + now rewrite on_raw_keyboard_unmapped.
    + rewrite (cursor_valid (on_raw_keyboard d k t)),
        (cursor_down_ms (on_raw_keyboard d k t)).
      pose proof (on_raw_keyboard_cursor d k t E) as Hk. cbv zeta in Hk. rewrite Hk.
      destruct (negb _ && _); cbn [fst snd cursor]; [right; lia | exact Hcur'].
  - intros s _. unfold deltas_in_range. split; [lia | auto].
  - intros now _. unfold deltas_in_range. rewrite dz_cleanup_history_clicks.
    split; [lia|]. split; [now apply pop_old_clicks_Forall | exact Hcur'].
Qed.

(** X8.  When the clock never runs backwards and the instance is younger
    than 2^31 milliseconds, every click it holds has a delta between 0
    and the age of the click: the cut of the delta to an [int] does not
    show. *)
Theorem deltas_are_non_negative s effect window t0 ops :
  0 <= t0 ->
  clock_monotone t0 ops = true ->
  forallb (fun op => op_clock_ok op && (op_time op <=? t0 + INT_MAX)) ops = true ->
  Forall (fun c => 0 <= delta_ms c <= time_ms c - t0)
    (clicks (run (dz_source_create s effect window) ops)).
Proof.
  intros H0 Hm Hok.
  destruct (run_clock_invariant (deltas_in_range t0)
              (fun op => op_clock_ok op && (op_time op <=? t0 + INT_MAX)))
    with (ops := ops) (d := dz_source_create s effect window) (t0 := t0)
    as (t & _ & _ & H & _).
  - intros d op ta tb Hop Hle Hmsg _. now apply deltas_in_range_step.
  - exact Hm.
  - exact Hok.
  - unfold deltas_in_range. simpl. split; [lia|]. split; [constructor | left; reflexivity].
  - exact H.
Qed.

Lemma deltas_are_non_negative_witness :
  let ops := [key_press 87 1000; left_click 1350; key_release 87 1400; left_click 1500] in
  Forall (fun c => 0 <= delta_ms c <= time_ms c - 1000) (clicks (run fresh_source ops)).
Proof.
  intros ops.
  apply (deltas_are_non_negative default_settings (Some 1%positive) (Some 1%positive)
           1000 ops).
  - lia.
  - reflexivity.
  - reflexivity.
Defined.

(* ------------------------------------------------------------------ *)
(** ** A press and its release *)

Lemma is_release_of_inv vkey op :
  is_release_of vkey op = true ->
  exists k, wrap_u16 (VKey k) = vkey /\ has_flag (Flags k) RI_KEY_BREAK = true /\
            forall d, step d op = on_raw_keyboard d k (op_time op).
Proof.
  destruct op as [[| h |] t | |]; simpl; try discriminate.
  intros H. apply andb_true_iff in H. destruct H as [Ha H].
  destruct (packet h) as [|k|] eqn:Ep; try discriminate.
  apply andb_true_iff in H. destruct H as [Hv Hb]. apply Z.eqb_eq in Hv.
  exists k. repeat split; auto. intros d.
  rewrite on_wm_input_accepted by exact Ha. now rewrite Ep.
Qed.

Lemma close_latest_open_last segs s row t :
  is_open_for row s = true ->
  close_latest_open (segs ++ [s]) row t
  = segs ++ [mk_segment (seg_row s) (start_ms s) t].
Proof.
  intros H. unfold close_latest_open. rewrite rev_app_distr. simpl. rewrite H.
  simpl. now rewrite rev_involutive.
Qed.

Lemma presses_keep_row vkey ops : forall d,
  forallb (is_press_of vkey) ops = true ->
  vkey_to_row (Some (run d ops)) vkey = vkey_to_row (Some d) vkey.
Proof.
  induction ops as [|op ops IH]; intros d H; [reflexivity|].
  simpl in H. apply andb_true_iff in H. destruct H as [Hop H].
  change (run d (op :: ops)) with (run (step d op) ops).
  rewrite IH by exact H. now apply press_keeps_row.
Qed.

(** X9.  A key whose row is idle is pressed, held through any number of
    repeated presses, and released when the clock reads [0 <= t]: the
    history gains exactly the closed segment from the first press to the
    release, the row is idle again (flag clear, no open segment), and the
    cursor still points at the press. *)
Theorem press_then_release_adds_one_closed_segment d vkey press repeats release :
  let row := vkey_to_row (Some d) vkey in
  row <> -1 ->
  was_down d row = false ->
  has_open (segments d) row = false ->
  is_press_of vkey press = true ->
  forallb (is_press_of vkey) repeats = true ->
  is_release_of vkey release = true ->
  0 <= op_time release ->
  let d' := run d (press :: repeats ++ [release]) in
  segments d' = segments d ++ [mk_segment row (op_time press) (op_time release)] /\
  was_down d' row = false /\
  has_open (segments d') row = false /\
  cursor d' = (row, op_time press, 1).
Proof.
  intros row Hm Hd Ho Hp Hr Hrel Ht d'.
  destruct (press_when_idle vkey d Hm press Hp Hd Ho) as [Hs Hc].
  pose proof (press_keeps_row vkey d press Hp) as Hrow1.
  pose proof (press_marks_down vkey d Hm press Hp) as Hdown.
  fold row in Hs, Hc, Hrow1, Hdown.
  set (d1 := step d press) in *.
  destruct (suppressed_presses vkey repeats d1) as [Hs2 Hc2];
    [rewrite Hrow1; exact Hm | rewrite Hrow1; exact Hdown | exact Hr |].
  set (d2 := run d1 repeats) in *.
  assert (Hrow2 : vkey_to_row (Some d2) vkey = row).
  { subst d2. rewrite presses_keep_row by exact Hr. exact Hrow1. }
  destruct (is_release_of_inv vkey release Hrel) as (k & Hv & Hb & Hstep).
  assert (Hd' : d' = on_raw_keyboard d2 k (op_time release)).
  { subst d' d2 d1. change (run d (press :: repeats ++ [release]))
      with (run (step d press) (repeats ++ [release])).
    rewrite run_app. simpl. apply Hstep. }
  assert (Hk : vkey_to_row (Some d2) (wrap_u16 (VKey k)) = row) by now rewrite Hv.
  assert (Hk' : vkey_to_row (Some d2) (wrap_u16 (VKey k)) <> -1) by now rewrite Hk.
  assert (Hseg : segments d'
                 = segments d ++ [mk_segment row (op_time press) (op_time release)]).
  { rewrite Hd', on_raw_keyboard_segments by exact Hk'. rewrite Hb, Hk, Hs2, Hs.
    apply close_latest_open_last. rewrite is_open_for_new. apply Z.eqb_refl. }
  split; [exact Hseg|]. split; [|split].
  - unfold was_down. rewrite Hd', on_raw_keyboard_key_down by exact Hk'.
    rewrite Hb, Hk, row_get_set_same; [reflexivity|].
    now apply mapped_row_in_bounds.
  - rewrite Hseg, has_open_app, Ho. unfold is_open_for. simpl.
    replace (op_time release <? 0) with false by (symmetry; apply Z.ltb_ge; lia).
    apply andb_false_r.
  - rewrite Hd', on_raw_keyboard_cursor by exact Hk'. rewrite Hb. simpl.
    now rewrite Hc2.
Qed.

Lemma press_then_release_adds_one_closed_segment_witness :
  segments (run fresh_source [key_press 83 100; key_press 83 130; key_release 83 250])
  = [mk_segment ROW_S 100 250].
Proof.
  assert (Hm : vkey_to_row (Some fresh_source) 83 <> -1) by (vm_compute; discriminate).
  assert (Ht : 0 <= op_time (key_release 83 250)) by (simpl; lia).
  exact (proj1 (press_then_release_adds_one_closed_segment fresh_source 83
                  (key_press 83 100) [key_press 83 130] (key_release 83 250)
                  Hm eq_refl eq_refl eq_refl eq_refl eq_refl Ht)).
Defined.

(* ------------------------------------------------------------------ *)
(** ** Cleanups compose *)

Lemma pop_old_clicks_twice cs k1 k2 :
  k1 <= k2 -> pop_old_clicks (pop_old_clicks cs k1) k2 = pop_old_clicks cs k2.
Proof.
  intros Hk. induction cs as [|c cs IH]; [reflexivity|]. simpl.
  destruct (Z.ltb_spec (time_ms c) k1) as [H1|H1].
  - rewrite IH. replace (time_ms c <? k2) with true by (symmetry; apply Z.ltb_lt; lia).
    reflexivity.
  - reflexivity.
Qed.

Lemma pop_old_segments_twice segs n1 k1 n2 k2 :
  k1 <= k2 -> k1 <= n1 ->
  pop_old_segments (pop_old_segments segs n1 k1) n2 k2 = pop_old_segments segs n2 k2.
Proof.
  intros Hk Hn. induction segs as [|s segs IH]; [reflexivity|]. simpl.
  destruct (Z.leb_spec k1 (effective_end s n1)) as [H1|H1]; [reflexivity|].
  rewrite IH. unfold effective_end in *.
  destruct (Z.ltb_spec (end_ms s) 0); [lia|].
  replace (k2 <=? end_ms s) with false by (symmetry; apply Z.leb_gt; lia).
  reflexivity.
Qed.

(** X10.  Cleanups compose: a cleanup when the clock reads [now1]
    followed by one when it reads [now2 >= now1] leaves the instance
    exactly as the second cleanup alone does.  In particular a cleanup is
    idempotent, and skipping frames changes nothing in what is kept. *)
Theorem cleanups_compose d now1 now2 :
  clock_ok now1 = true -> clock_ok now2 = true -> now1 <= now2 ->
  dz_cleanup_history (dz_cleanup_history d now1) now2 = dz_cleanup_history d now2.
Proof.
  intros H1 H2 Hle. unfold dz_cleanup_history.
  rewrite !sub64_clock by (auto; unfold INT64_MAX; lia).
  unfold set_segments, set_clicks. cbn -[pop_old_clicks pop_old_segments Z.sub].
  rewrite pop_old_clicks_twice, pop_old_segments_twice by lia. reflexivity.
Qed.

Lemma cleanups_compose_witness :
  let d := run fresh_source [key_press 87 0; key_release 87 200; left_click 500;
                             key_press 65 20000] in
  dz_cleanup_history (dz_cleanup_history d 30300) 30600 = dz_cleanup_history d 30600.
Proof.
  intros d. apply (cleanups_compose d 30300 30600); [reflexivity | reflexivity | lia].
Defined.

(* ------------------------------------------------------------------ *)
(** ** Settings *)

(** X11.  An update whose width and height are positive overrides every
    earlier update: only the last settings count.  (A width or height
    that is not positive keeps the previous value instead.) *)
Theorem last_settings_win d s1 s2 :
  0 < wrap_s32 (s_width s2) -> 0 < wrap_s32 (s_height s2) ->
  dz_source_update (dz_source_update d s1) s2 = dz_source_update d s2.
Proof.
  intros Hw Hh. apply Z.ltb_lt in Hw, Hh.
  unfold dz_source_update, apply_settings, set_st, set_key_down.
  cbn [width height bg_alpha row_enabled row_key_vkey bg_color key_color solid hwnd
       st segments clicks last_key_row last_key_down_ms last_key_valid frame_counter
       key_down m1 m2 m3 last_dx last_dy total_dx total_dy mouse_events key_events].
  rewrite Hw, Hh. reflexivity.
Qed.

Lemma last_settings_win_witness :
  dz_source_update (dz_source_update fresh_source default_settings) default_settings
  = dz_source_update fresh_source default_settings.
Proof.
  apply (last_settings_win fresh_source default_settings default_settings);
    vm_compute; reflexivity.
Defined.

(** X12.  Updating twice with the same settings is updating once, and an
    update with the settings an instance was created from changes nothing
    in an instance that has seen no event yet. *)
Theorem update_is_idempotent d s effect window :
  dz_source_update (dz_source_update d s) s = dz_source_update d s /\
  dz_source_update (dz_source_create s effect window) s = dz_source_create s effect window.
Proof.
  unfold dz_source_create, dz_source_update, apply_settings, set_st, set_key_down.
  cbn [width height bg_alpha row_enabled row_key_vkey bg_color key_color solid hwnd
       st segments clicks last_key_row last_key_down_ms last_key_valid frame_counter
       key_down m1 m2 m3 last_dx last_dy total_dx total_dy mouse_events key_events
       default_source_data].
  split; destruct (0 <? wrap_s32 (s_width s)), (0 <? wrap_s32 (s_height s)); reflexivity.
Qed.

Lemma wrap_s32_range z : - 2 ^ 31 <= wrap_s32 z <= INT_MAX.
Proof.
  unfold wrap_s32, wrap_signed, INT_MAX.
  pose proof (Z.mod_pos_bound (z + 2 ^ (32 - 1)) (2 ^ 32) ltac:(lia)). lia.
Qed.

Lemma wrap_u32_small z : 0 <= z <= INT_MAX -> wrap_u32 z = z.
Proof.
  unfold wrap_u32, wrap_unsigned, INT_MAX. intros H. apply Z.mod_small. lia.
Qed.

Lemma wrap_u16_range z : 0 <= wrap_u16 z < 2 ^ 16.
Proof. unfold wrap_u16, wrap_unsigned. apply Z.mod_pos_bound. lia. Qed.

Lemma dz_obter_vkey_range setting padrao :
  0 <= padrao < 2 ^ 16 -> 0 <= dz_obter_vkey setting padrao < 2 ^ 16.
Proof.
  intros H. unfold dz_obter_vkey. destruct (negb _); [apply wrap_u16_range | exact H].
Qed.

Lemma apply_settings_size d s :
  1 <= width d <= INT_MAX /\ 1 <= height d <= INT_MAX ->
  1 <= width (apply_settings d s) <= INT_MAX /\
  1 <= height (apply_settings d s) <= INT_MAX.
Proof.
  intros [Hw Hh]. unfold apply_settings. cbn [width height].
  pose proof (wrap_s32_range (s_width s)). pose proof (wrap_s32_range (s_height s)).
  split.
  - destruct (Z.ltb_spec 0 (wrap_s32 (s_width s))); [|exact Hw].
    rewrite wrap_u32_small; lia.
  - destruct (Z.ltb_spec 0 (wrap_s32 (s_height s))); [|exact Hh].
    rewrite wrap_u32_small; lia.
Qed.

Lemma size_step d op :
  1 <= width d <= INT_MAX /\ 1 <= height d <= INT_MAX ->
  1 <= width (step d op) <= INT_MAX /\ 1 <= height (step d op) <= INT_MAX.
Proof.
  intros H. apply step_cases; auto.
  - intros h m t _ _ _. unfold on_raw_mouse. cbv zeta. split_ifs; exact H.
  - intros h k t _ _ _. unfold on_raw_keyboard. cbv zeta. split_ifs; exact H.
  - intros s _. now apply apply_settings_size.
Qed.

(** X13.  The width and the height that the host is told are never zero
    for an instance: they start from positive defaults, settings that
    are not positive as an [int] are ignored, and nothing else writes
    them; both fit an [int].  For a null instance both answers are 0. *)
Theorem reported_size_is_positive s effect window ops :
  let d := run (dz_source_create s effect window) ops in
  1 <= dz_source_get_width (Some d) <= INT_MAX /\
  1 <= dz_source_get_height (Some d) <= INT_MAX /\
  dz_source_get_width None = 0 /\ dz_source_get_height None = 0.
Proof.
  intros d.
  assert (H : 1 <= width d <= INT_MAX /\ 1 <= height d <= INT_MAX).
  { apply (run_invariant (fun d => 1 <= width d <= INT_MAX /\ 1 <= height d <= INT_MAX)
             (fun _ => true)).
    - intros d0 op _. apply size_step.
    - apply forallb_always.
    - unfold dz_source_create. cbn [width height].
      apply apply_settings_size. unfold INT_MAX. simpl. lia. }
  simpl. tauto.
Qed.

(* ------------------------------------------------------------------ *)
(** ** Comparisons of floats *)




Lemma SFltb_leb a b : SFltb a b = true -> SFleb a b = true.
Proof. unfold SFltb, SFleb. destruct (SFcompare a b) as [[]|]; auto. Qed.

Lemma SFleb_refl a : is_number a = true -> SFleb a a = true.
Proof.
  destruct a as [s|s| |s m e]; simpl; try discriminate; intros _; unfold SFleb; simpl.
  - reflexivity.
  - now destruct s.
  - destruct s; rewrite Z.compare_refl, Pos.compare_cont_refl; reflexivity.
Qed.

Lemma SFleb_number a b : SFleb a b = true -> is_number a = true /\ is_number b = true.
Proof.
  unfold SFleb. destruct a as [sa|sa| |sa ma ea], b as [sb|sb| |sb mb eb]; simpl;
    try discriminate; auto.
Qed.



(* ------------------------------------------------------------------ *)
(** ** The opacity of the background *)




(* ------------------------------------------------------------------ *)
(** ** Bars stay on the timeline *)

Lemma clampf_bounds v a b :
  SFleb a b = true ->
  SFleb a (clampf v a b) = true /\ SFleb (clampf v a b) b = true.
Proof.
  intros Hab. destruct (SFleb_number a b Hab) as [Ha Hb]. unfold clampf.
  destruct (SFltb v b) eqn:Evb.
  - destruct (SFltb a v) eqn:Eav.
    + split; [now apply SFltb_leb | now apply SFltb_leb].
    + split; [now apply SFleb_refl | exact Hab].
  - destruct (SFltb a b) eqn:Eab.
    + split; [exact Hab | now apply SFleb_refl].
    + split; [now apply SFleb_refl | exact Hab].
Qed.

(** X15.  Whatever [xOf] answers, a NaN or an infinity included, both
    ends of the bar drawn for a segment lie between the left and the
    right edge of the timeline, as soon as the left edge is not right of
    the right edge. *)
Theorem bar_ends_are_on_the_timeline d tNow seg :
  SFleb timelineX0 (timelineX1 d) = true ->
  SFleb timelineX0 (bar_x0 d tNow seg) = true /\
  SFleb (bar_x0 d tNow seg) (timelineX1 d) = true /\
  SFleb timelineX0 (bar_x1 d tNow seg) = true /\
  SFleb (bar_x1 d tNow seg) (timelineX1 d) = true.
Proof.
  intros H. unfold bar_x0, bar_x1.
  destruct (clampf_bounds (render_xOf d tNow (start_ms seg)) _ _ H) as [H1 H2].
  destruct (clampf_bounds (render_xOf d tNow (effective_end seg tNow)) _ _ H) as [H3 H4].
  auto.
Qed.

Lemma bar_ends_are_on_the_timeline_witness :
  SFleb timelineX0 (timelineX1 fresh_source) = true /\
  SFleb timelineX0 (bar_x0 fresh_source 10000 (mk_segment ROW_W 1200 (-1))) = true /\
  SFleb (bar_x1 fresh_source 10000 (mk_segment ROW_W 1200 (-1)))
    (timelineX1 fresh_source) = true.
Proof.
  assert (H : SFleb timelineX0 (timelineX1 fresh_source) = true) by (vm_compute; reflexivity).
  destruct (bar_ends_are_on_the_timeline fresh_source 10000 (mk_segment ROW_W 1200 (-1)) H)
    as (H1 & _ & _ & H4).
  split; [exact H|]. split; [exact H1 | exact H4].
Defined.

(* ------------------------------------------------------------------ *)
(** ** Colours *)

(** The 256 quotients [(float)k / 255.0f]. *)
Lemma byte_over_255_in_unit_interval k :
  0 <= k <= 255 -> in_unit_interval (div32 (f32_of_Z k) (f32_of_Z 255)) = true.
Proof.
  intros H.
  assert (Hall : forallb (fun n => in_unit_interval
                                     (div32 (f32_of_Z (Z.of_nat n)) (f32_of_Z 255)))
                   (seq 0 256) = true) by (vm_compute; reflexivity).
  rewrite forallb_forall in Hall. specialize (Hall (Z.to_nat k)).
  rewrite Z2Nat.id in Hall by lia. apply Hall. apply in_seq. lia.
Qed.

Lemma low_byte_range x : 0 <= Z.land x 255 <= 255.
Proof.
  change 255 with (Z.ones 8). rewrite Z.land_ones by lia.
  pose proof (Z.mod_pos_bound x (2 ^ 8) ltac:(lia)). change (Z.ones 8) with 255.
  change (2 ^ 8) with 256 in *. lia.
Qed.

(** X16.  For every value of the colour property, the high byte included,
    the red, green and blue that [dz_col_from_obs_bgr] hands to the
    drawing are floats in [0, 1], and the alpha is passed through; the
    same holds for [row_color] at any row, in or out of range, with or
    without an instance. *)
Theorem colour_channels_are_in_unit_interval bgr a d row :
  let c := dz_col_from_obs_bgr bgr a in
  in_unit_interval (vx c) = true /\ in_unit_interval (vy c) = true /\
  in_unit_interval (vz c) = true /\ vw c = a /\
  in_unit_interval (vx (row_color d row a)) = true /\
  in_unit_interval (vy (row_color d row a)) = true /\
  in_unit_interval (vz (row_color d row a)) = true.
Proof.
  assert (H : forall x, in_unit_interval (vx (dz_col_from_obs_bgr x a)) = true /\
                        in_unit_interval (vy (dz_col_from_obs_bgr x a)) = true /\
                        in_unit_interval (vz (dz_col_from_obs_bgr x a)) = true).
  { intros x. unfold dz_col_from_obs_bgr, dz_col_rgba. cbn [vx vy vz].
    repeat split; apply byte_over_255_in_unit_interval, low_byte_range. }
  intros c. destruct (H bgr) as (H1 & H2 & H3).
  split; [exact H1|]. split; [exact H2|]. split; [exact H3|]. split; [reflexivity|].
  destruct d as [d|]; [apply H | repeat split].
Qed.

Lemma byte_of_colour r g b hi :
  0 <= r <= 255 -> 0 <= g <= 255 -> 0 <= b <= 255 -> 0 <= hi ->
  let bgr := r + 256 * g + 65536 * b + 16777216 * hi in
  Z.land bgr 255 = r /\ Z.land (Z.shiftr bgr 8) 255 = g /\
  Z.land (Z.shiftr bgr 16) 255 = b.
Proof.
  intros Hr Hg Hb Hhi bgr. change 255 with (Z.ones 8).
  rewrite !Z.land_ones, !Z.shiftr_div_pow2 by lia.
  change (2 ^ 8) with 256. change (2 ^ 16) with 65536. subst bgr.
  repeat split.
  - symmetry. apply (Z.mod_unique_pos _ _ (g + 256 * b + 65536 * hi)); lia.
  - replace ((r + 256 * g + 65536 * b + 16777216 * hi) / 256)
      with (g + 256 * b + 65536 * hi)
      by (apply (Z.div_unique_pos _ _ _ r); lia).
    symmetry. apply (Z.mod_unique_pos _ _ (b + 256 * hi)); lia.
  - replace ((r + 256 * g + 65536 * b + 16777216 * hi) / 65536)
      with (b + 256 * hi)
      by (apply (Z.div_unique_pos _ _ _ (r + 256 * g)); lia).
    symmetry. apply (Z.mod_unique_pos _ _ hi); lia.
Qed.

(** X17.  The colour property is read as [0x00BBGGRR]: for bytes [r],
    [g], [b] and anything above them, the colour decoded from
    [r + 256 g + 65536 b + ...] has red [r/255], green [g/255] and blue
    [b/255]. *)
Theorem colour_is_decoded_as_bgr r g b hi a :
  0 <= r <= 255 -> 0 <= g <= 255 -> 0 <= b <= 255 -> 0 <= hi ->
  dz_col_from_obs_bgr (r + 256 * g + 65536 * b + 16777216 * hi) a
  = dz_col_rgba (div32 (f32_of_Z r) (f32_of_Z 255))
                (div32 (f32_of_Z g) (f32_of_Z 255))
                (div32 (f32_of_Z b) (f32_of_Z 255)) a.
Proof.
  intros Hr Hg Hb Hhi. unfold dz_col_from_obs_bgr.
  destruct (byte_of_colour r g b hi Hr Hg Hb Hhi) as (-> & -> & ->). reflexivity.
Qed.

Lemma colour_is_decoded_as_bgr_witness :
  dz_col_from_obs_bgr 6146291 (f32_of_Z 1)
  = dz_col_rgba (div32 (f32_of_Z 243) (f32_of_Z 255))
                (div32 (f32_of_Z 200) (f32_of_Z 255))
                (div32 (f32_of_Z 93) (f32_of_Z 255)) (f32_of_Z 1).
Proof.
  apply (colour_is_decoded_as_bgr 243 200 93 0 (f32_of_Z 1)); lia.
Defined.

(* ------------------------------------------------------------------ *)
(** ** Key names *)

Section KeyNameProperties.
Import String Ascii.

Lemma find_key_name_unknown opts unknown vkey :
  ~ In vkey (map fst opts) -> find_key_name opts unknown vkey = unknown.
Proof.
  induction opts as [|[k n] opts IH]; simpl; intros H; [reflexivity|].
  destruct (Z.eqb_spec k vkey) as [E|E]; [exfalso; apply H; left; exact E|].
  apply IH. intros Hin. apply H. right. exact Hin.
Qed.

Lemma find_key_name_in opts unknown vkey :
  In (find_key_name opts unknown vkey) (unknown :: map snd opts).
Proof.
  induction opts as [|[k n] opts IH]; simpl; [left; reflexivity|].
  destruct (k =? vkey); [right; left; reflexivity|].
  destruct IH as [IH|IH]; [left; exact IH | right; right; exact IH].
Qed.

Lemma table_is_a_bijection_spec opts unknown :
  table_is_a_bijection opts unknown = true ->
  (forall k n, In (k, n) opts -> find_key_name opts unknown k = n) /\
  (forall k1 k2, In k1 (map fst opts) -> In k2 (map fst opts) ->
                 find_key_name opts unknown k1 = find_key_name opts unknown k2 ->
                 k1 = k2) /\
  (forall k, In k (map fst opts) -> find_key_name opts unknown k <> unknown).
Proof.
  unfold table_is_a_bijection. intros H.
  apply andb_true_iff in H. destruct H as [H H3].
  apply andb_true_iff in H. destruct H as [H1 H2].
  rewrite forallb_forall in H1, H2, H3.
  assert (Hfind : forall k n, In (k, n) opts -> find_key_name opts unknown k = n).
  { intros k n Hin. apply String.eqb_eq. exact (H1 (k, n) Hin). }
  split; [exact Hfind|]. split.
  - intros k1 k2 Hk1 Hk2 E.
    apply in_map_iff in Hk1. destruct Hk1 as ([k1' n1] & <- & Hin1).
    apply in_map_iff in Hk2. destruct Hk2 as ([k2' n2] & <- & Hin2).
    simpl in *. rewrite (Hfind _ _ Hin1), (Hfind _ _ Hin2) in E. subst n2.
    specialize (H2 _ Hin1). rewrite forallb_forall in H2. specialize (H2 _ Hin2).
    simpl in H2. rewrite String.eqb_refl in H2. simpl in H2. now apply Z.eqb_eq.
  - intros k Hk. apply in_map_iff in Hk. destruct Hk as ([k' n] & <- & Hin).
    simpl. rewrite (Hfind _ _ Hin). specialize (H3 _ Hin). simpl in H3.
    apply negb_true_iff in H3. now apply String.eqb_neq.
Qed.

(** X18.  The key list is a faithful dictionary, in the plugin and in its
    English copy: [dz_nome_tecla] gives every listed key the name listed
    with it (no key is listed twice), two listed keys never share a name,
    and a key that is not listed, and only such a key, is named
    "DESCONHECIDA" ("UNKNOWN" in the English copy). *)
Theorem key_names_are_a_dictionary :
  (forall k n, In (k, n) kKeyOptions -> dz_nome_tecla k = n) /\
  (forall k1 k2, In k1 (map fst kKeyOptions) -> In k2 (map fst kKeyOptions) ->
                 dz_nome_tecla k1 = dz_nome_tecla k2 -> k1 = k2) /\
  (forall k, dz_nome_tecla k = "DESCONHECIDA"%string <-> ~ In k (map fst kKeyOptions)) /\
  (forall k n, In (k, n) kKeyOptions_en -> dz_key_name k = n) /\
  (forall k, dz_key_name k = "UNKNOWN"%string <-> ~ In k (map fst kKeyOptions_en)).
Proof.
  destruct (table_is_a_bijection_spec kKeyOptions "DESCONHECIDA"%string)
    as (H1 & H2 & H3); [vm_compute; reflexivity|].
  destruct (table_is_a_bijection_spec kKeyOptions_en "UNKNOWN"%string)
    as (E1 & _ & E3); [vm_compute; reflexivity|].
  split; [exact H1|]. split; [exact H2|]. split; [|split; [exact E1|]].
  - intros k. split.
    + intros E Hin. exact (H3 k Hin E).
    + apply find_key_name_unknown.
  - intros k. split.
    + intros E Hin. exact (E3 k Hin E).
    + apply find_key_name_unknown.
Qed.

(** *** The font *)

Lemma glyph_case_in cases ch g :
  glyph_case cases ch = Some g -> In (ch, g) cases.
Proof.
  induction cases as [|[c g'] cases IH]; simpl; [discriminate|].
  destruct (Ascii.eqb_spec c ch) as [->|_].
  - intros E. inversion E. left. reflexivity.
  - intros E. right. now apply IH.
Qed.

Lemma nth_Forall_bound (l : list Z) n hi :
  0 < hi -> Forall (fun v => 0 <= v < hi) l -> 0 <= nth n l 0 < hi.
Proof.
  intros Hhi H. revert n. induction H as [|v l Hv _ IH]; intros [|n]; simpl; auto; lia.
Qed.

Lemma masks_eqb_refl g : masks_eqb g g = true.
Proof. induction g as [|x g IH]; simpl; [reflexivity|]. now rewrite Z.eqb_refl. Qed.

(** X19.  Every row mask of the font, for every character and each of
    the rows 0..6, is below 32, so that the five columns the text drawing tests
    cover every pixel; and two different characters that have a glyph
    never have the same glyph ('O' and '0', 'I' and '1', 'S' and '5', 'B'
    and '8' included). *)
Theorem font_masks_fit_and_differ :
  (forall ch r, 0 <= r < 7 -> 0 <= glyph_5x7 ch r < 32) /\
  (forall c1 c2 g, glyph_case glyph_cases c1 = Some g ->
                   glyph_case glyph_cases c2 = Some g -> c1 = c2).
Proof.
  split.
  - intros ch r _. unfold glyph_5x7.
    destruct (glyph_case glyph_cases ch) as [g|] eqn:E; [|lia].
    apply glyph_case_in in E.
    assert (Hall : Forall (fun cg => Forall (fun v => 0 <= v < 32) (snd cg)) glyph_cases).
    { unfold glyph_cases. repeat constructor; simpl; lia. }
    rewrite Forall_forall in Hall. specialize (Hall _ E).
    apply nth_Forall_bound; [lia | exact Hall].
  - intros c1 c2 g E1 E2. apply glyph_case_in in E1, E2.
    assert (Hall : glyphs_differ glyph_cases = true) by (vm_compute; reflexivity).
    unfold glyphs_differ in Hall.
    rewrite forallb_forall in Hall. specialize (Hall _ E1).
    rewrite forallb_forall in Hall. specialize (Hall _ E2). cbn [fst snd] in Hall.
    rewrite masks_eqb_refl in Hall. now apply Ascii.eqb_eq.
Qed.

(** X20.  Whatever key a row is configured with, listed or not, the label
    the render pass of the plugin draws for it ([dz_nome_tecla]) is
    legible (each of its characters is a space or has a glyph with
    pixels) and is drawn at scale 4 or 3: no name is longer than sixteen
    characters, so the scale 2 of the render pass is never used. *)
Theorem row_labels_are_legible vkey :
  is_legible (dz_nome_tecla vkey) = true /\
  (label_scale (dz_nome_tecla vkey) = f32_of_Z 4 \/
   label_scale (dz_nome_tecla vkey) = f32_of_Z 3).
Proof.
  assert (Hpt : forallb (fun n => is_legible n &&
                                  (Z.of_nat (String.length n) <=? 16))
                  ("DESCONHECIDA"%string :: map snd kKeyOptions) = true)
    by (vm_compute; reflexivity).
  rewrite forallb_forall in Hpt.
  specialize (Hpt _ (find_key_name_in kKeyOptions "DESCONHECIDA"%string vkey)).
  fold (dz_nome_tecla vkey) in Hpt.
  apply andb_true_iff in Hpt. destruct Hpt as [P1 P2].
  apply Z.leb_le in P2.
  split; [exact P1|]. unfold label_scale.
  replace (16 <? Z.of_nat (String.length (dz_nome_tecla vkey))) with false
    by (symmetry; apply Z.ltb_ge; exact P2).
  destruct (10 <? Z.of_nat (String.length (dz_nome_tecla vkey))); auto.
Qed.

(** *** Text *)

Lemma draw_glyph_columns_squares bits pen_x y cell color r n : forall c,
  Forall (fun call => rect_w call = cell /\ rect_h call = cell /\ rect_color call = color)
    (draw_glyph_columns bits pen_x y cell color r c n).
Proof.
  induction n as [|n IH]; intros c; cbn [draw_glyph_columns]; [constructor|].
  apply Forall_app. split; [|apply IH].
  destruct (has_flag bits _); repeat constructor.
Qed.

Lemma draw_glyph_rows_squares ch pen_x y cell color n : forall r,
  Forall (fun call => rect_w call = cell /\ rect_h call = cell /\ rect_color call = color)
    (draw_glyph_rows ch pen_x y cell color r n).
Proof.
  induction n as [|n IH]; intros r; cbn [draw_glyph_rows]; [constructor|].
  apply Forall_app. split; [apply draw_glyph_columns_squares | apply IH].
Qed.

Lemma draw_chars_squares text cell color : forall pen_x y,
  Forall (fun call => rect_w call = cell /\ rect_h call = cell /\ rect_color call = color)
    (draw_chars text pen_x y cell color).
Proof.
  induction text as [|ch text IH]; intros pen_x y; cbn [draw_chars]; [constructor|].
  destruct (Ascii.eqb ch " "); [apply IH|].
  apply Forall_app. split; [apply draw_glyph_rows_squares | apply IH].
Qed.

Lemma draw_glyph_columns_blank pen_x y cell color r n : forall c,
  draw_glyph_columns 0 pen_x y cell color r c n = [].
Proof.
  induction n as [|n IH]; intros c; cbn [draw_glyph_columns]; [reflexivity|].
  unfold has_flag at 1. rewrite Z.land_0_l. cbn [Z.eqb negb app]. apply IH.
Qed.

Lemma draw_glyph_rows_zero ch pen_x y cell color n : forall r,
  (forall k, r <= k < r + Z.of_nat n -> glyph_5x7 ch k = 0) ->
  draw_glyph_rows ch pen_x y cell color r n = [].
Proof.
  induction n as [|n IH]; intros r H; cbn [draw_glyph_rows]; [reflexivity|].
  rewrite (H r) by lia. change (wrap_u8 0) with 0.
  rewrite draw_glyph_columns_blank. cbn [app]. apply IH. intros k Hk. apply H. lia.
Qed.

Lemma draw_glyph_rows_blank ch pen_x y cell color :
  has_pixels ch = false -> draw_glyph_rows ch pen_x y cell color 0 7 = [].
Proof.
  unfold has_pixels. intros H. apply draw_glyph_rows_zero. intros k Hk.
  destruct (Z.eqb_spec (glyph_5x7 ch k) 0) as [E|E]; [exact E|]. exfalso.
  assert (Hex : existsb (fun r => negb (glyph_5x7 ch (Z.of_nat r) =? 0)) (seq 0 7) = true).
  { apply existsb_exists. exists (Z.to_nat k). split.
    - apply in_seq. lia.
    - rewrite Z2Nat.id by lia. apply negb_true_iff. now apply Z.eqb_neq. }
  rewrite H in Hex. discriminate.
Qed.

Lemma draw_chars_blank text cell color : forall pen_x y,
  all_chars (fun ch => Ascii.eqb ch " " || negb (has_pixels ch)) text = true ->
  draw_chars text pen_x y cell color = [].
Proof.
  induction text as [|ch text IH]; intros pen_x y H; cbn [draw_chars all_chars] in *;
    [reflexivity|].
  apply andb_true_iff in H. destruct H as [Hc H].
  destruct (Ascii.eqb ch " "); [now apply IH|]. cbn [orb] in Hc.
  apply negb_true_iff in Hc. rewrite draw_glyph_rows_blank by exact Hc.
  now apply IH.
Qed.

(** X21.  The text drawing draws nothing for a null text, for an empty
    text and for a text made of spaces and of characters without pixels
    (lower-case letters, the minus sign, ...).  Every rectangle it draws
    is a square in the given colour whose side is the same for the whole
    text and at least 1, whatever the scale: a scale below 1, a negative
    one or a NaN gives the side 1. *)
Theorem text_is_drawn_in_unit_squares x y text scale color :
  let cell := max32 (f32_of_Z 1) (floor32 scale) in
  dz_draw_text_5x7 x y None scale color = [] /\
  dz_draw_text_5x7 x y (Some EmptyString) scale color = [] /\
  (all_chars (fun ch => Ascii.eqb ch " " || negb (has_pixels ch)) text = true ->
   dz_draw_text_5x7 x y (Some text) scale color = []) /\
  Forall (fun call => rect_w call = cell /\ rect_h call = cell /\ rect_color call = color)
    (dz_draw_text_5x7 x y (Some text) scale color) /\
  SFleb (f32_of_Z 1) cell = true.
Proof.
  intros cell. split; [reflexivity|]. split; [reflexivity|]. split; [|split].
  - intros H. destruct text; [reflexivity|]. apply draw_chars_blank, H.
  - destruct text; [constructor|]. apply draw_chars_squares.
  - unfold cell, max32. destruct (SFltb (f32_of_Z 1) (floor32 scale)) eqn:E.
    + now apply SFltb_leb.
    + reflexivity.
Qed.

Lemma text_is_drawn_in_unit_squares_witness :
  dz_draw_text_5x7 (f32_of_Z 8) (f32_of_Z 8) (Some "a - b"%string) (f32_of_Z 4)
    (dz_col_rgba (f32_of_Z 1) (f32_of_Z 1) (f32_of_Z 1) (f32_of_Z 1)) = [].
Proof.
  exact (proj1 (proj2 (proj2 (text_is_drawn_in_unit_squares (f32_of_Z 8) (f32_of_Z 8)
                                "a - b"%string (f32_of_Z 4)
                                (dz_col_rgba (f32_of_Z 1) (f32_of_Z 1) (f32_of_Z 1)
                                   (f32_of_Z 1))))) eq_refl).
Defined.

End KeyNameProperties.

(* ------------------------------------------------------------------ *)
(** ** Rows of the render pass *)

(** X22.  Rows are repacked by how many are enabled: a disabled row keeps
    the y of -1, and an enabled row lies at
    [topPad + k * (rowH + rowGap)] where [k] counts the enabled rows
    before it, so the enabled rows take the first slots from the top in
    their order, whichever rows are disabled. *)
Theorem rows_are_repacked d i :
  0 <= i < ROW_COUNT ->
  row_get (render_rowYs d) i =
  if row_get (row_enabled d) i
  then add32 topPad (mul32 (f32_of_Z (enabled_before d i)) (add32 (render_rowH d) rowGap))
  else f32_of_Z (-1).
Proof.
  intros Hi. unfold render_rowYs, enabled_before, visible_rows.
  generalize (render_rowH d). intros h.
  destruct (row_enabled d) as [e0 e1 e2 e3]. unfold ROW_COUNT in *.
  assert (i = 0 \/ i = 1 \/ i = 2 \/ i = 3) as [-> | [-> | [-> | ->]]] by lia;
    destruct e0, e1, e2, e3; reflexivity.
Qed.

Lemma rows_are_repacked_witness :
  let d := dz_source_update fresh_source
             (mk_obs_data 1500 520 (f64_of_Z 1) 0 0 0 0 0 87 83 65 68 false true false true) in
  row_get (render_rowYs d) 3 =
  add32 topPad (mul32 (f32_of_Z 1) (add32 (render_rowH d) rowGap)).
Proof.
  intros d. assert (H : 0 <= 3 < ROW_COUNT) by (unfold ROW_COUNT; lia).
  exact (rows_are_repacked d 3 H).
Defined.

(* ------------------------------------------------------------------ *)
(** ** Configuring a key *)

Lemma dz_obter_vkey_id k padrao : 1 <= k <= 65535 -> dz_obter_vkey k padrao = k.
Proof.
  intros H. unfold dz_obter_vkey.
  rewrite wrap_s32_small by (unfold INT_MAX; lia).
  replace (k =? 0) with false by (symmetry; apply Z.eqb_neq; lia). simpl.
  unfold wrap_u16, wrap_unsigned. apply Z.mod_small. lia.
Qed.

(** X23.  After an update whose four keys are proper virtual-key codes
    (1..65535), a key packet finds its row: the key of row W always maps
    to row W, and the key of a later row maps to that row unless an
    earlier row is configured with the same key, which then shadows it. *)
Theorem configured_keys_find_their_rows d s :
  1 <= s_row_w_key s <= 65535 -> 1 <= s_row_s_key s <= 65535 ->
  1 <= s_row_a_key s <= 65535 -> 1 <= s_row_d_key s <= 65535 ->
  let d' := Some (dz_source_update d s) in
  vkey_to_row d' (s_row_w_key s) = ROW_W /\
  (s_row_s_key s <> s_row_w_key s -> vkey_to_row d' (s_row_s_key s) = ROW_S) /\
  (s_row_a_key s <> s_row_w_key s -> s_row_a_key s <> s_row_s_key s ->
   vkey_to_row d' (s_row_a_key s) = ROW_A) /\
  (s_row_d_key s <> s_row_w_key s -> s_row_d_key s <> s_row_s_key s ->
   s_row_d_key s <> s_row_a_key s -> vkey_to_row d' (s_row_d_key s) = ROW_D) /\
  (s_row_s_key s = s_row_w_key s -> vkey_to_row d' (s_row_s_key s) = ROW_W).
Proof.
  intros Hw Hs Ha Hd d'. subst d'.
  unfold vkey_to_row, dz_source_update, apply_settings, set_st.
  cbn [row_key_vkey st]. rewrite !dz_obter_vkey_id by assumption.
  unfold ROW_COUNT. cbn [Z.to_nat Pos.to_nat Pos.iter_op Nat.add vkey_to_row_loop
                          row_get at0 at1 at2 at3 Z.add Pos.add Pos.succ].
  change (Pos.to_nat 4) with 4%nat.
  cbn [vkey_to_row_loop row_get at0 at1 at2 at3 Z.add Pos.add Pos.succ Z.eqb Pos.eqb].
  unfold ROW_W, ROW_S, ROW_A, ROW_D. rewrite !Z.eqb_refl.
  split; [reflexivity|]. split; [|split; [|split]].
  - intros N. apply Z.eqb_neq in N. rewrite Z.eqb_sym in N. now rewrite N.
  - intros N1 N2. apply Z.eqb_neq in N1, N2.
    rewrite Z.eqb_sym in N1. rewrite Z.eqb_sym in N2. now rewrite N1, N2.
  - intros N1 N2 N3. apply Z.eqb_neq in N1, N2, N3.
    rewrite Z.eqb_sym in N1. rewrite Z.eqb_sym in N2. rewrite Z.eqb_sym in N3.
    now rewrite N1, N2, N3.
  - intros E. rewrite E, Z.eqb_refl. reflexivity.
Qed.

Lemma configured_keys_find_their_rows_witness :
  let s := mk_obs_data 1500 520 (f64_of_Z 1) 0 0 0 0 0 VK_UP VK_DOWN VK_LEFT VK_RIGHT
             true true true true in
  vkey_to_row (Some (dz_source_update fresh_source s)) VK_UP = ROW_W.
Proof.
  intros s.
  exact (proj1 (configured_keys_find_their_rows fresh_source s
                  ltac:(simpl; unfold VK_UP; lia) ltac:(simpl; unfold VK_DOWN; lia)
                  ltac:(simpl; unfold VK_LEFT; lia) ltac:(simpl; unfold VK_RIGHT; lia))).
Defined.
